(* ===== verification/_CoqProject ===== *)
-Q . S2P
Prelude.v
PyStr.v
PyVal.v
Json.v
JsonFuel.v
JsonRoundtrip.v
JsonGrammar.v
Nonce.v
LogsApi.v
CloudWatch.v
Handler.v
CallTree.v
HandlerTree.v
Concurrent.v
Refinement.v
Published.v
Clock.v
ServiceSteps.v
EndToEnd.v
Output.v
Interleavings.v
