(* ===== verification/Prelude.v ===== *)
(** * A verification development of push-sns-messages-to-cloudwatch-logs

    The program ([src/push-sns-messages-to-cloudwatch-logs.py], 103
    lines) is one AWS Lambda handler.  It receives an SNS notification
    whose [Message] is a JSON array, makes sure a CloudWatch Logs log group
    exists, creates a fresh log stream named [prefix + "-" + nonce] and
    appends every element of the array, one record per [put_log_events]
    call, threading the sequence token each call returns into the next.

    ** Parts of the program and how they interact

    - [lambda_handler] (lines 68-103) reads two environment variables,
      draws an 8-character nonce with [random.choices], decodes the
      notification body with [json.loads], tests [len], then calls the
      helpers and loops over the messages.
    - The helpers [ifLogGroupExists], [createLogGroup], [createLogStream]
      and [putLogEvents] (lines 11-65) each make one call to the boto3
      client [cwlogs] (line 8): the only state the handler changes lives
      in the CloudWatch Logs service behind it.
    - Python's [str], [repr], [in], [upper], [len], iteration and
      subscripting decide several branches, so they are modelled too.
    - Lambda runs invocations concurrently, each in its own process,
      against the one service: their calls interleave.

    ** Files, in dependency order, and what they model

    - [Prelude] (this file): the state-and-exception monad [pym] (a world
      threaded through, a raised exception kept as a value together with
      the world reached), its notation [let* x := c in k] in [pym_scope],
      the sum monad of pure code, [pym_rel] (every run of a computation
      relates its start and end worlds by a preorder) with its bind rule,
      the hint databases [s2p_core] and [pym], and the tactics
      [pym_step], [rel_bind], [rel_ret] and [decide_by_compute].
    - [PyStr]: [in] on strings (line 27) as [py_contains], [str.upper]
      (line 76), [str(os.environ.get(k))] (lines 72-73), the truth test of
      the token (line 47).
    - [PyVal]: Python values and exceptions; [str]/[repr] after CPython's
      [unicode_repr] (line 97), [len] (line 80), iteration (line 92),
      subscripting of the event (line 78).
    - [Json]: [json.loads] (line 78) after CPython 3.12's C scanner
      ([scan_once], [array_items], [object_items], [scanstring_chars],
      [match_number], mutually recursive on fuel) and [JSONDecoder.decode]
      ([json_decode], with the text of [JSONDecodeError]); the scanner
      carries the C recursion allowance [_Py_EnterRecursiveCall] checks
      on entering every array and object, and raises [RecursionError]
      when it is used up ([json_decode limit] starts it at [limit], the
      allowance left at the call, which depends on the interpreter and
      the caller's stack: every theorem is stated for every [limit]);
      [json.dumps] with its defaults ([json_dumps]) and its own recursion
      check ([json_value_ok limit]), the encoder of the publisher; the
      class [JsonLoads limit] of decoders that agree with the model.  This is
      library code, modelled from its source, not code of the repository.
    - [JsonFuel]: the scanner consumes input, never runs out of
      [json_fuel], and gives the same answer with more fuel; a text that
      opens [limit + 1] arrays raises [RecursionError].
    - [JsonRoundtrip]: [json.loads] of [json.dumps v] is [v], by a nested
      induction on values ([pyval_ind']).
    - [JsonGrammar]: the abstract specification of [json.loads]: the
      grammar of RFC 8259 as mutually inductive relations between texts
      and values, indexed by the nesting allowed (RFC 8259, section 9,
      lets an implementation limit it) ([json_value], [json_elems],
      [json_members], [json_text];
      whitespace, integer numbers, strings with their escapes, the dict an
      object denotes with [PyDict_SetItem]'s handling of repeated keys),
      written with its own character classes and decimal values.  The
      scanner is sound (fuel induction, [scan_sound]) and complete
      (induction on derivations, [grammar_scans]) for it, so
      [json_decode limit] accepts a text with value [v] exactly when the
      grammar derives [v] within [limit] levels ([json_decode_grammar]).
    - [Nonce]: lines 75-76.  CPython's [random()] from two 32-bit words,
      the binary64 product [random() * 62] rounded to nearest-even on its
      integer significand ([rne_bits], and the division-based reference
      [rne_ref]), [choices], [join], [upper].
    - [LogsApi]: the API's data (log events, [put_log_events] response,
      [rejectedLogEventsInfo], response metadata), the trace entries and
      [result_fits] (a response of the request's kind), the client
      interface [LogsClient], a type class the handler is written and
      proved against, and the service's contract [LogsContract]: the laws
      of group creation, stream creation and a one-record append, and the
      frame laws (a call changes no other stream), stated on observations
      of the service state.  The responses are also Python dicts as
      botocore builds them ([meta_response_pyval], [put_response_pyval]:
      the body's members in the API's order, absent ones left out, then
      [ResponseMetadata] with its request id, status, headers and
      retries), which is what lines 21, 38 and 61 print.
    - [CloudWatch]: a model of the service, from the spec and the API's
      documented behaviour (it is not code of the repository): groups kept
      sorted by name with their tags and streams, first page of 50 for
      [describe_log_groups], name validation, sequence-token check, the
      two-hours-ahead / fourteen-days-back acceptance window, a fresh
      non-empty token per accepted call, the metadata [ok_meta] of a
      successful call (one fixed request id).  [cw_client] is its
      [LogsClient] instance; [wf] is its invariant and every operation
      keeps it; [cw_contract] proves that it keeps [LogsContract].
    - [Handler]: the world record ([World]: service state, [os.environ],
      clock readings, random words, API trace, stdout) and one definition
      per function of the source; the append loop is [put_messages], the
      branch of lines 80-88 is [open_stream].  [put_chain] is the
      relation that describes which traces the loop may leave.  Section
      [HelperRelations] proves once, for any preorder on worlds that
      every helper and every quiet step respects, that a whole invocation
      respects it ([rel_handler_of_helpers]); Section [RunRelations]
      derives the same for a preorder every API call respects
      ([rel_lambda_handler]), of which the trace typing, isolation and
      service-step theorems are instances.  A response is printed as
      [label - str(response)] (a [PrintResponse] line), the line of line
      90 is a [PrintText] line.
    - [CallTree]: an invocation as a tree of API requests ([call_tree]:
      a request and the continuation that takes the service's answer),
      the monad [inv] of such trees over the invocation's own world, and
      [implements], the relation between a tree and a computation of the
      state monad, closed under [let*].
    - [HandlerTree]: the functions of [Handler] again, line for line, as
      trees; [lambda_handler_tree] implements [lambda_handler] for every
      client, and an invocation makes at most [3 + k] requests for [k]
      messages.
    - [Concurrent]: configurations of invocations sharing one service, a
      step answering one pending request ([step_at], [cstep]), schedules
      ([run_schedule]), the liveness of concurrent invocations, and the
      isolation of their streams ([writes_only]: the streams a request
      creates or writes).
    - [Refinement]: the handler against [LogsContract]: the loop and
      [open_stream] on a ready service, the branch of a non-empty
      notification, the refinement theorem, and the isolation theorem
      (the preorder [streams_kept]: no stream outside a given set
      changes).
    - [Published]: the handler composed with the decoder: the text a
      publisher writes with [json.dumps], read by any decoder of
      [JsonLoads limit], reaches the stream value by value; a rejected
      text, a too deeply nested one included, raises before any API
      call.
    - [Clock]: line 94, [int(round(time.time() * 1000))]: a binary64
      reading, the binary64 product rounded on 53 bits ([rne_ref]) and
      Python's [round] ([py_round]); [time_clock] builds the world's
      integer clock from [time.time()] readings.
    - [ServiceSteps]: the service model as a step relation [cw_step]
      (group creation, stream creation, append, clock tick) with
      reachability from the empty service; [wf] holds in every reachable
      state and streams are append-only ([stream_extends]) along steps.
    - [EndToEnd]: the handler on the service model: the group lookup's
      substring and first-page behaviours for every world, and the
      witnesses (the refinement theorem's at [cw_contract], the composed
      theorems' at [json_loads_model allowance]).
    - [Output]: what the handler prints: [response_lines], the line
      [printed_for] a trace entry, and the preorder [output_mirrors]
      (the response lines grew by the lines of the calls the trace grew
      by), which every helper respects, so every run does
      ([rel_handler_of_helpers]); the preorder [only_responses], which
      places the line of line 90.
    - [Interleavings]: the first requests of every cold-start invocation
      tree, the check-then-create race for every service state and every
      two invocations, and the witnesses of [Concurrent].

    ** What the theorems show

    - Refinement (C1): for every client that keeps [LogsContract], on a
      service ready for the stream and accepting every record, the
      handler returns [None] and the new stream holds exactly the stamped
      messages, [str] of each, in order; the service model is such a
      client.
    - Loop (C2-C4): for every client, the loop sends each message alone
      as [str(message)] with successive clock readings, threads the token
      the previous call returned (leaving it out when falsy), and stops
      with [False] at the first rejection.
    - Calls and isolation (C5-C7, C16-C18, C21): a non-empty
      notification is [open_stream] then the loop from no token on the
      name [open_stream] returned; every run, whatever the client and the
      notification, makes one describe, at most one group creation and at
      most one stream creation, then only single-record appends to the
      name [open_stream] returned; for every client that keeps the
      contract's frame laws, an invocation changes no stream but its own
      [prefix + "-" + nonce] and [""] of its group; an empty notification
      makes no API call at all; the existence test is substring
      containment; the group is created exactly when the test fails; a
      stream creation answering a status other than 200 makes the loop
      write to the stream [""].
    - Decoder and composition (C8-C12): what the publisher prints with
      [json.dumps] within the recursion allowance reaches the stream value
      by value as [str] of each value; a body [json.loads] rejects, with
      [JSONDecodeError] or [RecursionError], raises before any API call;
      a body that opens more arrays than the allowance raises
      [RecursionError]; [json.loads] of [json.dumps v] is [v]; the
      decoding step accepts exactly the JSON texts of the grammar nested
      within the allowance, with the value the grammar gives them (a
      refinement of the RFC 8259 specification).
    - Concurrent invocations (C13-C15): under every schedule every run of
      concurrently started invocations is finite (at most [3 + k] calls
      per invocation of [k] messages) and ends with every invocation
      returned (liveness); for every service state without the group and
      every two invocations configured for it, when both look the group
      up before either creates it, the second [createLogGroup] fails with
      [ResourceAlreadyExistsException] and that invocation's messages are
      lost (the race of lines 82-86); when no other invocation draws its
      stream name, no step of another invocation changes an invocation's
      stream (isolation under every interleaving).
    - Findings on every world (C19, C20, C22): a configured name that is
      a substring of another group's name, or a group past the first
      page, makes the invocation fail; a body that decodes to a string
      or an object is written as the array of its characters or keys, and
      one that decodes to a number, boolean or [null] raises [TypeError]
      at [len].
    - Clock (C23, C24): the records the loop sends carry non-decreasing
      timestamps when [time.time()] does not go back, across binades
      too; a stamp is within half a millisecond plus the rounding of the
      float product ([2^-13] ms today) of the exact [1000 * time.time()].
    - Nonce (C25-C27): the index [floor(random() * n)] stays below [n]
      whatever the rounding, and is the exact floor of [k * n / 2**53] or
      one more (one more does occur for [n = 62]); the nonce matches
      [[A-Z0-9]{8}].
    - Output (C28, C29): for every client, decoder and notification, the
      response lines a run prints are, in order, one [label -
      str(response)] line per creation or append call that returned and
      none for a lookup or a call that raised; the line of line 90 is
      written once, between the response lines of [open_stream] and those
      of the loop, and names the stream [open_stream] returned.

    ** Bounds and fuel

    The handler needs no fuel: every loop of the program runs over a
    finite list and is structural recursion.  Interleaved invocations need no
    fuel either: each step answers one request, and an invocation's tree
    has at most [3 + k] requests on every path ([calls_within]), so the
    sum of these bounds bounds every run.  The JSON scanner recurses
    into nested values without consuming input between an opening bracket
    and its first item, so it runs on fuel: [json_fuel] is twice the
    length of the text plus one.  A value on a suffix of length [n] needs
    [2n + 1] (an item loop [2n + 2]): each bracket costs two units and
    consumes one character, and a successful scan leaves a strictly
    shorter suffix ([scan_consumes], [scan_total]); [json_fuel_enough]
    and [scan_once_fuel_irrelevant] show that this never runs out and
    that more fuel changes nothing.  Nesting is bounded separately by the
    recursion allowance [limit], one unit per array or object entered,
    as in CPython's scanner and encoder; the witnesses take
    [allowance = 1000], the default [sys.getrecursionlimit()].  The random words are bounded by
    [2^32] ([words_32]); the float product is exact below [2^53] and is
    rounded on 53 bits above, which is all [random() * 62] needs.  The
    clock's product [time.time() * 1000] has a 63-bit exact significand,
    so its rounding moves it by at most [2^9] units of the reading's last
    place ([rne_ref_err]); readings of any exponents are compared
    ([f64_le]).
    Integers are unbounded [Z], as in Python; [json.dumps] and
    [json.loads] refuse integers of more than 4300 digits
    ([json_value_ok], [match_number]).

    ** What is not modelled

    In [json.loads]: floats, NaN and Infinity, and [\uXXXX] escapes
    above U+00FF (texts are strings of code points below 256);
    [json_decode] answers [None] on such texts, and the handler's own
    theorems hold for every decoder.  The value of the C recursion
    allowance is not fixed: it depends on the interpreter's build and on
    the stack of the Lambda runtime at the call, so the theorems take it
    as a parameter.  Also left out: boto3's
    transport and retries, IAM, the readings of [time.time()] themselves
    (any stream of floats), the Mersenne Twister itself (any stream of
    32-bit words), the request ids and headers a real service sends
    (the model answers one fixed metadata), and the service's own clock
    advancing during a call.
*)

From stdpp Require Import base list.
From Stdlib Require Import ZArith Lia.

(** ** Outcomes of a Python computation *)

Inductive outcome (E A : Type) : Type :=
| Normal (a : A)
| Raised (e : E).
Arguments Normal {E A} a.
Arguments Raised {E A} e.

(** ** The exception monad of pure Python code

    A pure computation that may raise is an [E + A]; stdpp's [x ← r; k]
    chains such computations. *)

#[export] Instance sum_mret {E} : MRet (sum E) := fun A a => inr a.
#[export] Instance sum_mbind {E} : MBind (sum E) :=
  fun A B f r => match r with inl e => inl e | inr a => f a end.

(** ** The state-and-exception monad

    A Python function that touches the outside world is modelled as a
    function from the world before the call to its outcome and the world
    after it.  The world is kept when an exception is raised: the side
    effects performed before the exception are not undone. *)

Section Pym.
Context {W E : Type}.

Definition pym (A : Type) : Type := W -> outcome E A * W.

Definition pym_ret {A} (a : A) : pym A := fun w => (Normal a, w).

Definition pym_raise {A} (e : E) : pym A := fun w => (Raised e, w).

Definition pym_bind {A B} (c : pym A) (f : A -> pym B) : pym B :=
  fun w =>
    match c w with
    | (Normal a, w') => f a w'
    | (Raised e, w') => (Raised e, w')
    end.

Definition pym_get : pym W := fun w => (Normal w, w).

Definition pym_modify (f : W -> W) : pym unit := fun w => (Normal tt, f w).

(** Lift a pure, possibly failing, computation. *)
Definition pym_lift {A} (r : E + A) : pym A :=
  match r with
  | inl e => pym_raise e
  | inr a => pym_ret a
  end.

End Pym.
Arguments pym : clear implicits.

Declare Scope pym_scope.
Delimit Scope pym_scope with pym.
Notation "'let*' x ':=' c 'in' k" := (pym_bind c (fun x => k))
  (at level 10, x name, c at level 100, k at level 200) : pym_scope.
Notation "'let*' ' p ':=' c 'in' k" := (pym_bind c (fun x => match x with p => k end))
  (at level 10, p pattern, c at level 100, k at level 200) : pym_scope.
Open Scope pym_scope.

(** ** Monad laws and running lemmas *)

Create HintDb s2p_core discriminated.
Create Rewrite HintDb pym.

Section PymLemmas.
Context {W E : Type}.

Lemma pym_bind_ret_l {A B} (a : A) (f : A -> pym W E B) w :
  pym_bind (pym_ret a) f w = f a w.
Proof. reflexivity. Qed.



Lemma pym_bind_raise {A B} (e : E) (f : A -> pym W E B) w :
  pym_bind (pym_raise e) f w = (Raised e, w).
Proof. reflexivity. Qed.

(** Running a bind once the first computation is known. *)
Lemma pym_bind_normal {A B} (c : pym W E A) (f : A -> pym W E B) w a w' :
  c w = (Normal a, w') -> pym_bind c f w = f a w'.
Proof. unfold pym_bind. by intros ->. Qed.

Lemma pym_bind_raised {A B} (c : pym W E A) (f : A -> pym W E B) w e w' :
  c w = (Raised e, w') -> pym_bind c f w = (Raised e, w').
Proof. unfold pym_bind. by intros ->. Qed.

End PymLemmas.

#[export] Hint Rewrite @pym_bind_ret_l @pym_bind_raise : pym.

(** ** Relations every run keeps

    [pym_rel R c]: every run of [c], returning or raising, relates the
    world it starts from to the world it ends in by [R].  For a preorder
    [R] the property goes through [pym_ret], [pym_raise] and binds, so a
    property of a whole handler follows from its parts. *)

Section PymRel.
Context {W E : Type} (R : relation W) `{!PreOrder R}.

Definition pym_rel {A} (c : pym W E A) : Prop := forall w, R w (c w).2.

Lemma pym_rel_ret {A} (a : A) : pym_rel (pym_ret a).
Proof. intros w. cbn. reflexivity. Qed.

Lemma pym_rel_raise {A} (e : E) : pym_rel (A:=A) (pym_raise e).
Proof. intros w. cbn. reflexivity. Qed.

Lemma pym_rel_lift {A} (r : E + A) : pym_rel (pym_lift r).
Proof. destruct r; [apply pym_rel_raise|apply pym_rel_ret]. Qed.

Lemma pym_rel_modify (f : W -> W) : (forall w, R w (f w)) -> pym_rel (pym_modify f).
Proof. intros Hf w. apply Hf. Qed.

(** The continuation only needs [R] for the values the first part can
    return. *)
Lemma pym_rel_bind {A B} (c : pym W E A) (f : A -> pym W E B) :
  pym_rel c -> (forall w a w', c w = (Normal a, w') -> pym_rel (f a)) ->
  pym_rel (pym_bind c f).
Proof.
  intros Hc Hf w. specialize (Hc w). unfold pym_bind.
  destruct (c w) as [[a|e] w'] eqn:Hcw; cbn in *; [|done].
  etransitivity; [exact Hc|]. exact (Hf w a w' Hcw w').
Qed.
End PymRel.

(** Apply the rules of [pym_rel], the preorder found by resolution. *)
Ltac rel_bind := refine (pym_rel_bind _ _ _ _ _).
Ltac rel_ret :=
  lazymatch goal with
  | |- pym_rel _ (pym_ret _) => refine (pym_rel_ret _ _)
  | |- pym_rel _ (pym_raise _) => refine (pym_rel_raise _ _)
  | |- pym_rel _ (pym_lift _) => refine (pym_rel_lift _ _)
  end.

(** Unfold the monad's plumbing in the goal. *)
Ltac pym_unfold :=
  unfold pym_bind, pym_ret, pym_raise, pym_get, pym_modify, pym_lift in *.


(** Close a decidable goal about closed data by evaluating its decision
    procedure. *)
Ltac decide_by_compute := apply (bool_decide_unpack _); vm_compute; reflexivity.

(** Run the first computation of a bind, whose outcome [tac] proves. *)
Tactic Notation "pym_step" "by" tactic3(tac) := erewrite pym_bind_normal by tac; cbv beta.
