(* ===== verification/PyStr.v ===== *)
(** * Python string operations used by the handler

    [py_contains] is Python's [needle in hay] on [str] (line 27 of the
    source), [py_upper] is [str.upper] on the ASCII range (line 76),
    [py_str_opt] is [str(os.environ.get(name))] (lines 72-73) and
    [py_truthy_token] is the truth test [if nextSequenceToken:] (line 47).
    Strings are Stdlib strings: a Python [str] whose code points are
    below 256, one [ascii] per code point. *)

From stdpp Require Import base list strings.
From Stdlib Require Import Ascii String Lia.
From S2P Require Import Prelude.

Local Open Scope string_scope.

(** ** Substring containment, [needle in hay] *)

(** CPython answers [needle in hay] by searching every start position of
    [hay]; the empty needle is found in every string. *)
Fixpoint py_contains (needle hay : string) : bool :=
  String.prefix needle hay ||
  match hay with
  | EmptyString => false
  | String _ hay' => py_contains needle hay'
  end.

(** ** [str.upper] on ASCII *)

Definition ascii_upper (c : ascii) : ascii :=
  let n := nat_of_ascii c in
  if (97 <=? n)%nat && (n <=? 122)%nat then ascii_of_nat (n - 32) else c.

Fixpoint py_upper (s : string) : string :=
  match s with
  | EmptyString => EmptyString
  | String c s' => String (ascii_upper c) (py_upper s')
  end.

(** ** [str()] of an optional environment variable and token truthiness *)

(** [str(os.environ.get(k))]: an unset variable gives the text "None". *)
Definition py_str_opt (o : option string) : string :=
  match o with
  | Some s => s
  | None => "None"
  end.

(** [if tok:] for a token that is [None] or a [str]: the empty string is
    false, like [None]. *)
Definition py_truthy_token (o : option string) : bool :=
  match o with
  | Some s => negb (String.eqb s "")
  | None => false
  end.

(** ** Lemmas *)

Lemma prefix_spec (n h : string) :
  String.prefix n h = true <-> exists b, h = n ++ b.
Proof.
  revert h. induction n as [|c n IH]; intros h; simpl.
  - split; intros; [by exists h | by destruct h].
  - destruct h as [|d h]; simpl.
    + split; [done|]. by intros [b ?].
    + destruct (ascii_dec c d) as [->|Hne].
      * rewrite IH. split; intros [b Hb]; exists b; [by subst | by injection Hb].
      * split; [done|]. intros [b Hb]. injection Hb. congruence.
Qed.

Lemma py_contains_cons (n : string) c h :
  py_contains n (String c h) = String.prefix n (String c h) || py_contains n h.
Proof. reflexivity. Qed.

(** [py_contains] is substring containment. *)
Lemma py_contains_spec (needle hay : string) :
  py_contains needle hay = true <-> exists a b, hay = a ++ needle ++ b.
Proof.
  induction hay as [|c h IH].
  - change (String.prefix needle "" || false = true
            <-> exists a b, "" = a ++ needle ++ b).
    rewrite orb_false_r, prefix_spec. split.
    + intros [b Hb]. by exists "", b.
    + intros [a [b Hab]]. destruct a; [by exists b | done].
  - rewrite py_contains_cons, orb_true_iff, prefix_spec, IH. split.
    + intros [[b Hb] | [a [b Hab]]].
      * by exists "", b.
      * exists (String c a), b. by rewrite Hab.
    + intros [[|d a] [b Hab]].
      * left. by exists b.
      * right. injection Hab as -> Hh. by exists a, b.
Qed.


Lemma length_py_upper (s : string) : String.length (py_upper s) = String.length s.
Proof. induction s; simpl; auto. Qed.
