(* ===== verification/PyVal.v ===== *)
(** * Python values, exceptions and the built-ins the handler applies

    [pyval] is the part of Python's object world that [json.loads] and the
    Lambda runtime produce (None, bool, int, str, list, dict; JSON floats
    are not modelled).  [PyExn] lists the exceptions the handler can end
    with.  The built-ins are written after CPython: [py_repr]/[py_str]
    ([str(message)], line 97), [py_len] ([len(logEvents)], line 80),
    [py_iter] ([for message in logEvents], line 92) and [py_getitem]
    ([event["Records"][0]["Sns"]["Message"]], line 78). *)

From stdpp Require Import base list strings pretty.
From Stdlib Require Import Ascii String ZArith Lia.
From S2P Require Import Prelude PyStr.

Local Open Scope string_scope.

#[local] Set Warnings "-register-all".
Inductive pyval : Type :=
| PNone
| PBool (b : bool)
| PInt (z : Z)
| PStr (s : string)
| PList (l : list pyval)
| PDict (kvs : list (string * pyval)).

Inductive PyExn : Type :=
| KeyError (key : string)
| IndexError (msg : string)
| TypeError (msg : string)
| JSONDecodeError (msg : string)
| RecursionError (msg : string)
| ClientError (code : string)
| ParamValidationError (msg : string).

(** ** [repr] of a [str] (CPython's [unicode_repr]) *)

Definition chr (n : nat) : ascii := ascii_of_nat n.

Definition hex_digit (n : nat) : ascii :=
  if (n <? 10)%nat then chr (48 + n) else chr (87 + n).

(** [\xHH] with two lower-case hex digits. *)
Definition hex_escape (n : nat) : string :=
  String (chr 92) (String "x"%char
    (String (hex_digit (n / 16)) (String (hex_digit (n mod 16)) ""))).

(** Code points below 256 that [str.isprintable] rejects: the C0 controls,
    DEL, the C1 controls, NO-BREAK SPACE and SOFT HYPHEN. *)
Definition unprintable (n : nat) : bool :=
  (n <? 32)%nat || (n =? 127)%nat || ((128 <=? n)%nat && (n <=? 160)%nat) || (n =? 173)%nat.

Definition repr_char (quote c : ascii) : string :=
  let n := nat_of_ascii c in
  if (n =? nat_of_ascii quote)%nat || (n =? 92)%nat then String (chr 92) (String c "")
  else if (n =? 9)%nat then String (chr 92) "t"
  else if (n =? 10)%nat then String (chr 92) "n"
  else if (n =? 13)%nat then String (chr 92) "r"
  else if unprintable n then hex_escape n
  else String c "".

(** The quote is ['] unless the text holds ['] and no double quote. *)
Definition repr_quote (s : string) : ascii :=
  if py_contains "'" s && negb (py_contains (String (chr 34) "") s) then chr 34
  else "'"%char.

Fixpoint repr_body (quote : ascii) (s : string) : string :=
  match s with
  | EmptyString => EmptyString
  | String c s' => repr_char quote c ++ repr_body quote s'
  end.

Definition repr_str (s : string) : string :=
  let q := repr_quote s in
  String q (repr_body q s ++ String q "").

(** ** [repr()] and [str()] *)

Fixpoint py_repr (v : pyval) : string :=
  match v with
  | PNone => "None"
  | PBool true => "True"
  | PBool false => "False"
  | PInt z => pretty z
  | PStr s => repr_str s
  | PList l => "[" ++ String.concat ", " (map py_repr l) ++ "]"
  | PDict kvs =>
      "{" ++ String.concat ", "
               (map (fun kv => repr_str kv.1 ++ ": " ++ py_repr kv.2) kvs) ++ "}"
  end.

(** [str(v)] is [repr(v)] except on a [str], which it returns as it is. *)
Definition py_str (v : pyval) : string :=
  match v with
  | PStr s => s
  | _ => py_repr v
  end.

(** ** [len()], iteration and subscripting *)

Definition py_typename (v : pyval) : string :=
  match v with
  | PNone => "NoneType"
  | PBool _ => "bool"
  | PInt _ => "int"
  | PStr _ => "str"
  | PList _ => "list"
  | PDict _ => "dict"
  end.

Definition py_len (v : pyval) : PyExn + nat :=
  match v with
  | PStr s => inr (String.length s)
  | PList l => inr (List.length l)
  | PDict kvs => inr (List.length kvs)
  | _ => inl (TypeError ("object of type '" ++ py_typename v ++ "' has no len()"))
  end.

(** [for x in v]: a [str] yields its characters, a [dict] its keys. *)
Definition py_iter (v : pyval) : PyExn + list pyval :=
  match v with
  | PStr s => inr (map (fun c => PStr (String c "")) (list_ascii_of_string s))
  | PList l => inr l
  | PDict kvs => inr (map (fun kv => PStr kv.1) kvs)
  | _ => inl (TypeError ("'" ++ py_typename v ++ "' object is not iterable"))
  end.

(** A sequence index after Python's normalisation of negative indices. *)
Definition py_index (n : nat) (i : Z) : option nat :=
  let j := if (i <? 0)%Z then (i + Z.of_nat n)%Z else i in
  if (0 <=? j)%Z && (j <? Z.of_nat n)%Z then Some (Z.to_nat j) else None.

(** An integer key: [bool] is a subclass of [int]. *)
Definition py_as_int (k : pyval) : option Z :=
  match k with
  | PInt i => Some i
  | PBool b => Some (Z.b2z b)
  | _ => None
  end.

Fixpoint dict_lookup (key : string) (kvs : list (string * pyval)) : option pyval :=
  match kvs with
  | [] => None
  | (k, x) :: kvs' => if String.eqb k key then Some x else dict_lookup key kvs'
  end.

Definition py_getitem (v k : pyval) : PyExn + pyval :=
  match v with
  | PDict kvs =>
      match k with
      | PStr key =>
          match dict_lookup key kvs with
          | Some x => inr x
          | None => inl (KeyError key)
          end
      | _ => inl (KeyError (py_repr k))
      end
  | PList l =>
      match py_as_int k with
      | Some i =>
          match py_index (List.length l) i ≫= (l !!.) with
          | Some x => inr x
          | None => inl (IndexError "list index out of range")
          end
      | None => inl (TypeError ("list indices must be integers or slices, not "
                                ++ py_typename k))
      end
  | PStr s =>
      match py_as_int k with
      | Some i =>
          match py_index (String.length s) i ≫= (fun j => String.get j s) with
          | Some c => inr (PStr (String c ""))
          | None => inl (IndexError "string index out of range")
          end
      | None => inl (TypeError "string indices must be integers")
      end
  | _ => inl (TypeError ("'" ++ py_typename v ++ "' object is not subscriptable"))
  end.

(** [json.loads] accepts only a [str] (bytes are not modelled). *)
Definition json_loads_arg (v : pyval) : PyExn + string :=
  match v with
  | PStr s => inr s
  | _ => inl (TypeError ("the JSON object must be str, bytes or bytearray, not "
                         ++ py_typename v))
  end.

(** ** Lemmas *)



(** A JSON string's [str()] is its text; a number's is its decimal form. *)
Example py_str_samples :
  py_str (PStr "alpha") = "alpha" /\ py_str (PInt 42) = "42" /\
  py_str (PInt (-7)) = "-7" /\ py_str (PBool true) = "True" /\
  py_str PNone = "None" /\
  py_str (PList [PStr "a"; PInt 1]) = "['a', 1]" /\
  py_str (PDict [("k", PBool false)]) = "{'k': False}".
Proof. vm_compute. repeat split. Qed.

Lemma py_iter_len (v : pyval) (l : list pyval) :
  py_iter v = inr l -> py_len v = inr (List.length l).
Proof.
  destruct v; simpl; intros H; simplify_eq; f_equal; rewrite ?length_map; try done.
  clear. induction s; simpl; auto.
Qed.
