(* ===== verification/Json.v ===== *)
(** * The JSON decoder [json.loads] and encoder [json.dumps]

    [lambda_handler] decodes the notification body with [json.loads]
    (line 78).  This file models CPython 3.12's C scanner of the standard
    library ([Modules/_json.c]: [scan_once_unicode], [scanstring_unicode],
    [_parse_array_unicode], [_parse_object_unicode],
    [_match_number_unicode]) and [JSONDecoder.decode] of [json/decoder.py]
    on texts of code points below 256 (a [string] of [ascii]).  It is not
    code of the repository: the model follows the library's source.

    The scanner works on the remaining suffix of the text; an error keeps
    the suffix at which CPython reports it, and [json_decode] turns it
    into the message of [JSONDecodeError].  Nested values are parsed by
    mutually recursive functions with fuel; [json_fuel] is enough for
    every text.  [scan_once_unicode] enters every array and object
    through [_Py_EnterRecursiveCall], which raises [RecursionError] when
    the interpreter's C recursion allowance is used up: the scanner
    carries that allowance ([depth], the levels of nesting left) and
    [json_decode limit] starts it at [limit], the allowance left when
    [json.loads] is called (it depends on the interpreter's build and on
    the caller's stack, so every theorem holds for every [limit]).  What
    the model leaves out (floats, NaN and Infinity, [\uXXXX] escapes
    above U+00FF, integers longer than 4300 digits) makes [json_decode]
    answer [None] ("outside the model").

    [json_dumps] is [json.dumps] with its defaults (ASCII output,
    separators [", "] and [": "]), the encoder a publisher uses to build
    the notification body. *)

From stdpp Require Import base list strings pretty.
From Stdlib Require Import Ascii String ZArith Lia.
From S2P Require Import Prelude PyStr PyVal.

Local Open Scope string_scope.

(** ** Characters *)

Definition dquote : ascii := ascii_of_nat 34.
Definition backslash : ascii := ascii_of_nat 92.

(** [WHITESPACE = r'[ \t\n\r]*'] *)
Definition is_ws (c : ascii) : bool :=
  Ascii.eqb c " " || Ascii.eqb c (ascii_of_nat 9) || Ascii.eqb c (ascii_of_nat 10) ||
  Ascii.eqb c (ascii_of_nat 13).

Fixpoint skip_ws (s : list ascii) : list ascii :=
  match s with
  | c :: t => if is_ws c then skip_ws t else s
  | [] => []
  end.

Definition is_digit (c : ascii) : bool :=
  (48 <=? nat_of_ascii c)%nat && (nat_of_ascii c <=? 57)%nat.

Definition hex_value (c : ascii) : option nat :=
  let n := nat_of_ascii c in
  if (48 <=? n)%nat && (n <=? 57)%nat then Some (n - 48)%nat
  else if (97 <=? n)%nat && (n <=? 102)%nat then Some (n - 87)%nat
  else if (65 <=? n)%nat && (n <=? 70)%nat then Some (n - 55)%nat
  else None.

Definition decode_uXXXX (h1 h2 h3 h4 : ascii) : option nat :=
  a ← hex_value h1; b ← hex_value h2; c ← hex_value h3; d ← hex_value h4;
  Some (((a * 16 + b) * 16 + c) * 16 + d)%nat.

(** The escapes of [scanstring_unicode] other than [\u]. *)
Definition short_escape (e : ascii) : option ascii :=
  if Ascii.eqb e dquote then Some dquote
  else if Ascii.eqb e backslash then Some backslash
  else if Ascii.eqb e "/" then Some "/"%char
  else if Ascii.eqb e "b" then Some (ascii_of_nat 8)
  else if Ascii.eqb e "f" then Some (ascii_of_nat 12)
  else if Ascii.eqb e "n" then Some (ascii_of_nat 10)
  else if Ascii.eqb e "r" then Some (ascii_of_nat 13)
  else if Ascii.eqb e "t" then Some (ascii_of_nat 9)
  else None.

(** ** Results of the scanner *)

Inductive scan_result (A : Type) : Type :=
| Scanned (a : A) (rest : list ascii)
| ScanError (msg : string) (at_rest : list ascii)
| TooDeep (site : string)
| Unmodelled
| OutOfFuel.
Arguments Scanned {A} a rest.
Arguments ScanError {A} msg at_rest.
Arguments TooDeep {A} site.
Arguments Unmodelled {A}.
Arguments OutOfFuel {A}.

Definition scan_bind {A B} (r : scan_result A) (k : A -> list ascii -> scan_result B) : scan_result B :=
  match r with
  | Scanned a rest => k a rest
  | ScanError m p => ScanError m p
  | TooDeep w => TooDeep w
  | Unmodelled => Unmodelled
  | OutOfFuel => OutOfFuel
  end.

(** ** Strings: [scanstring_unicode] with [strict=True]

    [begin] is the suffix at the opening quote, where an unterminated
    string is reported; [acc] holds the decoded characters, last first. *)
Fixpoint scanstring_chars (begin s acc : list ascii) : scan_result string :=
  match s with
  | [] => ScanError "Unterminated string starting at" begin
  | c :: t =>
      if Ascii.eqb c dquote then Scanned (string_of_list_ascii (rev acc)) t
      else if Ascii.eqb c backslash then
        match t with
        | [] => ScanError "Unterminated string starting at" begin
        | e :: t1 =>
            if Ascii.eqb e "u" then
              match t1 with
              | h1 :: h2 :: h3 :: h4 :: t2 =>
                  if bool_decide (t2 = []) then ScanError "Invalid \uXXXX escape" t
                  else match decode_uXXXX h1 h2 h3 h4 with
                       | None => ScanError "Invalid \uXXXX escape" t
                       | Some u =>
                           if (u <? 256)%nat then scanstring_chars begin t2 (ascii_of_nat u :: acc)
                           else Unmodelled
                       end
              | _ => ScanError "Invalid \uXXXX escape" t
              end
            else match short_escape e with
                 | Some c' => scanstring_chars begin t1 (c' :: acc)
                 | None => ScanError "Invalid \escape" s
                 end
        end
      else if (nat_of_ascii c <=? 31)%nat then ScanError "Invalid control character at" s
      else scanstring_chars begin t (c :: acc)
  end.

(** ** Numbers: [_match_number_unicode] *)

Fixpoint span_digits (s : list ascii) : list ascii * list ascii :=
  match s with
  | c :: t => if is_digit c then let '(d, r) := span_digits t in (c :: d, r) else ([], s)
  | [] => ([], [])
  end.

Definition digits_value (ds : list ascii) : Z :=
  fold_left (fun acc c => acc * 10 + Z.of_nat (nat_of_ascii c - 48))%Z ds 0%Z.

(** A fraction [.d] follows the integer part. *)
Definition frac_follows (s : list ascii) : bool :=
  match s with
  | p :: d :: _ => Ascii.eqb p "." && is_digit d
  | _ => false
  end.

(** An exponent [e[+-]?d] follows; the sign is taken only when a
    character follows it. *)
Definition exp_follows (s : list ascii) : bool :=
  match s with
  | e :: t =>
      (Ascii.eqb e "e" || Ascii.eqb e "E") &&
      match t with
      | sg :: d :: _ => if Ascii.eqb sg "+" || Ascii.eqb sg "-" then is_digit d else is_digit sg
      | [d] => is_digit d
      | [] => false
      end
  | [] => false
  end.

Definition match_number (s : list ascii) : scan_result pyval :=
  let '(neg, s1) := match s with c :: t => if Ascii.eqb c "-" then (true, t) else (false, s) | [] => (false, s) end in
  let '(ds, r) := match s1 with
                  | c :: t => if Ascii.eqb c "0" then ([c], t) else span_digits s1
                  | [] => ([], [])
                  end in
  if bool_decide (ds = []) then ScanError "Expecting value" s
  else if frac_follows r || exp_follows r then Unmodelled
  else if (4300 <? List.length ds)%nat then Unmodelled
  else Scanned (PInt (if neg then - digits_value ds else digits_value ds)%Z) r.

(** ** Values: [scan_once_unicode] and the containers *)

(** [PyDict_SetItem]: a new key goes last, a present key keeps its place
    and takes the new value. *)
Definition dict_set (k : string) (v : pyval) (kvs : list (string * pyval)) : list (string * pyval) :=
  if existsb (fun kv => String.eqb kv.1 k) kvs
  then map (fun kv => if String.eqb kv.1 k then (k, v) else kv) kvs
  else kvs ++ [(k, v)].

Fixpoint starts_with (w s : list ascii) : bool :=
  match w, s with
  | [], _ => true
  | a :: w', b :: s' => Ascii.eqb a b && starts_with w' s'
  | _ :: _, [] => false
  end.

Definition head_is (c : ascii) (s : list ascii) : bool :=
  match s with d :: _ => Ascii.eqb d c | [] => false end.

(** The text [_Py_EnterRecursiveCall] appends to "maximum recursion
    depth exceeded" on entering an object or an array. *)
Definition object_where : string := " while decoding a JSON object from a unicode string".
Definition array_where : string := " while decoding a JSON array from a unicode string".

(** [scan_once fuel depth s] parses one value at the start of [s] with
    [depth] levels of nesting left; [array_items] and [object_items] are
    the loops of [_parse_array_unicode] and [_parse_object_unicode] after
    the opening bracket and its whitespace, [acc] holding what they have
    read, their items parsed at the [depth] they are given. *)
Fixpoint scan_once (fuel depth : nat) (s : list ascii) {struct fuel} : scan_result pyval :=
  match fuel with
  | O => OutOfFuel
  | S f =>
      match s with
      | [] => ScanError "Expecting value" s
      | c :: t =>
          if Ascii.eqb c dquote then scan_bind (scanstring_chars s t []) (fun k r => Scanned (PStr k) r)
          else if Ascii.eqb c "{" then
            match depth with
            | O => TooDeep object_where
            | S d =>
                if head_is "}" (skip_ws t) then Scanned (PDict []) (drop 1 (skip_ws t))
                else object_items f d [] (skip_ws t)
            end
          else if Ascii.eqb c "[" then
            match depth with
            | O => TooDeep array_where
            | S d =>
                if head_is "]" (skip_ws t) then Scanned (PList []) (drop 1 (skip_ws t))
                else array_items f d [] (skip_ws t)
            end
          else if starts_with (list_ascii_of_string "null") s then Scanned PNone (drop 4 s)
          else if starts_with (list_ascii_of_string "true") s then Scanned (PBool true) (drop 4 s)
          else if starts_with (list_ascii_of_string "false") s then Scanned (PBool false) (drop 5 s)
          else if starts_with (list_ascii_of_string "NaN") s
                  || starts_with (list_ascii_of_string "Infinity") s
                  || starts_with (list_ascii_of_string "-Infinity") s then Unmodelled
          else match_number s
      end
  end
with array_items (fuel depth : nat) (acc : list pyval) (s : list ascii) {struct fuel} : scan_result pyval :=
  match fuel with
  | O => OutOfFuel
  | S f =>
      scan_bind (scan_once f depth s) (fun v r =>
        if head_is "]" (skip_ws r) then Scanned (PList (rev (v :: acc))) (drop 1 (skip_ws r))
        else if head_is "," (skip_ws r) then array_items f depth (v :: acc) (skip_ws (drop 1 (skip_ws r)))
        else ScanError "Expecting ',' delimiter" (skip_ws r))
  end
with object_items (fuel depth : nat) (acc : list (string * pyval)) (s : list ascii) {struct fuel}
    : scan_result pyval :=
  match fuel with
  | O => OutOfFuel
  | S f =>
      match s with
      | c :: t =>
          if Ascii.eqb c dquote then
            scan_bind (scanstring_chars s t []) (fun k r =>
              if head_is ":" (skip_ws r) then
                scan_bind (scan_once f depth (skip_ws (drop 1 (skip_ws r)))) (fun v r2 =>
                  if head_is "}" (skip_ws r2) then Scanned (PDict (dict_set k v acc)) (drop 1 (skip_ws r2))
                  else if head_is "," (skip_ws r2)
                  then object_items f depth (dict_set k v acc) (skip_ws (drop 1 (skip_ws r2)))
                  else ScanError "Expecting ',' delimiter" (skip_ws r2))
              else ScanError "Expecting ':' delimiter" (skip_ws r))
          else ScanError "Expecting property name enclosed in double quotes" s
      | [] => ScanError "Expecting property name enclosed in double quotes" s
      end
  end.

(** ** [json.loads]: [JSONDecoder.decode] *)

(** Enough fuel for every text (theorem [scan_once_total]). *)
Definition json_fuel (doc : list ascii) : nat := 2 * List.length doc + 1.

(** [colno - 1]: the characters after the last newline. *)
Fixpoint column_of (before : list ascii) (col : nat) : nat :=
  match before with
  | [] => col
  | c :: t => column_of t (if Ascii.eqb c (ascii_of_nat 10) then 0 else S col)
  end.

(** [JSONDecodeError.__init__]: [msg: line L column C (char P)]. *)
Definition errmsg (doc : list ascii) (msg : string) (pos : nat) : string :=
  let before := take pos doc in
  let lineno := S (List.length (filter (fun c => Ascii.eqb c (ascii_of_nat 10)) before)) in
  let colno := S (column_of before 0) in
  msg ++ ": line " ++ pretty lineno ++ " column " ++ pretty colno ++ " (char " ++ pretty pos ++ ")".

(** The answer of [JSONDecoder.decode] once the scanner has run on [doc]:
    the value if only whitespace follows it ("Extra data" otherwise), the
    scanner's error with its position, [RecursionError] when the nesting
    used up the allowance, or [None] when the text needs what the model
    leaves out. *)
Definition decode_answer (doc : list ascii) (r : scan_result pyval) : option (PyExn + pyval) :=
  let fail msg at_rest := Some (inl (JSONDecodeError (errmsg doc msg (List.length doc - List.length at_rest)))) in
  match r with
  | Scanned v rest => if bool_decide (skip_ws rest = []) then Some (inr v) else fail "Extra data" (skip_ws rest)
  | ScanError m p => fail m p
  | TooDeep site => Some (inl (RecursionError ("maximum recursion depth exceeded" ++ site)))
  | Unmodelled => None
  | OutOfFuel => None
  end.

Definition json_decode (limit : nat) (s : string) : option (PyExn + pyval) :=
  let doc := list_ascii_of_string s in
  decode_answer doc (scan_once (json_fuel doc) limit (skip_ws doc)).

(** ** [json.dumps] with its defaults

    [c_encode_basestring_ascii]: printable ASCII other than the quote and
    the backslash is copied, the quote, the backslash and five controls
    get a short escape, every other code point a [\u] escape with four
    lower-case hex digits ([ascii_escape_unichar]). *)

Definition S_CHAR (c : ascii) : bool :=
  (32 <=? nat_of_ascii c)%nat && (nat_of_ascii c <=? 126)%nat &&
  negb (Ascii.eqb c backslash) && negb (Ascii.eqb c dquote).

Definition ascii_escape_unichar (c : ascii) : list ascii :=
  let n := nat_of_ascii c in
  backslash ::
    (if Ascii.eqb c backslash || Ascii.eqb c dquote then [c]
     else if (n =? 8)%nat then ["b"%char]
     else if (n =? 12)%nat then ["f"%char]
     else if (n =? 10)%nat then ["n"%char]
     else if (n =? 13)%nat then ["r"%char]
     else if (n =? 9)%nat then ["t"%char]
     else ["u"%char; "0"%char; "0"%char; hex_digit (n / 16); hex_digit (n mod 16)]).

Definition escape_char (c : ascii) : list ascii :=
  if S_CHAR c then [c] else ascii_escape_unichar c.

Definition encode_basestring_ascii (s : string) : list ascii :=
  (dquote :: mjoin (map escape_char (list_ascii_of_string s)) ++ [dquote])%list.

(** [', '.join(parts)] *)
Fixpoint join_with (sep : list ascii) (parts : list (list ascii)) : list ascii :=
  match parts with
  | [] => []
  | [p] => p
  | p :: ps => (p ++ sep ++ join_with sep ps)%list
  end.

(** The C encoder [encoder_listencode_obj] with [item_separator = ', ']
    and [key_separator = ': ']; [int.__repr__] for integers. *)
Fixpoint dumps_chars (v : pyval) : list ascii :=
  match v with
  | PNone => list_ascii_of_string "null"
  | PBool true => list_ascii_of_string "true"
  | PBool false => list_ascii_of_string "false"
  | PInt z => list_ascii_of_string (pretty z)
  | PStr s => encode_basestring_ascii s
  | PList l => ("["%char :: join_with [","%char; " "%char] (map dumps_chars l) ++ ["]"%char])%list
  | PDict kvs =>
      ("{"%char :: join_with [","%char; " "%char]
        (map (fun kv => match kv with
                        | (k, x) => (encode_basestring_ascii k ++ [":"%char; " "%char] ++ dumps_chars x)%list
                        end) kvs) ++ ["}"%char])%list
  end.

Definition json_dumps (v : pyval) : string := string_of_list_ascii (dumps_chars v).

Definition item_chars (kv : string * pyval) : list ascii :=
  match kv with (k, x) => (encode_basestring_ascii k ++ [":"%char; " "%char] ++ dumps_chars x)%list end.

(** Values [json.dumps] prints without raising, with [limit] levels of
    the C recursion allowance left: [encoder_listencode_obj] enters every
    list and dict through [_Py_EnterRecursiveCall] (the empty ones too),
    the keys of a dict are distinct (a Python dict), and every integer
    has at most 4300 digits ([int.__repr__] raises [ValueError] beyond,
    [sys.int_info.default_max_str_digits]). *)
Fixpoint json_value_ok (limit : nat) (v : pyval) {struct v} : bool :=
  match v with
  | PInt z => (String.length (pretty (Z.abs z)) <=? 4300)%nat
  | PList l => match limit with O => false | S d => forallb (json_value_ok d) l end
  | PDict kvs =>
      match limit with
      | O => false
      | S d => bool_decide (NoDup kvs.*1) && forallb (fun kv => match kv with (_, x) => json_value_ok d x end) kvs
      end
  | _ => true
  end.

(** A decoder that agrees with [json.loads] wherever the model answers,
    called with [limit] levels of the C recursion allowance left. *)
Class JsonLoads (limit : nat) (json_loads : string -> PyExn + pyval) : Prop :=
  json_loads_agrees : forall s r, json_decode limit s = Some r -> json_loads s = r.

(** The decoder of this model as a function of the handler's type; a
    text outside the model raises. *)
Definition json_loads_model (limit : nat) (s : string) : PyExn + pyval :=
  match json_decode limit s with
  | Some r => r
  | None => inl (JSONDecodeError "outside the model")
  end.

#[export] Instance json_loads_model_loads limit : JsonLoads limit (json_loads_model limit).
Proof. intros s r H. unfold json_loads_model. by rewrite H. Qed.
