(* ===== verification/JsonFuel.v ===== *)
(** * Termination of the JSON scanner

    The scanner of [Json] recurses on fuel.  A successful scan leaves a
    strictly shorter suffix ([scan_consumes]); a value on a suffix of
    length [n] never runs out with [2n + 1] units ([scan_total]); more
    fuel never changes an answer that did not run out ([scan_mono]).
    Hence [json_fuel] gives the answer of the unbounded decoder
    ([json_fuel_enough]). *)

From stdpp Require Import base list strings pretty.
From Stdlib Require Import Ascii String ZArith Lia.
From S2P Require Import Prelude PyStr PyVal Json.

Local Open Scope string_scope.

(** ** Definitions for the proofs *)

(** [r'] is [r], unless [r] ran out of fuel. *)
Definition fuel_le {A} (r r' : scan_result A) : Prop := r = OutOfFuel \/ r' = r.

(** ** The scanner consumes what it reads *)

Local Open Scope list_scope.

Ltac split_ifs_in H :=
  repeat match type of H with context [if ?b then _ else _] => destruct b end.

Lemma skip_ws_length (s : list ascii) : List.length (skip_ws s) <= List.length s.
Proof. induction s as [|c t IH]; cbn; [lia|]. destruct (is_ws c); cbn; lia. Qed.

Lemma head_is_drop_length (c : ascii) (s : list ascii) :
  head_is c s = true -> S (List.length (drop 1 s)) = List.length s.
Proof. destruct s; cbn; [done|]. by rewrite drop_0. Qed.

Lemma scan_bind_Scanned {A B} (r : scan_result A) (k : A -> list ascii -> scan_result B) v rest :
  scan_bind r k = Scanned v rest -> exists a r1, r = Scanned a r1 /\ k a r1 = Scanned v rest.
Proof. destruct r; cbn; [eauto|done..]. Qed.

Lemma scanstring_consumes (b s acc : list ascii) k r :
  scanstring_chars b s acc = Scanned k r -> List.length r < List.length s.
Proof.
  revert acc. induction s as [s IH] using (induction_ltof1 _ (@List.length ascii)); intros acc H.
  destruct s as [|c0 t0]; cbn in H; [done|].
  destruct (Ascii.eqb c0 dquote); [injection H as _ <-; cbn; lia|].
  destruct (Ascii.eqb c0 backslash).
  - destruct t0 as [|e t1]; [done|]. destruct (Ascii.eqb e "u").
    + destruct t1 as [|h1 [|h2 [|h3 [|h4 t2]]]]; try done.
      case_bool_decide; [done|]. destruct (decode_uXXXX h1 h2 h3 h4) as [n|]; [|done].
      destruct (n <=? 255)%nat; [|done]. apply IH in H; [cbn in *; lia|unfold ltof; cbn; lia].
    + destruct (short_escape e); [|done]. apply IH in H; [cbn in *; lia|unfold ltof; cbn; lia].
  - destruct (nat_of_ascii c0 <=? 31)%nat; [done|]. apply IH in H; [cbn in *; lia|unfold ltof; cbn; lia].
Qed.

Lemma span_digits_app (s : list ascii) : (span_digits s).1 ++ (span_digits s).2 = s.
Proof. induction s as [|c t IH]; cbn; [done|]. destruct (is_digit c); [|done]. destruct (span_digits t). cbn in *. by f_equal. Qed.

Lemma match_number_consumes (s : list ascii) v r :
  match_number s = Scanned v r -> List.length r < List.length s.
Proof.
  unfold match_number. intros H.
  assert (Hsplit : forall s1 : list ascii, List.length s1 <= List.length s ->
    forall ds r0, (match s1 with c :: t => if Ascii.eqb c "0" then ([c], t) else span_digits s1
                   | [] => ([], []) end) = (ds, r0) -> ds ++ r0 = s1 /\ List.length s1 <= List.length s).
  { intros s1 Hl ds r0 Hm. split; [|done]. destruct s1 as [|c t]; [by injection Hm as <- <-|].
    destruct (Ascii.eqb c "0"); [by injection Hm as <- <-|].
    pose proof (span_digits_app (c :: t)) as Ha. rewrite Hm in Ha. exact Ha. }
  destruct (match s with c :: t => if Ascii.eqb c "-" then (true, t) else (false, s) | [] => (false, s) end)
    as [neg s1] eqn:Hn.
  assert (Hl1 : List.length s1 <= List.length s).
  { destruct s as [|c t]; [by injection Hn as _ <-|]. destruct (Ascii.eqb c "-"); injection Hn as _ <-; cbn; lia. }
  destruct (match s1 with c :: t => if Ascii.eqb c "0" then ([c], t) else span_digits s1 | [] => ([], []) end)
    as [ds r0] eqn:Hd.
  destruct (Hsplit s1 Hl1 ds r0 Hd) as [Happ _].
  case_bool_decide; [done|]. destruct (frac_follows r0 || exp_follows r0); [done|].
  destruct (4300 <? _)%nat; [done|]. injection H as _ <-.
  destruct ds as [|d ds]; [done|]. rewrite <- Happ in Hl1. cbn in Hl1. rewrite length_app in Hl1. lia.
Qed.

Lemma starts_with_drop (w s : list ascii) :
  starts_with w s = true -> List.length (drop (List.length w) s) + List.length w = List.length s.
Proof.
  revert s. induction w as [|a w IH]; intros [|b s] H; cbn in *; try done.
  apply andb_prop in H as [_ H]. specialize (IH s H). lia.
Qed.

Lemma scan_consumes (f : nat) :
  (forall d s v r, scan_once f d s = Scanned v r -> List.length r < List.length s) /\
  (forall d acc s v r, array_items f d acc s = Scanned v r -> List.length r < List.length s) /\
  (forall d acc s v r, object_items f d acc s = Scanned v r -> List.length r < List.length s).
Proof.
  induction f as [|f (IHs & IHa & IHo)]; [done|]. split; [|split].
  - intros d [|c t] v r H; cbn [scan_once] in H; [done|].
    pose proof (skip_ws_length t).
    destruct (Ascii.eqb c dquote).
    { apply scan_bind_Scanned in H as (k & r1 & Hs & [= _ <-]). apply scanstring_consumes in Hs. cbn; lia. }
    destruct (Ascii.eqb c "{").
    { destruct d; [done|]. destruct (head_is "}" (skip_ws t)) eqn:Hh.
      - injection H as _ <-. apply head_is_drop_length in Hh. cbn; lia.
      - apply IHo in H. cbn; lia. }
    destruct (Ascii.eqb c "[").
    { destruct d; [done|]. destruct (head_is "]" (skip_ws t)) eqn:Hh.
      - injection H as _ <-. apply head_is_drop_length in Hh. cbn; lia.
      - apply IHa in H. cbn; lia. }
    repeat match type of H with
    | (if starts_with ?w ?s then _ else _) = _ =>
        let Hw := fresh in destruct (starts_with w s) eqn:Hw;
        [injection H as _ <-; apply starts_with_drop in Hw; cbn in Hw |- *; lia|]
    end.
    destruct (_ || _); [done|]. by apply match_number_consumes in H.
  - intros d acc s v r H. apply scan_bind_Scanned in H as (v1 & r1 & Hs & H). apply IHs in Hs.
    pose proof (skip_ws_length r1).
    destruct (head_is "]" (skip_ws r1)) eqn:Hc.
    { injection H as _ <-. apply head_is_drop_length in Hc. lia. }
    destruct (head_is "," (skip_ws r1)) eqn:Hc'; [|done].
    apply IHa in H. apply head_is_drop_length in Hc'. pose proof (skip_ws_length (drop 1 (skip_ws r1))). lia.
  - intros d acc [|c t] v r H; cbn [object_items] in H; [done|].
    destruct (Ascii.eqb c dquote); [|done].
    apply scan_bind_Scanned in H as (k & r1 & Hk & H). apply scanstring_consumes in Hk.
    pose proof (skip_ws_length r1).
    destruct (head_is ":" (skip_ws r1)) eqn:Hc; [|done]. apply head_is_drop_length in Hc.
    pose proof (skip_ws_length (drop 1 (skip_ws r1))).
    apply scan_bind_Scanned in H as (x & r2 & Hx & H). apply IHs in Hx.
    pose proof (skip_ws_length r2).
    destruct (head_is "}" (skip_ws r2)) eqn:Hc2.
    { injection H as _ <-. apply head_is_drop_length in Hc2. cbn; lia. }
    destruct (head_is "," (skip_ws r2)) eqn:Hc3; [|done].
    apply IHo in H. apply head_is_drop_length in Hc3. pose proof (skip_ws_length (drop 1 (skip_ws r2))). cbn; lia.
Qed.

(** ** Enough fuel *)

Lemma scanstring_not_fuel (b s acc : list ascii) : scanstring_chars b s acc <> OutOfFuel.
Proof.
  revert acc. induction s as [s IH] using (induction_ltof1 _ (@List.length ascii)); intros acc.
  destruct s as [|c t]; cbn; [done|].
  destruct (Ascii.eqb c dquote); [done|]. destruct (Ascii.eqb c backslash).
  - destruct t as [|e t1]; [done|]. destruct (Ascii.eqb e "u").
    + destruct t1 as [|h1 [|h2 [|h3 [|h4 t2]]]]; try done.
      case_bool_decide; [done|]. destruct (decode_uXXXX h1 h2 h3 h4) as [n|]; [|done].
      destruct (n <=? 255)%nat; [|done]. apply IH. unfold ltof; cbn; lia.
    + destruct (short_escape e); [|done]. apply IH. unfold ltof; cbn; lia.
  - destruct (nat_of_ascii c <=? 31)%nat; [done|]. apply IH. unfold ltof; cbn; lia.
Qed.

Lemma match_number_not_fuel (s : list ascii) : match_number s <> OutOfFuel.
Proof.
  unfold match_number. destruct (match s with c :: t => _ | [] => _ end) as [neg s1].
  destruct (match s1 with c :: t => _ | [] => _ end) as [ds r].
  case_bool_decide; [done|]. destruct (_ || _); [done|]. by destruct (4300 <? _)%nat.
Qed.

Lemma scan_total (f : nat) :
  (forall d s, 2 * List.length s + 1 <= f -> scan_once f d s <> OutOfFuel) /\
  (forall d acc s, 2 * List.length s + 2 <= f -> array_items f d acc s <> OutOfFuel) /\
  (forall d acc s, 2 * List.length s + 2 <= f -> object_items f d acc s <> OutOfFuel).
Proof.
  induction f as [|f (IHs & IHa & IHo)]; [split; [|split]; intros; lia|]. split; [|split].
  - intros d [|c t] Hf; cbn [scan_once]; [done|]. cbn [List.length] in Hf.
    pose proof (skip_ws_length t).
    destruct (Ascii.eqb c dquote).
    { pose proof (scanstring_not_fuel (c :: t) t []). by destruct (scanstring_chars _ _ _). }
    destruct (Ascii.eqb c "{"); [destruct d; [done|]; destruct (head_is _ _); [done|apply IHo; lia]|].
    destruct (Ascii.eqb c "["); [destruct d; [done|]; destruct (head_is _ _); [done|apply IHa; lia]|].
    repeat match goal with |- (if ?b then _ else _) <> _ => destruct b; [done|] end.
    apply match_number_not_fuel.
  - intros d acc s Hf. cbn [array_items].
    pose proof (IHs d s ltac:(lia)) as Hs.
    destruct (scan_once f d s) as [v r| | | |] eqn:E; cbn; try done.
    apply (proj1 (scan_consumes f)) in E. pose proof (skip_ws_length r).
    destruct (head_is "]" (skip_ws r)); [done|].
    destruct (head_is "," (skip_ws r)) eqn:Hc; [|done].
    apply IHa. apply head_is_drop_length in Hc. pose proof (skip_ws_length (drop 1 (skip_ws r))). lia.
  - intros d acc [|c t] Hf; cbn [object_items]; [done|]. cbn [List.length] in Hf.
    destruct (Ascii.eqb c dquote); [|done].
    pose proof (scanstring_not_fuel (c :: t) t []) as Hnf.
    destruct (scanstring_chars (c :: t) t []) as [k r| | | |] eqn:Ek; cbn; try done.
    apply scanstring_consumes in Ek. pose proof (skip_ws_length r).
    destruct (head_is ":" (skip_ws r)) eqn:Hc; [|done]. apply head_is_drop_length in Hc.
    pose proof (skip_ws_length (drop 1 (skip_ws r))).
    pose proof (IHs d (skip_ws (drop 1 (skip_ws r))) ltac:(lia)) as Hs.
    destruct (scan_once f _ _) as [x r2| | | |] eqn:Ex; cbn; try done.
    apply (proj1 (scan_consumes f)) in Ex. pose proof (skip_ws_length r2).
    destruct (head_is "}" (skip_ws r2)); [done|].
    destruct (head_is "," (skip_ws r2)) eqn:Hc2; [|done].
    apply IHo. apply head_is_drop_length in Hc2. pose proof (skip_ws_length (drop 1 (skip_ws r2))). lia.
Qed.

(** ** More fuel gives the same answer *)

Lemma scan_bind_fuel_le {A B} (r r' : scan_result A) (k k' : A -> list ascii -> scan_result B) :
  fuel_le r r' -> (forall a rest, fuel_le (k a rest) (k' a rest)) -> fuel_le (scan_bind r k) (scan_bind r' k').
Proof. intros [Hr|Hr] Hk; subst; [by left|]. destruct r; cbn; [apply Hk|right..]; done. Qed.

Ltac fuel_le_solve IHs IHa IHo :=
  repeat match goal with
  | |- fuel_le ?x ?x => right; reflexivity
  | |- fuel_le (scan_bind _ _) (scan_bind _ _) => apply scan_bind_fuel_le; [|intros]
  | |- fuel_le (scan_once _ _ _) _ => apply IHs; lia
  | |- fuel_le (array_items _ _ _ _) _ => apply IHa; lia
  | |- fuel_le (object_items _ _ _ _) _ => apply IHo; lia
  | |- fuel_le (if ?b then _ else _) _ => destruct b
  | |- fuel_le (match ?d with O => _ | S _ => _ end) _ => destruct d
  end.

Lemma scan_mono (f : nat) :
  (forall f' d s, f <= f' -> fuel_le (scan_once f d s) (scan_once f' d s)) /\
  (forall f' d acc s, f <= f' -> fuel_le (array_items f d acc s) (array_items f' d acc s)) /\
  (forall f' d acc s, f <= f' -> fuel_le (object_items f d acc s) (object_items f' d acc s)).
Proof.
  induction f as [|f (IHs & IHa & IHo)]; [split; [|split]; intros; by left|].
  split; [|split]; intros [|f']; try lia.
  - intros d [|c t] Hf; cbn [scan_once]; fuel_le_solve IHs IHa IHo.
  - intros d acc s Hf; cbn [array_items]; fuel_le_solve IHs IHa IHo.
  - intros d acc [|c t] Hf; cbn [object_items]; fuel_le_solve IHs IHa IHo.
Qed.

(** The answer at [json_fuel] is the answer at any fuel that does not run out. *)
Lemma scan_once_fuel_irrelevant (f f' d : nat) (s : list ascii) :
  scan_once f d s <> OutOfFuel -> scan_once f' d s <> OutOfFuel -> scan_once f' d s = scan_once f d s.
Proof.
  intros H H'. destruct (Nat.le_ge_cases f f') as [Hle|Hle].
  - by destruct (proj1 (scan_mono f) f' d s Hle).
  - by destruct (proj1 (scan_mono f') f d s Hle).
Qed.

(** Termination of [json.loads].  Whatever the text and the allowance, the scanner
    started with [json_fuel] (twice the length plus one) does not run out
    of fuel, and its answer is the answer of the scanner with any fuel
    that does not run out: [json_decode] is the unbounded decoder. *)
Theorem json_fuel_enough (doc : list ascii) (d : nat) :
  scan_once (json_fuel doc) d (skip_ws doc) <> OutOfFuel /\
  (forall f, scan_once f d (skip_ws doc) <> OutOfFuel ->
     scan_once f d (skip_ws doc) = scan_once (json_fuel doc) d (skip_ws doc)).
Proof.
  assert (Henough : scan_once (json_fuel doc) d (skip_ws doc) <> OutOfFuel).
  { apply (proj1 (scan_total _)). pose proof (skip_ws_length doc). unfold json_fuel. lia. }
  split; [exact Henough|]. intros f Hf. by apply scan_once_fuel_irrelevant.
Qed.

(** ** Nesting beyond the allowance *)

(** [d + 1] opening brackets with [d] levels left: the innermost one is
    refused by [_Py_EnterRecursiveCall], whatever follows. *)
Lemma scan_too_deep (d f : nat) (rest : list ascii) :
  2 * d + 1 <= f -> scan_once f d (repeat "["%char (S d) ++ rest) = TooDeep array_where.
Proof.
  revert f. induction d as [|d IH]; intros f Hf.
  { destruct f as [|f]; [lia|]. reflexivity. }
  destruct f as [|[|f]]; [lia|lia|].
  change (repeat "["%char (S (S d)) ++ rest) with ("["%char :: repeat "["%char (S d) ++ rest).
  cbn [scan_once Ascii.eqb Bool.eqb repeat app]. cbn [skip_ws is_ws head_is Ascii.eqb Bool.eqb].
  cbn [array_items]. rewrite IH by lia. reflexivity.
Qed.

(** [json.loads] on a text that opens [limit + 1] arrays raises
    [RecursionError]. *)
Lemma json_decode_too_deep (limit : nat) (s : string) (rest : list ascii) :
  list_ascii_of_string s = repeat "["%char (S limit) ++ rest ->
  json_decode limit s =
    Some (inl (RecursionError ("maximum recursion depth exceeded" ++ array_where))).
Proof.
  intros Hs. unfold json_decode. rewrite Hs.
  change (skip_ws (repeat "["%char (S limit) ++ rest)) with (repeat "["%char (S limit) ++ rest).
  rewrite scan_too_deep; [reflexivity|]. unfold json_fuel. rewrite length_app, repeat_length. lia.
Qed.
