(* ===== verification/JsonRoundtrip.v ===== *)
(** * Printing then scanning: the round trip of [json.dumps] and [json.loads]

    Character by character ([scanstring_escape_char], checked over the
    256 code points), then strings, integers (through the digits stdpp's
    [pretty] prints), the items of arrays and objects, and every value
    [json.dumps] prints ([dumps_scans], by the nested induction
    [pyval_ind']); with [JsonFuel], [json_roundtrip]. *)

From stdpp Require Import base list strings pretty.
From Stdlib Require Import Ascii String ZArith Lia.
From S2P Require Import Prelude PyStr PyVal Json JsonFuel.

Local Open Scope string_scope.

(** ** Definitions for the proofs *)

(** What may follow a printed value: the end of the text or a character
    that does not continue a number. *)
Definition value_end (r : list ascii) : bool :=
  match r with
  | [] => true
  | c :: _ => negb (is_digit c || Ascii.eqb c "." || Ascii.eqb c "e" || Ascii.eqb c "E")
  end.

(** [v] scans back from its text with [d] levels of nesting left,
    before any [r] that ends a value. *)
Definition scans (d : nat) (v : pyval) : Prop :=
  forall r, value_end r = true ->
    exists f, forall f', f <= f' -> scan_once f' d (dumps_chars v ++ r) = Scanned v r.

Section PyvalInd.
Variable P : pyval -> Prop.
Hypothesis HNone : P PNone.
Hypothesis HBool : forall b, P (PBool b).
Hypothesis HInt : forall z, P (PInt z).
Hypothesis HStr : forall s, P (PStr s).
Hypothesis HList : forall l, Forall P l -> P (PList l).
Hypothesis HDict : forall kvs, Forall (fun kv => P kv.2) kvs -> P (PDict kvs).

(** Induction through the lists of a [PList] and the values of a [PDict]. *)
Fixpoint pyval_ind' (v : pyval) : P v :=
  match v with
  | PNone => HNone
  | PBool b => HBool b
  | PInt z => HInt z
  | PStr s => HStr s
  | PList l =>
      HList l ((fix go (l : list pyval) : Forall P l :=
                  match l with
                  | [] => List.Forall_nil _
                  | x :: l' => List.Forall_cons _ x l' (pyval_ind' x) (go l')
                  end) l)
  | PDict kvs =>
      HDict kvs ((fix go (kvs : list (string * pyval)) : Forall (fun kv => P kv.2) kvs :=
                    match kvs with
                    | [] => List.Forall_nil _
                    | kv :: kvs' => List.Forall_cons _ kv kvs' (pyval_ind' kv.2) (go kvs')
                    end) kvs)
  end.
End PyvalInd.

Local Open Scope list_scope.

(** ** Printing then scanning a string gives it back *)

(** One character, checked over all 256 code points. *)
Lemma scanstring_escape_char (b : list ascii) (c : ascii) (y acc : list ascii) :
  y <> [] -> scanstring_chars b (escape_char c ++ y) acc = scanstring_chars b y (c :: acc).
Proof.
  destruct y as [|x r]; [done|]. intros _.
  destruct c as [[] [] [] [] [] [] [] []]; reflexivity.
Qed.

Lemma scanstring_escaped (b cs r acc : list ascii) :
  scanstring_chars b (mjoin (map escape_char cs) ++ dquote :: r) acc =
  Scanned (string_of_list_ascii (rev acc ++ cs)) r.
Proof.
  revert acc. induction cs as [|c cs IH]; intros acc.
  - cbn. by rewrite app_nil_r.
  - change (mjoin (map escape_char (c :: cs))) with (escape_char c ++ mjoin (map escape_char cs)).
    rewrite <- app_assoc, scanstring_escape_char.
    + rewrite IH. cbn. by rewrite <- app_assoc.
    + by destruct (mjoin (map escape_char cs)).
Qed.

Lemma scan_once_string (f d : nat) (s : string) (r : list ascii) :
  scan_once (S f) d (encode_basestring_ascii s ++ r) = Scanned (PStr s) r.
Proof.
  unfold encode_basestring_ascii. cbn [app scan_once].
  change (Ascii.eqb dquote dquote) with true. cbv iota.
  rewrite <- app_assoc. cbn [app]. rewrite scanstring_escaped. cbn.
  by rewrite string_of_list_ascii_of_string.
Qed.

(** ** Integers: [int.__repr__] then [_match_number_unicode] *)

Lemma digits_value_snoc (ds : list ascii) (c : ascii) :
  digits_value (ds ++ [c]) = (digits_value ds * 10 + Z.of_nat (nat_of_ascii c - 48))%Z.
Proof. unfold digits_value. by rewrite fold_left_app. Qed.

Lemma pretty_N_char_digit (x : N) :
  (x < 10)%N -> is_digit (pretty_N_char x) = true /\ Z.of_nat (nat_of_ascii (pretty_N_char x) - 48) = Z.of_N x.
Proof.
  intros Hx. assert (x = 0 \/ x = 1 \/ x = 2 \/ x = 3 \/ x = 4 \/ x = 5 \/ x = 6 \/ x = 7 \/ x = 8 \/ x = 9)%N
    as Hc by lia.
  by repeat destruct Hc as [->|Hc]; [..|subst].
Qed.

(** The digits [pretty_N_go] puts in front of [s]: no leading zero, and
    [digits_value] reads [x] back. *)
Lemma pretty_N_go_digits (x : N) (s : string) :
  exists ds, list_ascii_of_string (pretty_N_go x s) = ds ++ list_ascii_of_string s /\
    Forall (fun c => is_digit c = true) ds /\ digits_value ds = Z.of_N x /\
    (x = 0%N -> ds = []) /\ ((0 < x)%N -> exists d ds', ds = d :: ds' /\ d <> "0"%char).
Proof.
  revert s. induction (N.lt_wf_0 x) as [x _ IH]; intros s.
  destruct (decide (x = 0%N)) as [->|Hx].
  { exists []. rewrite pretty_N_go_0. by repeat split. }
  rewrite pretty_N_go_step by lia.
  destruct (IH (x `div` 10)%N ltac:(apply N.div_lt; lia) (String (pretty_N_char (x `mod` 10)) s))
    as (ds & Hds & Hdig & Hval & H0 & Hpos).
  pose proof (pretty_N_char_digit (x `mod` 10) ltac:(apply N.mod_lt; lia)) as [Hd Hv].
  exists (ds ++ [pretty_N_char (x `mod` 10)]). rewrite Hds, <- app_assoc. split; [done|].
  split; [by apply Forall_app; split; [|constructor]|].
  split; [rewrite digits_value_snoc, Hval, Hv; rewrite (N.div_mod x 10) at 3 by lia; lia|].
  split; [lia|]. intros _.
  destruct (decide (x `div` 10 = 0)%N) as [Hq|Hq].
  - rewrite (H0 Hq). exists (pretty_N_char (x `mod` 10)), []. split; [done|].
    intros Heq. rewrite Heq in Hv.
    change (Z.of_nat (nat_of_ascii "0" - 48)) with 0%Z in Hv. rewrite (N.div_mod x 10), Hq in Hx by lia. lia.
  - assert (Hq0 : (0 < x `div` 10)%N) by (destruct (x `div` 10)%N; [done|lia]).
    destruct (Hpos Hq0) as (d & ds' & -> & Hd0). by exists d, (ds' ++ [pretty_N_char (x `mod` 10)]).
Qed.

Lemma value_end_no_float (r : list ascii) : value_end r = true -> frac_follows r || exp_follows r = false.
Proof.
  destruct r as [|c r]; [done|]. cbn. intros H.
  destruct (Ascii.eqb c "."), (Ascii.eqb c "e"), (Ascii.eqb c "E"), (is_digit c); try done.
  destruct r as [|? [|? ?]]; by rewrite ?andb_false_r.
Qed.

Lemma span_digits_prefix (ds r : list ascii) :
  Forall (fun c => is_digit c = true) ds -> value_end r = true -> span_digits (ds ++ r) = (ds, r).
Proof.
  intros Hd Hr. induction Hd as [|c ds Hc _ IH]; cbn.
  - destruct r as [|c r]; [done|]. cbn in Hr |- *. by destruct (is_digit c).
  - by rewrite Hc, IH.
Qed.

(** A digit is none of the characters that start another kind of value. *)
Ltac digit_chars Hd :=
  repeat match goal with
  | |- context [Ascii.eqb ?c ?a] => is_var c; destruct (Ascii.eqb_spec c a) as [->|_]; [discriminate Hd|]
  | |- context [Ascii.eqb ?a ?c] => is_var c; destruct (Ascii.eqb_spec a c) as [<-|_]; [discriminate Hd|]
  end.

Lemma scan_once_digit (f d : nat) (c : ascii) (t : list ascii) :
  is_digit c = true -> scan_once (S f) d (c :: t) = match_number (c :: t).
Proof. intros Hd. cbn [scan_once starts_with list_ascii_of_string]. digit_chars Hd. reflexivity. Qed.

Lemma scan_once_minus (f n : nat) (d : ascii) (t : list ascii) :
  is_digit d = true -> scan_once (S f) n ("-"%char :: d :: t) = match_number ("-"%char :: d :: t).
Proof. intros Hd. cbn [scan_once starts_with list_ascii_of_string]. digit_chars Hd. reflexivity. Qed.

Lemma match_number_digits (neg : bool) (d : ascii) (ds r : list ascii) :
  Forall (fun c => is_digit c = true) (d :: ds) -> d <> "0"%char -> value_end r = true ->
  (List.length (d :: ds) <= 4300)%nat ->
  match_number ((if neg then ["-"%char] else []) ++ d :: ds ++ r) =
  Scanned (PInt (if neg then - digits_value (d :: ds) else digits_value (d :: ds))%Z) r.
Proof.
  intros Hd H0 Hr Hl. pose proof (Forall_inv Hd) as Hd0. cbn in Hd0.
  unfold match_number.
  assert (Hm : Ascii.eqb d "-" = false) by (digit_chars Hd0; done).
  assert (Hz : Ascii.eqb d "0" = false) by (by destruct (Ascii.eqb_spec d "0")).
  destruct neg; cbn [app]; rewrite ?Hm; cbn [Ascii.eqb Bool.eqb]; rewrite Hz;
    change (d :: ds ++ r) with ((d :: ds) ++ r); rewrite span_digits_prefix by done;
    rewrite bool_decide_false by done; rewrite value_end_no_float by done;
    by destruct (4300 <? _)%nat eqn:E; [apply Nat.ltb_lt in E; lia|].
Qed.

Lemma length_list_ascii_of_string (s : string) : List.length (list_ascii_of_string s) = String.length s.
Proof. induction s as [|c s IH]; cbn; congruence. Qed.

(** The digits of a positive number as [pretty] prints them. *)
Lemma pretty_pos_digits (p : positive) :
  exists d ds, list_ascii_of_string (pretty (Npos p)) = d :: ds /\
    Forall (fun c => is_digit c = true) (d :: ds) /\ d <> "0"%char /\ digits_value (d :: ds) = Zpos p.
Proof.
  unfold pretty, pretty_N. rewrite decide_False by done.
  destruct (pretty_N_go_digits (Npos p) "") as (ds & Hds & Hdig & Hval & _ & Hpos).
  destruct (Hpos ltac:(lia)) as (d & ds' & -> & Hd0).
  exists d, ds'. cbn in Hds. rewrite app_nil_r in Hds. by repeat split.
Qed.

Lemma scan_once_int (f n : nat) (z : Z) (r : list ascii) :
  value_end r = true -> (String.length (pretty (Z.abs z)) <= 4300)%nat ->
  scan_once (S f) n (list_ascii_of_string (pretty z) ++ r) = Scanned (PInt z) r.
Proof.
  intros Hr Hl. destruct z as [|p|p].
  - change (list_ascii_of_string (pretty 0%Z) ++ r) with ("0"%char :: r).
    rewrite scan_once_digit by done. unfold match_number. cbn -[frac_follows exp_follows].
    by rewrite value_end_no_float.
  - change (pretty (Zpos p)) with (pretty (Npos p)).
    change (pretty (Z.abs (Zpos p))) with (pretty (Npos p)) in Hl.
    destruct (pretty_pos_digits p) as (d & ds & Hds & Hdig & Hd0 & Hval).
    rewrite <- length_list_ascii_of_string, Hds in Hl. rewrite Hds.
    cbn [app]. rewrite scan_once_digit by exact (Forall_inv Hdig).
    pose proof (match_number_digits false d ds r Hdig Hd0 Hr Hl) as H. cbn [app] in H |- *.
    by rewrite H, Hval.
  - change (pretty (Zneg p)) with (String "-" (pretty (Npos p))). change (pretty (Z.abs (Zneg p))) with (pretty (Npos p)) in Hl.
    destruct (pretty_pos_digits p) as (d & ds & Hds & Hdig & Hd0 & Hval).
    rewrite <- length_list_ascii_of_string, Hds in Hl. cbn [list_ascii_of_string]. rewrite Hds.
    cbn [app]. rewrite scan_once_minus by exact (Forall_inv Hdig).
    pose proof (match_number_digits true d ds r Hdig Hd0 Hr Hl) as H. cbn [app] in H.
    by rewrite H, Hval.
Qed.

(** ** Printing then scanning a value gives it back *)

Lemma skip_ws_nonws (c : ascii) (t : list ascii) : is_ws c = false -> skip_ws (c :: t) = c :: t.
Proof. cbn. by intros ->. Qed.

Lemma skip_ws_ws (c : ascii) (t : list ascii) : is_ws c = true -> skip_ws (c :: t) = skip_ws t.
Proof. cbn. by intros ->. Qed.

(** A printed value starts with a character that is not whitespace and
    closes no bracket. *)
Lemma dumps_chars_head (v : pyval) :
  exists c t, dumps_chars v = c :: t /\ is_ws c = false /\ head_is "]" [c] = false /\ head_is "}" [c] = false.
Proof.
  destruct v as [|[]|z|s|l|kvs]; try (by eexists _, _; split; [reflexivity|]).
  destruct z as [|p|p]; try (by eexists _, _; split; [reflexivity|]).
  destruct (pretty_pos_digits p) as (d & ds & Hds & Hdig & _).
  pose proof (Forall_inv Hdig) as Hd. exists d, ds. split; [exact Hds|].
  cbn. unfold is_ws. digit_chars Hd. done.
Qed.

Lemma join_with_head (sep : list ascii) (p : list ascii) (ps : list (list ascii)) (c : ascii) (t : list ascii) :
  p = c :: t -> exists t', join_with sep (p :: ps) = c :: t'.
Proof. intros ->. destruct ps; cbn; eauto. Qed.

Lemma dict_set_new (k : string) (v : pyval) (kvs : list (string * pyval)) :
  k ∉ kvs.*1 -> dict_set k v kvs = kvs ++ [(k, v)].
Proof.
  intros Hk. unfold dict_set. destruct (existsb _ kvs) eqn:E; [|done].
  apply existsb_exists in E as ([k' x] & Hin & Heq). apply String.eqb_eq in Heq. cbn in Heq. subst k'.
  destruct Hk. apply (list_elem_of_fmap_2 fst _ (k, x)). by apply list_elem_of_In.
Qed.

Lemma comma_sep_value_end (t : list ascii) : value_end ([","%char; " "%char] ++ t) = true.
Proof. done. Qed.

(** After [", "], the next item starts without whitespace. *)
Lemma skip_comma (p : list ascii) (ps : list (list ascii)) (rest : list ascii) c t :
  p = c :: t -> is_ws c = false ->
  skip_ws (drop 1 (skip_ws ([","%char; " "%char] ++ join_with [","%char; " "%char] (p :: ps) ++ rest))) =
  join_with [","%char; " "%char] (p :: ps) ++ rest.
Proof.
  intros Hp Hc. destruct (join_with_head [","%char; " "%char] p ps c t Hp) as (t' & ->).
  change (skip_ws (drop 1 (skip_ws (","%char :: " "%char :: c :: t' ++ rest))) = c :: t' ++ rest).
  rewrite (skip_ws_nonws ","%char) by reflexivity. cbn [skipn].
  rewrite skip_ws_ws by reflexivity. by apply skip_ws_nonws.
Qed.

Lemma array_items_dumps (d : nat) (vs acc : list pyval) (r : list ascii) :
  vs <> [] -> Forall (scans d) vs ->
  exists f, forall f', f <= f' ->
    array_items f' d acc (join_with [","%char; " "%char] (map dumps_chars vs) ++ "]"%char :: r) =
    Scanned (PList (rev acc ++ vs)) r.
Proof.
  revert acc. induction vs as [|v vs IH]; intros acc Hne Hs; [done|].
  apply Forall_cons in Hs as [Hv Hs].
  destruct vs as [|v2 vs].
  - destruct (Hv ("]"%char :: r) eq_refl) as [f Hf]. exists (S f). intros [|f'] Hle; [lia|].
    cbn [map join_with array_items]. rewrite Hf by lia. cbn [scan_bind]. rewrite (skip_ws_nonws "]"%char) by reflexivity. simpl. by rewrite drop_0.
  - destruct (Hv ([","%char; " "%char] ++ join_with [","%char; " "%char] (map dumps_chars (v2 :: vs)) ++
                  "]"%char :: r) (comma_sep_value_end _)) as [f1 Hf1].
    destruct (IH (v :: acc) ltac:(done) Hs) as [f2 Hf2].
    exists (S (f1 `max` f2)). intros [|f'] Hle; [lia|].
    change (join_with [","%char; " "%char] (map dumps_chars (v :: v2 :: vs))) with
      (dumps_chars v ++ [","%char; " "%char] ++ join_with [","%char; " "%char] (map dumps_chars (v2 :: vs))).
    rewrite <- !app_assoc. cbn [array_items]. rewrite Hf1 by lia. cbn [scan_bind].
    destruct (dumps_chars_head v2) as (c & t & Hc & Hws & _).
    change (map dumps_chars (v2 :: vs)) with (dumps_chars v2 :: map dumps_chars vs).
    rewrite skip_comma with (c := c) (t := t) by done.
    rewrite Hf2 by lia. cbn. by rewrite <- app_assoc.
Qed.

Lemma skip_ws_dumps (x : pyval) (rest : list ascii) : skip_ws (dumps_chars x ++ rest) = dumps_chars x ++ rest.
Proof. destruct (dumps_chars_head x) as (c & t & -> & Hws & _). cbn [app]. by apply skip_ws_nonws. Qed.

Lemma head_is_self (c : ascii) (t : list ascii) : head_is c (c :: t) = true.
Proof. cbn. apply Ascii.eqb_refl. Qed.

(** Scanning one printed item [k: x] of a dict. *)
Lemma object_item_scan (g d : nat) (acc : list (string * pyval)) (k : string) (x : pyval) (R : list ascii) K :
  (forall f', K <= f' -> scan_once f' d (dumps_chars x ++ R) = Scanned x R) -> K <= g ->
  object_items (S g) d acc (item_chars (k, x) ++ R) =
  if head_is "}" (skip_ws R) then Scanned (PDict (dict_set k x acc)) (drop 1 (skip_ws R))
  else if head_is "," (skip_ws R) then object_items g d (dict_set k x acc) (skip_ws (drop 1 (skip_ws R)))
  else ScanError "Expecting ',' delimiter" (skip_ws R).
Proof.
  intros Hx Hg. unfold item_chars, encode_basestring_ascii. rewrite <- !app_assoc. cbn [app object_items].
  change (Ascii.eqb dquote dquote) with true. cbv iota.
  rewrite <- !app_assoc. cbn [app]. rewrite scanstring_escaped. cbn [scan_bind rev app]. rewrite string_of_list_ascii_of_string.
  rewrite (skip_ws_nonws ":"%char), head_is_self by reflexivity. cbn [skipn].
  rewrite skip_ws_ws, skip_ws_dumps by reflexivity. rewrite Hx by done. reflexivity.
Qed.

Lemma object_items_dumps (d : nat) (kvs acc : list (string * pyval)) (r : list ascii) :
  kvs <> [] -> NoDup ((acc ++ kvs).*1) -> Forall (fun kv => scans d kv.2) kvs ->
  exists f, forall f', f <= f' ->
    object_items f' d acc (join_with [","%char; " "%char] (map item_chars kvs) ++ "}"%char :: r) =
    Scanned (PDict (acc ++ kvs)) r.
Proof.
  revert acc. induction kvs as [|[k x] kvs IH]; intros acc Hne Hnd Hs; [done|].
  apply Forall_cons in Hs as [Hx Hs]. cbn in Hx.
  assert (Hk : k ∉ acc.*1).
  { rewrite fmap_app in Hnd. apply NoDup_app in Hnd as (_ & Hd & _). intros Hin. apply (Hd k Hin). by left. }
  destruct kvs as [|kv2 kvs].
  - destruct (Hx ("}"%char :: r) eq_refl) as [f Hf]. exists (S f). intros [|f'] Hle; [lia|].
    cbn [map join_with]. rewrite (object_item_scan f' d acc k x _ f) by (done || lia).
    rewrite (skip_ws_nonws "}"%char), head_is_self by reflexivity. cbn [skipn].
    by rewrite dict_set_new.
  - destruct (Hx ([","%char; " "%char] ++ join_with [","%char; " "%char] (map item_chars (kv2 :: kvs)) ++
                  "}"%char :: r) (comma_sep_value_end _)) as [f1 Hf1].
    destruct (IH (acc ++ [(k, x)]) ltac:(done) ltac:(by rewrite <- app_assoc) Hs) as [f2 Hf2].
    exists (S (f1 `max` f2)). intros [|f'] Hle; [lia|].
    change (join_with [","%char; " "%char] (map item_chars ((k, x) :: kv2 :: kvs))) with
      (item_chars (k, x) ++ [","%char; " "%char] ++ join_with [","%char; " "%char] (map item_chars (kv2 :: kvs))).
    rewrite <- !app_assoc. rewrite (object_item_scan f' d acc k x _ f1) by (done || lia).
    rewrite dict_set_new by done.
    assert (Hh : exists c t, item_chars kv2 = c :: t /\ is_ws c = false) by (destruct kv2; by eexists _, _).
    destruct Hh as (c & t & Hc & Hws).
    change (map item_chars (kv2 :: kvs)) with (item_chars kv2 :: map item_chars kvs).
    rewrite skip_comma with (c := c) (t := t) by done.
    cbn [app]. rewrite (skip_ws_nonws ","%char) by reflexivity. cbn [head_is]. change (Ascii.eqb "," "}") with false.
    rewrite Ascii.eqb_refl. rewrite Hf2 by lia. by rewrite <- app_assoc.
Qed.

(** An opening bracket followed by the printed items. *)
Lemma scan_once_open (f d : nat) (o : ascii) (p : list ascii) (ps : list (list ascii)) (rest : list ascii) c t :
  p = c :: t -> is_ws c = false -> head_is "]" [c] = false -> head_is "}" [c] = false ->
  (o = "["%char -> scan_once (S f) (S d) (o :: join_with [","%char; " "%char] (p :: ps) ++ rest) =
                   array_items f d [] (join_with [","%char; " "%char] (p :: ps) ++ rest)) /\
  (o = "{"%char -> scan_once (S f) (S d) (o :: join_with [","%char; " "%char] (p :: ps) ++ rest) =
                   object_items f d [] (join_with [","%char; " "%char] (p :: ps) ++ rest)).
Proof.
  intros Hp Hws Hb Hc. destruct (join_with_head [","%char; " "%char] p ps c t Hp) as (t' & ->).
  cbn [head_is] in Hb, Hc. split; intros ->; cbn [app scan_once].
  - change (Ascii.eqb "[" dquote) with false. change (Ascii.eqb "[" "{") with false.
    change (Ascii.eqb "[" "[") with true. cbv iota.
    rewrite skip_ws_nonws by done. cbn [head_is]. by rewrite Hb.
  - change (Ascii.eqb "{" dquote) with false. change (Ascii.eqb "{" "{") with true. cbv iota.
    rewrite skip_ws_nonws by done. cbn [head_is]. by rewrite Hc.
Qed.

Lemma dumps_scans (v : pyval) : forall d, json_value_ok d v = true -> scans d v.
Proof.
  induction v as [|b|z|s|l IH|kvs IH] using pyval_ind'; intros d Hok r Hr.
  1-4: exists 1; intros [|f'] Hf; [lia|].
  - reflexivity.
  - by destruct b.
  - apply scan_once_int; [done|]. by apply Nat.leb_le.
  - apply scan_once_string.
  - destruct d as [|d]; [done|].
    destruct l as [|v l]; [exists 1; intros [|f'] Hf; [lia|reflexivity]|].
    change (forallb (json_value_ok d) (v :: l) = true) in Hok. rewrite forallb_forall in Hok.
    assert (Hs : Forall (scans d) (v :: l)).
    { apply Forall_forall. intros x Hx. rewrite Forall_forall in IH. apply IH; [done|].
      apply Hok. by apply list_elem_of_In. }
    destruct (array_items_dumps d (v :: l) [] r ltac:(done) Hs) as [f Hf].
    destruct (dumps_chars_head v) as (c & t & Hc & Hws & Hb & Hcl).
    exists (S f). intros [|f'] Hle; [lia|].
    cbn [dumps_chars map app]. rewrite <- app_assoc. cbn [app].
    rewrite (proj1 (scan_once_open f' d "[" _ _ _ c t Hc Hws Hb Hcl) eq_refl). by apply Hf; lia.
  - destruct d as [|d]; [done|].
    destruct kvs as [|[k x] kvs]; [exists 1; intros [|f'] Hf; [lia|reflexivity]|].
    change (bool_decide (NoDup ((k, x) :: kvs).*1) &&
            forallb (fun kv => match kv with (_, x) => json_value_ok d x end) ((k, x) :: kvs) = true) in Hok.
    apply andb_prop in Hok as [Hnd Hok]. apply bool_decide_eq_true in Hnd.
    rewrite forallb_forall in Hok.
    assert (Hs : Forall (fun kv => scans d kv.2) ((k, x) :: kvs)).
    { apply Forall_forall. intros [k' x'] Hx. rewrite Forall_forall in IH. apply (IH (k', x')); [done|].
      apply (Hok (k', x')). by apply list_elem_of_In. }
    destruct (object_items_dumps d ((k, x) :: kvs) [] r ltac:(done) Hnd Hs) as [f Hf].
    assert (Hh : exists c t, item_chars (k, x) = c :: t /\ is_ws c = false /\ head_is "]" [c] = false /\
                             head_is "}" [c] = false) by (by eexists _, _).
    destruct Hh as (c & t & Hc & Hws & Hb & Hcl).
    exists (S f). intros [|f'] Hle; [lia|].
    change (dumps_chars (PDict ((k, x) :: kvs))) with
      ("{"%char :: join_with [","%char; " "%char] (map item_chars ((k, x) :: kvs)) ++ ["}"%char]).
    cbn [app map]. rewrite <- app_assoc. cbn [app].
    rewrite (proj2 (scan_once_open f' d "{" _ _ _ c t Hc Hws Hb Hcl) eq_refl). by apply Hf; lia.
Qed.

(** Round trip.  For every value [json.dumps] prints with [limit] levels
    of the recursion allowance left (distinct dict keys, integers of at
    most 4300 digits, at most [limit] levels of nesting), [json.loads]
    called with the same allowance gives the value back: strings with
    their escapes, integers, nested lists and dicts in their order. *)
Theorem json_roundtrip (limit : nat) (v : pyval) :
  json_value_ok limit v = true -> json_decode limit (json_dumps v) = Some (inr v).
Proof.
  intros Hok. unfold json_decode, json_dumps. rewrite list_ascii_of_string_of_list_ascii.
  destruct (dumps_scans v limit Hok [] eq_refl) as [f Hf]. rewrite app_nil_r in Hf.
  assert (Hws : skip_ws (dumps_chars v) = dumps_chars v).
  { pose proof (skip_ws_dumps v []) as H. by rewrite app_nil_r in H. }
  rewrite Hws.
  pose proof (proj1 (scan_total (json_fuel (dumps_chars v)))) as Htot.
  assert (Hrun : scan_once (json_fuel (dumps_chars v)) limit (dumps_chars v) = Scanned v []).
  { rewrite <- (Hf (f `max` json_fuel (dumps_chars v))) by lia.
    apply scan_once_fuel_irrelevant; [rewrite Hf by lia; done|]. apply Htot. unfold json_fuel. lia. }
  by rewrite Hrun.
Qed.
