(* ===== verification/JsonGrammar.v ===== *)
(** * The JSON grammar, and the decoder against it

    An abstract specification of what [json.loads] accepts: the grammar
    of RFC 8259 (whitespace, literals, numbers, strings with their
    escapes, arrays, objects), restricted to what the model decodes:
    integers only, [\u] escapes below U+0100, at most 4300 digits
    (CPython's [sys.int_info.default_max_str_digits]), and arrays and
    objects nested at most [d] deep, the limit on nesting RFC 8259
    (section 9) lets an implementation set and CPython sets with its
    recursion allowance.  An object denotes the dict built by inserting
    its members in order, a later duplicate key replacing the value in
    place ([PyDict_SetItem]).

    The grammar is written with its own notions of whitespace, digits,
    escapes and decimal values, not with the scanner's functions.  The
    refinement theorem states that [json_decode limit] accepts a text with
    the value [v] exactly when the grammar derives [v] from it within
    [limit] levels of nesting: the scanner
    is sound (every text it accepts is a JSON text of that value) and
    complete (it accepts every JSON text of the restricted grammar). *)

From stdpp Require Import base list strings pretty.
From Stdlib Require Import Ascii String ZArith Lia.
From S2P Require Import Prelude PyStr PyVal Json JsonFuel JsonRoundtrip.

Local Open Scope string_scope.

(** ** The grammar *)

(** [ws = *( %x20 / %x09 / %x0A / %x0D )] *)
Inductive ws : list ascii -> Prop :=
| ws_nil : ws []
| ws_cons c w : nat_of_ascii c ∈ [32; 9; 10; 13]%nat -> ws w -> ws (c :: w).

Definition digit (c : ascii) : Prop := (48 <= nat_of_ascii c <= 57)%nat.

(** The value of a list of decimal digits, most significant first. *)
Fixpoint decimal (ds : list ascii) : Z :=
  match ds with
  | [] => 0%Z
  | d :: t => (Z.of_nat (nat_of_ascii d - 48) * 10 ^ Z.of_nat (List.length t) + decimal t)%Z
  end.

(** [int = zero / ( digit1-9 *DIGIT )], at most 4300 digits. *)
Inductive int_lit : list ascii -> Prop :=
| int_zero : int_lit ["0"%char]
| int_digits d ds :
    digit d -> d <> "0"%char -> Forall digit ds -> (List.length (d :: ds) <= 4300)%nat ->
    int_lit (d :: ds).

(** [number = [ minus ] int] *)
Inductive json_number : list ascii -> Z -> Prop :=
| num_pos ds : int_lit ds -> json_number ds (decimal ds)
| num_neg ds : int_lit ds -> json_number ("-"%char :: ds) (- decimal ds)%Z.

(** [HEXDIG] and its value. *)
Definition hexdig (c : ascii) (n : nat) : Prop :=
  let k := nat_of_ascii c in
  (48 <= k <= 57 /\ n = k - 48)%nat \/ (97 <= k <= 102 /\ n = k - 87)%nat \/ (65 <= k <= 70 /\ n = k - 55)%nat.

(** What follows the backslash of an escape, and the character it stands for. *)
Inductive escape : list ascii -> ascii -> Prop :=
| esc_quote : escape [dquote] dquote
| esc_backslash : escape [backslash] backslash
| esc_slash : escape ["/"%char] "/"%char
| esc_b : escape ["b"%char] (ascii_of_nat 8)
| esc_f : escape ["f"%char] (ascii_of_nat 12)
| esc_n : escape ["n"%char] (ascii_of_nat 10)
| esc_r : escape ["r"%char] (ascii_of_nat 13)
| esc_t : escape ["t"%char] (ascii_of_nat 9)
| esc_u h1 h2 h3 h4 n1 n2 n3 n4 :
    hexdig h1 n1 -> hexdig h2 n2 -> hexdig h3 n3 -> hexdig h4 n4 ->
    (((n1 * 16 + n2) * 16 + n3) * 16 + n4 < 256)%nat ->
    escape ["u"%char; h1; h2; h3; h4] (ascii_of_nat (((n1 * 16 + n2) * 16 + n3) * 16 + n4)).

(** The characters between the quotes of a string, and the text they
    denote: unescaped characters are neither controls, the quote nor
    the backslash. *)
Inductive str_chars : list ascii -> list ascii -> Prop :=
| sc_nil : str_chars [] []
| sc_plain c t d :
    (32 <= nat_of_ascii c)%nat -> c <> dquote -> c <> backslash -> str_chars t d ->
    str_chars (c :: t) (c :: d)
| sc_escape e c t d : escape e c -> str_chars t d -> str_chars (backslash :: e ++ t) (c :: d).

(** The dict an object denotes: its members inserted in order. *)
Definition build_dict (acc : list (string * pyval)) (kvs : list (string * pyval)) : list (string * pyval) :=
  fold_left (fun d kv => dict_set kv.1 kv.2 d) kvs acc.

(** Values with at most [d] levels of arrays and objects, the elements
    of a non-empty array (each surrounded by whitespace, separated by
    commas) and the members of a non-empty object, whose values have at
    most [d] levels. *)
Inductive json_value : nat -> list ascii -> pyval -> Prop :=
| jv_null d : json_value d (list_ascii_of_string "null") PNone
| jv_true d : json_value d (list_ascii_of_string "true") (PBool true)
| jv_false d : json_value d (list_ascii_of_string "false") (PBool false)
| jv_number d t z : json_number t z -> json_value d t (PInt z)
| jv_string d t cs : str_chars t cs -> json_value d (dquote :: t ++ [dquote]) (PStr (string_of_list_ascii cs))
| jv_array_empty d w : ws w -> json_value (S d) ("["%char :: w ++ ["]"%char]) (PList [])
| jv_array d t vs : json_elems d t vs -> json_value (S d) ("["%char :: t ++ ["]"%char]) (PList vs)
| jv_object_empty d w : ws w -> json_value (S d) ("{"%char :: w ++ ["}"%char]) (PDict [])
| jv_object d t kvs : json_members d t kvs -> json_value (S d) ("{"%char :: t ++ ["}"%char]) (PDict (build_dict [] kvs))
with json_elems : nat -> list ascii -> list pyval -> Prop :=
| je_one d w1 t v w2 : ws w1 -> json_value d t v -> ws w2 -> json_elems d (w1 ++ t ++ w2) [v]
| je_cons d w1 t v w2 rest vs :
    ws w1 -> json_value d t v -> ws w2 -> json_elems d rest vs ->
    json_elems d (w1 ++ t ++ w2 ++ ","%char :: rest) (v :: vs)
with json_members : nat -> list ascii -> list (string * pyval) -> Prop :=
| jm_one d w1 kt k w2 w3 t v w4 :
    ws w1 -> str_chars kt k -> ws w2 -> ws w3 -> json_value d t v -> ws w4 ->
    json_members d (w1 ++ (dquote :: kt ++ [dquote]) ++ w2 ++ ":"%char :: w3 ++ t ++ w4)
      [(string_of_list_ascii k, v)]
| jm_cons d w1 kt k w2 w3 t v w4 rest kvs :
    ws w1 -> str_chars kt k -> ws w2 -> ws w3 -> json_value d t v -> ws w4 -> json_members d rest kvs ->
    json_members d (w1 ++ (dquote :: kt ++ [dquote]) ++ w2 ++ ":"%char :: w3 ++ t ++ w4 ++ ","%char :: rest)
      ((string_of_list_ascii k, v) :: kvs).

(** [JSON-text = ws value ws], nested at most [d] deep. *)
Definition json_text (d : nat) (doc : list ascii) (v : pyval) : Prop :=
  exists w1 t w2, doc = (w1 ++ t ++ w2)%list /\ ws w1 /\ json_value d t v /\ ws w2.

Scheme json_value_mut := Minimality for json_value Sort Prop
with json_elems_mut := Minimality for json_elems Sort Prop
with json_members_mut := Minimality for json_members Sort Prop.
Combined Scheme json_grammar_mut from json_value_mut, json_elems_mut, json_members_mut.

(** ** What the completeness proof carries *)

(** A value starts with a character that is not whitespace and closes
    no container. *)
Definition value_start (c : ascii) : Prop := is_ws c = false /\ c <> "]"%char /\ c <> "}"%char.

(** What the completeness induction carries for values, elements and members. *)
Definition value_scans (d : nat) (t : list ascii) (v : pyval) : Prop :=
  forall r, value_end r = true -> exists f, scan_once f d (t ++ r) = Scanned v r.

Definition elems_scan (d : nat) (t : list ascii) (vs : list pyval) : Prop :=
  forall acc r, exists f, array_items f d acc (skip_ws (t ++ "]"%char :: r)) = Scanned (PList (rev acc ++ vs)) r.

Definition members_scan (d : nat) (t : list ascii) (kvs : list (string * pyval)) : Prop :=
  forall acc r, exists f, object_items f d acc (skip_ws (t ++ "}"%char :: r)) = Scanned (PDict (build_dict acc kvs)) r.

(** ** The scanner's character tests against the grammar's *)

Local Open Scope list_scope.

Lemma is_ws_spec (c : ascii) : is_ws c = bool_decide (nat_of_ascii c ∈ [32; 9; 10; 13]%nat).
Proof. destruct c as [[] [] [] [] [] [] [] []]; reflexivity. Qed.

Lemma is_ws_true (c : ascii) : is_ws c = true -> nat_of_ascii c ∈ [32; 9; 10; 13]%nat.
Proof. rewrite is_ws_spec. by intros ?%bool_decide_eq_true. Qed.

Lemma ws_is_ws (c : ascii) : nat_of_ascii c ∈ [32; 9; 10; 13]%nat -> is_ws c = true.
Proof. rewrite is_ws_spec. intros H. by apply bool_decide_eq_true. Qed.

Lemma ws_app (w1 w2 : list ascii) : ws w1 -> ws w2 -> ws (w1 ++ w2).
Proof. induction 1; cbn; [done|]. intros; constructor; auto. Qed.

Lemma skip_ws_split (s : list ascii) : exists w, ws w /\ s = w ++ skip_ws s.
Proof.
  induction s as [|c s IH]; [exists []; split; constructor|].
  cbn. destruct (is_ws c) eqn:Hc.
  - destruct IH as (w & Hw & Hs). exists (c :: w). split; [constructor; [by apply is_ws_true|done]|].
    cbn. by f_equal.
  - exists []. split; [constructor|done].
Qed.

Lemma ws_skip (w s : list ascii) : ws w -> skip_ws (w ++ s) = skip_ws s.
Proof. induction 1 as [|c w Hc _ IH]; [done|]. cbn. by rewrite ws_is_ws. Qed.

Lemma skip_ws_ws_nil (w : list ascii) : ws w -> skip_ws w = [].
Proof. intros Hw. pose proof (ws_skip w [] Hw) as H. by rewrite app_nil_r in H. Qed.

Lemma skip_ws_nil_ws (s : list ascii) : skip_ws s = [] -> ws s.
Proof. intros H. destruct (skip_ws_split s) as (w & Hw & Hs). rewrite H, app_nil_r in Hs. by subst. Qed.

Lemma is_digit_spec (c : ascii) : is_digit c = true <-> digit c.
Proof. unfold is_digit, digit. rewrite andb_true_iff, !Nat.leb_le. done. Qed.

Lemma hex_value_spec (c : ascii) (n : nat) : hex_value c = Some n -> hexdig c n.
Proof.
  unfold hex_value, hexdig.
  destruct ((48 <=? nat_of_ascii c)%nat && (nat_of_ascii c <=? 57)%nat) eqn:H1.
  { intros [= <-]. apply andb_true_iff in H1 as [?%Nat.leb_le ?%Nat.leb_le]. left; lia. }
  destruct ((97 <=? nat_of_ascii c)%nat && (nat_of_ascii c <=? 102)%nat) eqn:H2.
  { intros [= <-]. apply andb_true_iff in H2 as [?%Nat.leb_le ?%Nat.leb_le]. right; left; lia. }
  destruct ((65 <=? nat_of_ascii c)%nat && (nat_of_ascii c <=? 70)%nat) eqn:H3; [|done].
  intros [= <-]. apply andb_true_iff in H3 as [?%Nat.leb_le ?%Nat.leb_le]. right; right; lia.
Qed.

Lemma hexdig_value (c : ascii) (n : nat) : hexdig c n -> hex_value c = Some n.
Proof.
  unfold hex_value, hexdig. intros [(H & ->)|[(H & ->)|(H & ->)]];
    repeat match goal with |- context [(?a <=? ?b)%nat] => destruct (Nat.leb_spec a b) end;
    cbn; try done; lia.
Qed.

Lemma short_escape_spec (e c : ascii) : short_escape e = Some c -> escape [e] c.
Proof.
  unfold short_escape.
  repeat match goal with |- context [Ascii.eqb e ?a] =>
    destruct (Ascii.eqb_spec e a) as [->|_]; [intros [= <-]; constructor|] end.
  done.
Qed.

Lemma escape_short (e c : ascii) : escape [e] c -> short_escape e = Some c.
Proof. inversion 1; reflexivity. Qed.

Lemma decimal_digits_value (ds : list ascii) : digits_value ds = decimal ds.
Proof.
  unfold digits_value.
  assert (H : forall a, fold_left (fun acc c => acc * 10 + Z.of_nat (nat_of_ascii c - 48))%Z ds a =
                        (a * 10 ^ Z.of_nat (List.length ds) + decimal ds)%Z).
  { induction ds as [|d ds IH]; intros a; cbn [fold_left decimal List.length]; [lia|].
    rewrite IH, Nat2Z.inj_succ, Z.pow_succ_r by lia. ring. }
  rewrite H. lia.
Qed.

(** ** Strings *)

Lemma decode_uXXXX_spec (h1 h2 h3 h4 : ascii) (n : nat) :
  decode_uXXXX h1 h2 h3 h4 = Some n ->
  exists n1 n2 n3 n4, hexdig h1 n1 /\ hexdig h2 n2 /\ hexdig h3 n3 /\ hexdig h4 n4 /\
    n = (((n1 * 16 + n2) * 16 + n3) * 16 + n4)%nat.
Proof.
  unfold decode_uXXXX.
  destruct (hex_value h1) as [n1|] eqn:E1; [|done]. destruct (hex_value h2) as [n2|] eqn:E2; [|done].
  destruct (hex_value h3) as [n3|] eqn:E3; [|done]. destruct (hex_value h4) as [n4|] eqn:E4; [|done].
  intros [= <-]. exists n1, n2, n3, n4. by repeat split; apply hex_value_spec.
Qed.

Lemma scanstring_sound (b s acc : list ascii) (k : string) (r : list ascii) :
  scanstring_chars b s acc = Scanned k r ->
  exists t d, s = t ++ dquote :: r /\ str_chars t d /\ k = string_of_list_ascii (rev acc ++ d).
Proof.
  revert acc. induction s as [s IH] using (induction_ltof1 _ (@List.length ascii)); intros acc H.
  destruct s as [|c t]; cbn in H; [done|].
  destruct (Ascii.eqb_spec c dquote) as [->|Hq].
  { injection H as <- <-. exists [], []. split; [done|]. split; [constructor|]. by rewrite app_nil_r. }
  destruct (Ascii.eqb_spec c backslash) as [->|Hb].
  - destruct t as [|e t1]; [done|]. destruct (Ascii.eqb_spec e "u") as [->|Hu].
    + destruct t1 as [|h1 [|h2 [|h3 [|h4 t2]]]]; try done.
      case_bool_decide; [done|]. destruct (decode_uXXXX h1 h2 h3 h4) as [n|] eqn:Hd; [|done].
      destruct (Nat.leb_spec n 255); [|done].
      destruct (IH t2 ltac:(unfold ltof; cbn; lia) _ H) as (t & d & -> & Hs & ->).
      destruct (decode_uXXXX_spec _ _ _ _ _ Hd) as (n1 & n2 & n3 & n4 & ? & ? & ? & ? & ->).
      exists (backslash :: ["u"%char; h1; h2; h3; h4] ++ t), (ascii_of_nat (((n1 * 16 + n2) * 16 + n3) * 16 + n4) :: d).
      split; [done|]. split; [constructor; [constructor; auto; lia|done]|]. cbn. by rewrite <- app_assoc.
    + destruct (short_escape e) as [c'|] eqn:He; [|done].
      destruct (IH t1 ltac:(unfold ltof; cbn; lia) _ H) as (t & d & -> & Hs & ->).
      exists (backslash :: [e] ++ t), (c' :: d). split; [done|].
      split; [constructor; [by apply short_escape_spec|done]|]. cbn. by rewrite <- app_assoc.
  - destruct (Nat.leb_spec (nat_of_ascii c) 31); [done|].
    destruct (IH t ltac:(unfold ltof; cbn; lia) _ H) as (t' & d & -> & Hs & ->).
    exists (c :: t'), (c :: d). split; [done|]. split; [constructor; auto; lia|]. cbn. by rewrite <- app_assoc.
Qed.

Lemma scanstring_complete (b t d r acc : list ascii) :
  str_chars t d -> scanstring_chars b (t ++ dquote :: r) acc = Scanned (string_of_list_ascii (rev acc ++ d)) r.
Proof.
  intros Hs. revert acc. induction Hs as [|c t d Hc Hq Hb _ IH|e c t d He _ IH]; intros acc.
  - cbn. by rewrite app_nil_r.
  - cbn [app scanstring_chars].
    destruct (Ascii.eqb_spec c dquote); [done|]. destruct (Ascii.eqb_spec c backslash); [done|].
    destruct (Nat.leb_spec (nat_of_ascii c) 31); [lia|]. rewrite IH. cbn. by rewrite <- app_assoc.
  - cbn [app scanstring_chars]. change (Ascii.eqb backslash dquote) with false.
    change (Ascii.eqb backslash backslash) with true. cbv iota.
    pose proof He as He'.
    destruct He as [| | | | | | | |h1 h2 h3 h4 n1 n2 n3 n4 H1 H2 H3 H4 Hlt]; cbn [app];
      [simpl (Ascii.eqb _ "u"); cbv iota; rewrite (escape_short _ _ He');
       rewrite IH; cbn; by rewrite <- app_assoc ..|].
    change (Ascii.eqb "u" "u") with true. cbv iota.
    rewrite bool_decide_false by (destruct t; discriminate).
    unfold decode_uXXXX. rewrite (hexdig_value _ _ H1), (hexdig_value _ _ H2), (hexdig_value _ _ H3), (hexdig_value _ _ H4). cbn [mbind option_bind].
    destruct (Nat.ltb_spec (((n1 * 16 + n2) * 16 + n3) * 16 + n4) 256); [|lia].
    rewrite IH. cbn. by rewrite <- app_assoc.
Qed.

(** ** Numbers *)

Lemma span_digits_digits (s : list ascii) : Forall digit (span_digits s).1.
Proof.
  induction s as [|c s IH]; cbn; [constructor|]. destruct (is_digit c) eqn:Hd; [|constructor].
  destruct (span_digits s) as [d r]. constructor; [by apply is_digit_spec|done].
Qed.

Lemma int_part_sound (s1 ds r : list ascii) :
  match s1 with c :: t => if Ascii.eqb c "0" then ([c], t) else span_digits s1 | [] => ([], []) end = (ds, r) ->
  ds <> [] -> (List.length ds <= 4300)%nat -> s1 = ds ++ r /\ int_lit ds.
Proof.
  destruct s1 as [|c t]; [by intros [= <- <-]|].
  destruct (Ascii.eqb_spec c "0") as [->|Hc]; [intros [= <- <-]; split; [done|constructor]|].
  pose proof (span_digits_app (c :: t)) as Happ. pose proof (span_digits_digits (c :: t)) as Hdig.
  intros Hs Hne Hl. rewrite Hs in Happ, Hdig. cbn in Happ, Hdig. split; [done|].
  destruct ds as [|d ds]; [done|]. apply Forall_cons in Hdig as [Hd Hds].
  cbn in Hs. destruct (is_digit c); [|by inversion Hs].
  destruct (span_digits t). injection Hs as <- _ _. by constructor.
Qed.

Lemma match_number_sound (s : list ascii) (v : pyval) (r : list ascii) :
  match_number s = Scanned v r -> exists t z, s = t ++ r /\ json_number t z /\ v = PInt z.
Proof.
  unfold match_number.
  match goal with |- context [let '(_, _) := ?m in _] => destruct m as [neg s1] eqn:Hsign end.
  match goal with |- context [let '(_, _) := ?m in _] => destruct m as [ds r1] eqn:Hint end.
  case_bool_decide as Hne; [done|]. destruct (frac_follows r1 || exp_follows r1); [done|].
  destruct (Nat.ltb_spec 4300 (List.length ds)); [done|]. intros [= <- ->].
  destruct (int_part_sound s1 ds r Hint Hne ltac:(lia)) as [-> Hlit].
  rewrite decimal_digits_value.
  destruct s as [|c t]; [injection Hsign as <- Hs1; by destruct ds|].
  destruct (Ascii.eqb_spec c "-") as [->|]; injection Hsign as <- Hs1; subst.
  - exists ("-"%char :: ds). eexists. split; [done|]. split; [constructor; done|done].
  - exists ds. eexists. split; [done|]. split; [constructor; done|done].
Qed.

Lemma int_lit_is_digit (cs : list ascii) : int_lit cs -> Forall (fun c => is_digit c = true) cs.
Proof.
  intros [|d ds Hd _ Hds _]; [by repeat constructor|].
  constructor; [by apply is_digit_spec|]. by eapply Forall_impl; [done|intros c ?%is_digit_spec].
Qed.

Lemma match_number_complete (t : list ascii) (z : Z) (r : list ascii) :
  json_number t z -> value_end r = true -> match_number (t ++ r) = Scanned (PInt z) r.
Proof.
  intros Hn Hr. destruct Hn as [ds Hlit|ds Hlit]; rewrite <- decimal_digits_value;
    pose proof (int_lit_is_digit _ Hlit) as Hdig; destruct Hlit as [|d ds _ Hd0 _ Hl].
  - unfold match_number. cbn -[frac_follows exp_follows]. by rewrite value_end_no_float.
  - exact (match_number_digits false d ds r Hdig Hd0 Hr Hl).
  - unfold match_number. cbn -[frac_follows exp_follows]. by rewrite value_end_no_float.
  - exact (match_number_digits true d ds r Hdig Hd0 Hr Hl).
Qed.

(** ** Soundness: what the scanner reads is derived by the grammar *)

Lemma starts_with_app (w s : list ascii) : starts_with w s = true -> s = w ++ drop (List.length w) s.
Proof.
  revert s. induction w as [|a w IH]; intros [|b s] H; cbn in *; try done.
  apply andb_prop in H as [->%Ascii.eqb_eq H]. f_equal. by apply IH.
Qed.

Lemma head_is_skip (c : ascii) (s : list ascii) :
  head_is c (skip_ws s) = true -> exists w, ws w /\ s = w ++ c :: drop 1 (skip_ws s).
Proof.
  intros H. destruct (skip_ws_split s) as (w & Hw & Hs). exists w. split; [done|].
  destruct (skip_ws s) as [|d t]; [done|]. cbn in H. apply Ascii.eqb_eq in H as ->. exact Hs.
Qed.

Lemma elems_ws d (w t : list ascii) (vs : list pyval) : ws w -> json_elems d t vs -> json_elems d (w ++ t) vs.
Proof. intros Hw []; rewrite app_assoc; constructor; auto using ws_app. Qed.

Lemma members_ws d (w t : list ascii) (kvs : list (string * pyval)) :
  ws w -> json_members d t kvs -> json_members d (w ++ t) kvs.
Proof. intros Hw []; rewrite app_assoc; constructor; auto using ws_app. Qed.

Ltac list_norm := repeat first [rewrite <- app_assoc | rewrite <- app_comm_cons].
Ltac list_eq := subst; list_norm; reflexivity.

Lemma scan_sound (f : nat) :
  (forall d s v r, scan_once f d s = Scanned v r -> exists t, s = t ++ r /\ json_value d t v) /\
  (forall d acc s v r, array_items f d acc s = Scanned v r ->
     exists t vs, s = t ++ "]"%char :: r /\ json_elems d t vs /\ v = PList (rev acc ++ vs)) /\
  (forall d acc s v r, object_items f d acc s = Scanned v r ->
     exists t kvs, s = t ++ "}"%char :: r /\ json_members d t kvs /\ v = PDict (build_dict acc kvs)).
Proof.
  induction f as [|f (IHs & IHa & IHo)]; [done|]. split; [|split].
  - intros d [|c t] v r H; cbn [scan_once] in H; [done|].
    destruct (Ascii.eqb_spec c dquote) as [->|_].
    { apply scan_bind_Scanned in H as (k & r1 & Hk & [= <- <-]).
      destruct (scanstring_sound _ _ _ _ _ Hk) as (t' & cs & -> & Hs & ->).
      exists (dquote :: t' ++ [dquote]). split; [list_eq|constructor; done]. }
    destruct (Ascii.eqb_spec c "{") as [->|_].
    { destruct d as [|d]; [done|]. destruct (head_is "}" (skip_ws t)) eqn:Hh.
      - injection H as <- <-. destruct (head_is_skip _ _ Hh) as (w & Hw & Ht).
        exists ("{"%char :: w ++ ["}"%char]). split; [by rewrite Ht at 1; list_eq|by constructor].
      - destruct (IHo _ _ _ _ _ H) as (t' & kvs & Ht' & Hm & ->).
        destruct (skip_ws_split t) as (w & Hw & Ht).
        exists ("{"%char :: (w ++ t') ++ ["}"%char]). split; [rewrite Ht, Ht'; list_eq|].
        constructor. by apply members_ws. }
    destruct (Ascii.eqb_spec c "[") as [->|_].
    { destruct d as [|d]; [done|]. destruct (head_is "]" (skip_ws t)) eqn:Hh.
      - injection H as <- <-. destruct (head_is_skip _ _ Hh) as (w & Hw & Ht).
        exists ("["%char :: w ++ ["]"%char]). split; [by rewrite Ht at 1; list_eq|by constructor].
      - destruct (IHa _ _ _ _ _ H) as (t' & vs & Ht' & He & ->).
        destruct (skip_ws_split t) as (w & Hw & Ht).
        exists ("["%char :: (w ++ t') ++ ["]"%char]). split; [rewrite Ht, Ht'; list_eq|].
        constructor. by apply elems_ws. }
    repeat match type of H with
    | (if starts_with ?w ?s then _ else _) = _ =>
        let Hw := fresh in destruct (starts_with w s) eqn:Hw;
        [injection H as <- <-; apply starts_with_app in Hw; eexists; split; [exact Hw|constructor]|]
    end.
    destruct (_ || _); [done|].
    destruct (match_number_sound _ _ _ H) as (t' & z & Ht & Hn & ->). exists t'. split; [done|by constructor].
  - intros d acc s v r H. apply scan_bind_Scanned in H as (v1 & r1 & Hs & H).
    destruct (IHs _ _ _ _ Hs) as (t1 & -> & Hv).
    destruct (head_is "]" (skip_ws r1)) eqn:Hc.
    { injection H as <- <-. destruct (head_is_skip _ _ Hc) as (w & Hw & Hr).
      exists (t1 ++ w), [v1]. split; [rewrite Hr at 1; list_eq|]. split; [|done].
      apply (je_one d [] t1 v1 w); [constructor|done|done]. }
    destruct (head_is "," (skip_ws r1)) eqn:Hc'; [|done].
    destruct (IHa _ _ _ _ _ H) as (t' & vs & Ht' & He & ->).
    destruct (head_is_skip _ _ Hc') as (w & Hw & Hr).
    destruct (skip_ws_split (drop 1 (skip_ws r1))) as (w' & Hw' & Hd).
    exists (t1 ++ w ++ ","%char :: w' ++ t'), (v1 :: vs). split; [|split].
    + rewrite Hr at 1. rewrite Hd at 1. rewrite Ht'. list_eq.
    + apply (je_cons d [] t1 v1 w); [constructor|done|done|by apply elems_ws].
    + cbn. by rewrite <- app_assoc.
  - intros d acc [|c t] v r H; cbn [object_items] in H; [done|].
    destruct (Ascii.eqb_spec c dquote) as [->|_]; [|done].
    apply scan_bind_Scanned in H as (k & r1 & Hk & H).
    destruct (scanstring_sound _ _ _ _ _ Hk) as (kt & kc & -> & Hks & ->).
    destruct (head_is ":" (skip_ws r1)) eqn:Hc; [|done].
    destruct (head_is_skip _ _ Hc) as (w2 & Hw2 & Hr1).
    destruct (skip_ws_split (drop 1 (skip_ws r1))) as (w3 & Hw3 & Hd).
    apply scan_bind_Scanned in H as (x & r2 & Hx & H).
    destruct (IHs _ _ _ _ Hx) as (tx & Htx & Hv).
    destruct (head_is "}" (skip_ws r2)) eqn:Hc2.
    { injection H as <- <-. destruct (head_is_skip _ _ Hc2) as (w4 & Hw4 & Hr2).
      exists ((dquote :: kt ++ [dquote]) ++ w2 ++ ":"%char :: w3 ++ tx ++ w4), [(string_of_list_ascii kc, x)].
      split; [|split; [|done]].
      - rewrite Hr1 at 1. rewrite Hd at 1. rewrite Htx, Hr2 at 1. list_eq.
      - apply (jm_one d []); [constructor|done..]. }
    destruct (head_is "," (skip_ws r2)) eqn:Hc3; [|done].
    destruct (IHo _ _ _ _ _ H) as (t' & kvs & Ht' & Hm & ->).
    destruct (head_is_skip _ _ Hc3) as (w4 & Hw4 & Hr2).
    destruct (skip_ws_split (drop 1 (skip_ws r2))) as (w5 & Hw5 & Hd2).
    exists ((dquote :: kt ++ [dquote]) ++ w2 ++ ":"%char :: w3 ++ tx ++ w4 ++ ","%char :: w5 ++ t'),
      ((string_of_list_ascii kc, x) :: kvs).
    split; [|split; [|done]].
    + set (S1 := skip_ws (drop 1 (skip_ws r1))) in *. set (S2 := skip_ws (drop 1 (skip_ws r2))) in *.
      rewrite Hr1, Hd, Htx, Hr2, Hd2, Ht'. list_eq.
    + apply (jm_cons d []); [constructor|done..|by apply members_ws].
Qed.

(** ** Completeness: the scanner reads every text of the grammar *)


Lemma digit_value_start (c : ascii) : digit c -> value_start c.
Proof.
  unfold digit, value_start. intros Hd. split; [|split; intros ->; vm_compute in Hd; lia].
  destruct (is_ws c) eqn:E; [|done]. apply is_ws_true in E.
  repeat (apply elem_of_cons in E as [E|E]; [lia|]). by apply elem_of_nil in E.
Qed.

Lemma json_value_head d (t : list ascii) (v : pyval) :
  json_value d t v -> exists c t', t = c :: t' /\ value_start c.
Proof.
  destruct 1 as [| | |d t z [ds [|c ds0 Hd]|ds Hl]| | | | |];
    try (eexists _, _; split; [reflexivity|]; by repeat split).
  by eexists _, _; split; [reflexivity|apply digit_value_start].
Qed.

Lemma skip_ws_value d (t x : list ascii) (v : pyval) : json_value d t v -> skip_ws (t ++ x) = t ++ x.
Proof. intros (c & t' & -> & Hc & _)%json_value_head. cbn. by rewrite Hc. Qed.

Lemma ws_value_end (w r : list ascii) : ws w -> value_end r = true -> value_end (w ++ r) = true.
Proof.
  intros [|c w' Hc _] Hr; [done|]. cbn [app value_end].
  rewrite <- (ascii_nat_embedding c).
  repeat (apply elem_of_cons in Hc as [Hc|Hc]; [by rewrite Hc|]). by apply elem_of_nil in Hc.
Qed.

Lemma scanned_mono (f f' : nat) : f <= f' ->
  (forall d s v r, scan_once f d s = Scanned v r -> scan_once f' d s = Scanned v r) /\
  (forall d acc s v r, array_items f d acc s = Scanned v r -> array_items f' d acc s = Scanned v r) /\
  (forall d acc s v r, object_items f d acc s = Scanned v r -> object_items f' d acc s = Scanned v r).
Proof.
  intros Hf. destruct (scan_mono f) as (Hs & Ha & Ho).
  split; [|split]; intros *; [destruct (Hs f' d s Hf)|destruct (Ha f' d acc s Hf)|destruct (Ho f' d acc s Hf)];
    congruence.
Qed.




Lemma skip_ws_ws_char (w : list ascii) (c : ascii) (r : list ascii) :
  ws w -> is_ws c = false -> skip_ws (w ++ c :: r) = c :: r.
Proof. intros Hw Hc. rewrite ws_skip by done. cbn. by rewrite Hc. Qed.

Lemma number_scans d (t : list ascii) (z : Z) : json_number t z -> value_scans d t (PInt z).
Proof.
  intros Hn r Hr. exists 1. rewrite <- (match_number_complete t z r Hn Hr).
  destruct Hn as [ds Hl|ds Hl]; pose proof (int_lit_is_digit _ Hl) as Hd;
    destruct Hl; apply Forall_inv in Hd; cbn [app].
  - by apply scan_once_digit.
  - by apply scan_once_digit.
  - by apply scan_once_minus.
  - by apply scan_once_minus.
Qed.

Lemma grammar_scans :
  (forall d t v, json_value d t v -> value_scans d t v) /\
  (forall d t vs, json_elems d t vs -> elems_scan d t vs) /\
  (forall d t kvs, json_members d t kvs -> members_scan d t kvs).
Proof.
  apply json_grammar_mut.
  (* literals *)
  1-3: by intros d r _; exists 1.
  - (* numbers *) intros d. apply number_scans.
  - (* strings *)
    intros dd t d Hs r _. exists 1. cbn [app scan_once]. change (Ascii.eqb dquote dquote) with true. cbv iota.
    rewrite <- app_assoc. cbn [app]. by rewrite (scanstring_complete _ t d).
  - (* [] *)
    intros d w Hw r _. exists 1. cbn [app scan_once]. rewrite <- app_assoc. cbn [app].
    by rewrite skip_ws_ws_char.
  - (* arrays *)
    intros d t vs He IH r _. destruct (IH [] r) as [f Hf]. exists (S f). cbn [app scan_once].
    rewrite <- app_assoc. cbn [app]. rewrite Hf.
    destruct He as [d w1 tv v w2 Hw1 Hv|d w1 tv v w2 rest vs Hw1 Hv];
      rewrite <- !app_assoc; cbn [app]; rewrite ?drop_0, ws_skip, (skip_ws_value _ _ _ _ Hv) by done;
      destruct (json_value_head _ _ _ Hv) as (c & ? & -> & _ & Hc & _);
      cbn; by destruct (Ascii.eqb_spec c "]").
  - (* {} *)
    intros d w Hw r _. exists 1. cbn [app scan_once]. rewrite <- app_assoc. cbn [app].
    by rewrite skip_ws_ws_char.
  - (* objects *)
    intros d t kvs Hm IH r _. destruct (IH [] r) as [f Hf]. exists (S f). cbn [app scan_once].
    rewrite <- app_assoc. cbn [app]. rewrite Hf.
    destruct Hm; rewrite <- !app_assoc; cbn [app]; by rewrite skip_ws_ws_char.
  - (* one element *)
    intros d w1 t v w2 Hw1 Hv IHv Hw2 acc r.
    destruct (IHv (w2 ++ "]"%char :: r) ltac:(by apply ws_value_end)) as [g Hg]. exists (S g).
    rewrite <- !app_assoc, ws_skip, (skip_ws_value _ _ _ _ Hv) by done. cbn [array_items]. rewrite Hg. cbn [scan_bind].
    by rewrite skip_ws_ws_char.
  - (* more elements *)
    intros d w1 t v w2 rest vs Hw1 Hv IHv Hw2 Hrest IHrest acc r.
    destruct (IHv (w2 ++ ","%char :: rest ++ "]"%char :: r) ltac:(by apply ws_value_end)) as [g Hg].
    destruct (IHrest (v :: acc) r) as [f Hf]. exists (S (max g f)).
    rewrite <- !app_assoc, ws_skip, (skip_ws_value _ _ _ _ Hv) by done. cbn [app array_items].
    rewrite (proj1 (scanned_mono g (max g f) ltac:(lia)) _ _ _ _ Hg). cbn [scan_bind].
    rewrite skip_ws_ws_char by done. cbn -[skip_ws array_items].
    rewrite drop_0.     rewrite (proj1 (proj2 (scanned_mono f (max g f) ltac:(lia))) _ _ _ _ _ Hf). cbn. by rewrite <- app_assoc.
  - (* one member *)
    intros d w1 kt k w2 w3 t v w4 Hw1 Hk Hw2 Hw3 Hv IHv Hw4 acc r.
    destruct (IHv (w4 ++ "}"%char :: r) ltac:(by apply ws_value_end)) as [g Hg]. exists (S g).
    list_norm. rewrite skip_ws_ws_char by done. cbn [object_items].
    change (Ascii.eqb dquote dquote) with true. cbv iota. rewrite (scanstring_complete _ kt k) by done.
    cbn [scan_bind rev app]. rewrite skip_ws_ws_char by done. cbn -[skip_ws scan_once].
        rewrite ?drop_0, ws_skip, (skip_ws_value _ _ _ _ Hv), Hg by done. cbn [scan_bind]. by rewrite skip_ws_ws_char.
  - (* more members *)
    intros d w1 kt k w2 w3 t v w4 rest kvs Hw1 Hk Hw2 Hw3 Hv IHv Hw4 Hrest IHrest acc r.
    destruct (IHv (w4 ++ ","%char :: rest ++ "}"%char :: r) ltac:(by apply ws_value_end)) as [g Hg].
    destruct (IHrest (dict_set (string_of_list_ascii k) v acc) r) as [f Hf]. exists (S (max g f)).
    list_norm. rewrite skip_ws_ws_char by done. cbn [object_items].
    change (Ascii.eqb dquote dquote) with true. cbv iota. rewrite (scanstring_complete _ kt k) by done.
    cbn [scan_bind rev app]. rewrite skip_ws_ws_char by done. cbn -[skip_ws scan_once object_items].
    rewrite ?drop_0, ws_skip, (skip_ws_value _ _ _ _ Hv) by done.
    rewrite (proj1 (scanned_mono g (max g f) ltac:(lia)) _ _ _ _ Hg). cbn [scan_bind].
    rewrite skip_ws_ws_char by done. cbn -[skip_ws object_items].
    by rewrite drop_0, (proj2 (proj2 (scanned_mono f (max g f) ltac:(lia))) _ _ _ _ _ Hf).
Qed.

(** ** The decoder against the grammar *)

(** [json.loads] (the model [json_decode], with its fuel) called with
    [limit] levels of the recursion allowance left accepts a text with
    the value [v] exactly when the grammar derives [v] from it within
    [limit] levels of nesting. *)
Theorem json_decode_grammar (limit : nat) (s : string) (v : pyval) :
  json_decode limit s = Some (inr v) <-> json_text limit (list_ascii_of_string s) v.
Proof.
  unfold json_decode. set (doc := list_ascii_of_string s).
  destruct (skip_ws_split doc) as (w1 & Hw1 & Hdoc).
  split.
  - unfold decode_answer. destruct (scan_once _ _ _) as [x rest| | | |] eqn:Hs; try done.
    case_bool_decide as Hr; [intros [= ->]|done].
    destruct (proj1 (scan_sound _) _ _ _ _ Hs) as (t & Ht & Hv).
    exists w1, t, rest. split; [|split; [done|split; [done|by apply skip_ws_nil_ws]]].
    by rewrite Hdoc, Ht at 1.
  - intros (w1' & t & w2 & Hd & Hw1' & Hv & Hw2).
    assert (Hskip : skip_ws doc = t ++ w2) by (rewrite Hd, ws_skip by done; by apply (skip_ws_value limit _ _ v)).
    assert (He : value_end w2 = true) by (rewrite <- (app_nil_r w2); by apply ws_value_end).
    destruct (proj1 grammar_scans limit t v Hv w2 He) as [f Hf]. rewrite <- Hskip in Hf.
    destruct (json_fuel_enough doc limit) as [_ Hsame]. rewrite <- (Hsame f) by (rewrite Hf; done).
    rewrite Hf. cbn. by rewrite bool_decide_true by (by apply skip_ws_ws_nil).
Qed.
