(* ===== verification/Nonce.v ===== *)
(** * The stream-name nonce (lines 75-76)

    [nonce = ''.join(random.choices(string.ascii_letters + string.digits,
    k=8)).upper()].

    CPython's [random()] takes two 32-bit outputs [w1], [w2] of the
    Mersenne Twister and returns [(w1 >> 5) * 2**26 + (w2 >> 6)] scaled by
    [2**-53], an exact binary64 value [k * 2**-53] with [k < 2**53].
    [random.choices] with no weights picks [population[floor(random() *
    n)]] where [n = len(population)] is a float; the product is rounded
    to the nearest binary64 (ties to even), written out here on the
    integer significand: [rne_bits m] rounds [m] to 53 significant bits.
    The Mersenne Twister itself is not modelled: the words come from the
    world's random stream, any sequence of 32-bit values. *)

From stdpp Require Import base list strings.
From Stdlib Require Import Ascii String ZArith Lia.
From S2P Require Import Prelude PyStr PyVal.

Local Open Scope string_scope.

Definition ascii_lowercase : string := "abcdefghijklmnopqrstuvwxyz".
Definition ascii_uppercase : string := "ABCDEFGHIJKLMNOPQRSTUVWXYZ".
Definition ascii_letters : string := ascii_lowercase ++ ascii_uppercase.
Definition digits : string := "0123456789".

(** [string.ascii_letters + string.digits], as a sequence of characters. *)
Definition population : list ascii := list_ascii_of_string (ascii_letters ++ digits).

(** ** [random.random()] and the float product *)

(** The 53-bit integer [k] such that [random() = k * 2**-53]. *)
Definition random_bits (w1 w2 : Z) : Z :=
  (Z.shiftr w1 5 * 67108864 + Z.shiftr w2 6)%Z.

(** Round a non-negative integer to 53 significant bits, to nearest with
    ties to even: the binary64 value nearest to [m]. *)
Definition rne_bits (m : Z) : Z :=
  let s := Z.max 0 (Z.log2 m + 1 - 53) in
  let q := Z.shiftr m s in
  let r := (m - Z.shiftl q s)%Z in
  let half := Z.shiftl 1 (s - 1) in
  let up := (0 <? s)%Z && ((half <? r)%Z || ((r =? half)%Z && Z.odd q)) in
  Z.shiftl (if up then q + 1 else q)%Z s.

(** The reference rounding: the multiple of [u] nearest to [m], the even
    multiple of [u] on a tie, computed by division.  Rounding a
    non-negative integer to a binary64 value takes [u = 2^s] with [s] the
    number of bits of [m] beyond 53. *)
Definition round_half_even (m u : Z) : Z :=
  let q := (m / u)%Z in
  let r := (m mod u)%Z in
  if (2 * r <? u)%Z then (q * u)%Z
  else if (u <? 2 * r)%Z then ((q + 1) * u)%Z
  else ((if Z.even q then q else q + 1) * u)%Z.

Definition rne_ref (m : Z) : Z := round_half_even m (2 ^ Z.max 0 (Z.log2 m + 1 - 53)).

(** [floor(random() * n)]: the float product is [rne_bits (k * n) * 2**-53]. *)
Definition choose_index (n : nat) (w1 w2 : Z) : nat :=
  Z.to_nat (Z.shiftr (rne_bits (random_bits w1 w2 * Z.of_nat n)%Z) 53).

(** [random.choices(pop, k=k)] reading two words per draw from position
    [pos] of the stream; [population[i]] raises [IndexError] when [i] is
    out of range. *)
Fixpoint choices (pop : list ascii) (k : nat) (words : nat -> Z) (pos : nat)
  : PyExn + list ascii :=
  match k with
  | 0 => inr []
  | S k' =>
      match pop !! choose_index (List.length pop) (words pos) (words (S pos)) with
      | None => inl (IndexError "list index out of range")
      | Some c =>
          match choices pop k' words (S (S pos)) with
          | inl e => inl e
          | inr cs => inr (c :: cs)
          end
      end
  end.

(** The nonce: eight draws, joined, upper-cased. *)
Definition make_nonce (words : nat -> Z) (pos : nat) : PyExn + string :=
  match choices population 8 words pos with
  | inl e => inl e
  | inr cs => inr (py_upper (string_of_list_ascii cs))
  end.

(** The characters a nonce can hold: [[A-Z0-9]]. *)
Definition upper_alnum : list ascii := list_ascii_of_string (ascii_uppercase ++ digits).

(** A random stream of 32-bit words, as the Mersenne Twister produces. *)
Definition words_32 (words : nat -> Z) : Prop := forall i, (0 <= words i < 2 ^ 32)%Z.

(** How many characters of the population [upper] maps to [c]. *)
Definition preimages (c : ascii) : nat :=
  List.length (filter (fun d => Ascii.eqb (ascii_upper d) c) population).

(** ** Bounds of the draw *)

Lemma random_bits_range (w1 w2 : Z) :
  (0 <= w1 < 2 ^ 32)%Z -> (0 <= w2 < 2 ^ 32)%Z ->
  (0 <= random_bits w1 w2 < 2 ^ 53)%Z.
Proof.
  intros H1 H2. unfold random_bits.
  rewrite !Z.shiftr_div_pow2 by lia.
  assert (0 <= w1 / 2 ^ 5 < 2 ^ 27)%Z by (split; [apply Z.div_pos | apply Z.div_lt_upper_bound]; lia).
  assert (0 <= w2 / 2 ^ 6 < 2 ^ 26)%Z by (split; [apply Z.div_pos | apply Z.div_lt_upper_bound]; lia).
  lia.
Qed.

(** Rounding to 53 bits moves [m] up by at most half a unit in the last
    place, which is at most [m / 2**53]. *)
Lemma rne_bits_range (m : Z) :
  (0 <= m)%Z -> (0 <= rne_bits m <= m + m / 2 ^ 53)%Z.
Proof.
  intros Hm. unfold rne_bits.
  set (s := Z.max 0 (Z.log2 m + 1 - 53)).
  assert (Hs : (0 <= s)%Z) by lia.
  rewrite Z.shiftr_div_pow2 by lia.
  set (q := (m / 2 ^ s)%Z).
  assert (Hp : (0 < 2 ^ s)%Z) by (apply Z.pow_pos_nonneg; lia).
  assert (Hq : (0 <= q)%Z) by (apply Z.div_pos; lia).
  pose proof (Z.div_mod m (2 ^ s) ltac:(lia)) as Hdm. fold q in Hdm.
  pose proof (Z.mod_pos_bound m (2 ^ s) Hp) as Hr.
  assert (Hd : (0 <= m / 2 ^ 53)%Z) by (apply Z.div_pos; lia).
  assert (Hlog : (0 < s -> s = Z.log2 m + 1 - 53)%Z) by lia.
  assert (Hhalf : (0 < s -> 2 ^ (s - 1) <= m / 2 ^ 53)%Z).
  { intros Hpos. apply Z.div_le_lower_bound; [lia|].
    assert (Hl : (2 ^ Z.log2 m <= m)%Z).
    { apply Z.log2_spec. destruct (Z.eq_dec m 0) as [->|]; [cbn in Hlog; lia | lia]. }
    enough (Heq : (2 ^ 53 * 2 ^ (s - 1) = 2 ^ Z.log2 m)%Z) by lia.
    rewrite <- Z.pow_add_r by lia. f_equal. lia. }
  match goal with |- context [if ?b then _ else _] => destruct b eqn:Hup end;
    rewrite Z.shiftl_mul_pow2 by lia; [|nia].
  apply andb_true_iff in Hup as [Hpos Hup]. apply Z.ltb_lt in Hpos.
  rewrite !Z.shiftl_mul_pow2, Z.mul_1_l in Hup by lia.
  specialize (Hhalf Hpos).
  assert (H2 : (2 ^ s = 2 * 2 ^ (s - 1))%Z).
  { rewrite <- Z.pow_succ_r by lia. f_equal. lia. }
  assert (Hqp : (q * 2 ^ s = m - m mod 2 ^ s)%Z) by lia.
  rewrite Z.mul_add_distr_r, Z.mul_1_l, Hqp.
  rewrite Hqp in Hup.
  apply orb_true_iff in Hup as [Hup|Hup].
  - apply Z.ltb_lt in Hup. lia.
  - apply andb_true_iff in Hup as [Hup _]. apply Z.eqb_eq in Hup. lia.
Qed.

Lemma choose_index_bound (n : nat) (w1 w2 : Z) :
  (0 < n)%nat -> (0 <= w1 < 2 ^ 32)%Z -> (0 <= w2 < 2 ^ 32)%Z ->
  (choose_index n w1 w2 < n)%nat.
Proof.
  intros Hn H1 H2. unfold choose_index.
  pose proof (random_bits_range w1 w2 H1 H2) as Hk.
  set (k := random_bits w1 w2) in *.
  set (m := (k * Z.of_nat n)%Z).
  assert (Hm : (0 <= m <= (2 ^ 53 - 1) * Z.of_nat n)%Z) by (unfold m; nia).
  pose proof (rne_bits_range m ltac:(lia)) as Hr.
  assert (Hd : (m / 2 ^ 53 < Z.of_nat n)%Z) by (apply Z.div_lt_upper_bound; lia).
  rewrite Z.shiftr_div_pow2 by lia.
  assert (Hq : (rne_bits m / 2 ^ 53 < Z.of_nat n)%Z) by (apply Z.div_lt_upper_bound; lia).
  assert (Hq0 : (0 <= rne_bits m / 2 ^ 53)%Z) by (apply Z.div_pos; lia).
  lia.
Qed.

(** C25: for every population size [n > 0] and all 32-bit words, the index
    [floor(random() * n)] that [random.choices] computes, with the float
    product rounded to nearest, stays below [n]: the lookup
    [population[i]] never raises. *)
Theorem choose_index_lt (n : nat) (w1 w2 : Z) :
  (0 < n)%nat -> (0 <= w1 < 2 ^ 32)%Z -> (0 <= w2 < 2 ^ 32)%Z ->
  (choose_index n w1 w2 < n)%nat.
Proof. exact (choose_index_bound n w1 w2). Qed.

Lemma choose_index_witness :
  (0 < 62)%nat /\ (0 <= 4294967295 < 2 ^ 32)%Z /\ (0 <= 4294967295 < 2 ^ 32)%Z /\
  (choose_index 62 4294967295 4294967295 < 62)%nat.
Proof.
  split; [lia|]. split; [lia|]. split; [lia|].
  apply choose_index_lt; lia.
Defined.

(** The shift-and-compare rounding [rne_bits] computes the reference
    rounding [rne_ref]: for every non-negative integer, the nearest
    multiple of [2^s], ties to the even multiple. *)
Theorem rne_bits_equiv (m : Z) : (0 <= m)%Z -> rne_bits m = rne_ref m.
Proof.
  intros Hm. unfold rne_bits, rne_ref, round_half_even.
  set (s := Z.max 0 (Z.log2 m + 1 - 53)).
  assert (Hs : (0 <= s)%Z) by lia.
  assert (Hp : (0 < 2 ^ s)%Z) by (apply Z.pow_pos_nonneg; lia).
  pose proof (Z.mod_pos_bound m (2 ^ s) Hp) as Hb.
  destruct (Z.eq_dec s 0) as [H0|H0].
  - rewrite H0 in *. rewrite Z.pow_0_r, Z.shiftr_0_r, Z.shiftl_0_r, Z.mod_1_r, Z.div_1_r. change (2 * 0 <? 1)%Z with true. cbv iota. rewrite Z.mul_1_r. reflexivity.
  - assert (Hpos : (0 <? s)%Z = true) by (apply Z.ltb_lt; lia).
    rewrite Hpos, Z.shiftr_div_pow2, !Z.shiftl_mul_pow2, Z.mul_1_l by lia. cbn [andb].
    assert (Hr : (m - m / 2 ^ s * 2 ^ s = m mod 2 ^ s)%Z) by (rewrite Z.mod_eq by lia; lia).
    rewrite Hr.
    assert (H2 : (2 ^ s = 2 * 2 ^ (s - 1))%Z) by (rewrite <- Z.pow_succ_r by lia; f_equal; lia).
    set (h := (2 ^ (s - 1))%Z) in *. set (r := (m mod 2 ^ s)%Z) in *. set (q := (m / 2 ^ s)%Z).
    rewrite H2.
    destruct (Z.ltb_spec (2 * r) (2 * h)), (Z.ltb_spec (2 * h) (2 * r)),
      (Z.ltb_spec h r), (Z.eqb_spec r h); cbn; try lia.
    rewrite <- Z.negb_odd. by destruct (Z.odd q).
Qed.

(** At [2^53 + 1], halfway between two representable integers, both
    roundings pick the even neighbour [2^53]. *)
(** Rounding to 53 bits never goes below a multiple of [2**53] that [m]
    reaches: below [2**106] such a multiple is a binary64 value. *)
Lemma rne_bits_lower (m : Z) :
  (0 <= m < 2 ^ 106)%Z -> (2 ^ 53 * (m / 2 ^ 53) <= rne_bits m)%Z.
Proof.
  intros Hm. unfold rne_bits.
  set (s := Z.max 0 (Z.log2 m + 1 - 53)).
  assert (Hs : (0 <= s <= 53)%Z).
  { destruct (Z.eq_dec m 0) as [->|Hm0]; [cbn in s; unfold s; lia|].
    pose proof (Z.log2_lt_pow2 m 106 ltac:(lia)) as Hl. unfold s. lia. }
  rewrite Z.shiftr_div_pow2 by lia.
  set (q := (m / 2 ^ s)%Z).
  assert (Hp : (0 < 2 ^ s)%Z) by (apply Z.pow_pos_nonneg; lia).
  assert (Hq : (0 <= q)%Z) by (apply Z.div_pos; lia).
  assert (Hsplit : (2 ^ 53 = 2 ^ s * 2 ^ (53 - s))%Z) by (rewrite <- Z.pow_add_r by lia; f_equal; lia).
  assert (Hdiv : (m / 2 ^ 53 = q / 2 ^ (53 - s))%Z)
    by (unfold q; rewrite Hsplit, Z.div_div by (try apply Z.pow_pos_nonneg; lia); reflexivity).
  assert (Hle : (2 ^ 53 * (m / 2 ^ 53) <= q * 2 ^ s)%Z).
  { rewrite Hdiv, Hsplit, <- Z.mul_assoc, (Z.mul_comm (2 ^ s)).
    apply Z.mul_le_mono_nonneg_r; [lia|].
    apply Z.mul_div_le. apply Z.pow_pos_nonneg; lia. }
  match goal with |- context [if ?b then _ else _] => destruct b end;
    rewrite Z.shiftl_mul_pow2 by lia; nia.
Qed.

(** C27: for a population of fewer than [2**53] elements and 32-bit
    words, the index [floor(random() * n)] computed in binary64 is the
    exact [floor(k * n / 2**53)] of [random() = k * 2**-53], or one more
    when the product rounds up to the next multiple of [2**53]. *)
Theorem choose_index_floor (n : nat) (w1 w2 : Z) :
  (Z.of_nat n < 2 ^ 53)%Z -> (0 <= w1 < 2 ^ 32)%Z -> (0 <= w2 < 2 ^ 32)%Z ->
  let exact := Z.to_nat ((random_bits w1 w2 * Z.of_nat n) / 2 ^ 53) in
  choose_index n w1 w2 = exact \/ choose_index n w1 w2 = S exact.
Proof.
  intros Hn H1 H2 exact. unfold choose_index, exact.
  pose proof (random_bits_range w1 w2 H1 H2) as Hk.
  set (m := (random_bits w1 w2 * Z.of_nat n)%Z).
  assert (Hm : (0 <= m < 2 ^ 106)%Z) by (unfold m; split; [lia|]; change (2 ^ 106)%Z with (2 ^ 53 * 2 ^ 53)%Z; nia).
  pose proof (rne_bits_range m ltac:(lia)) as Hup.
  pose proof (rne_bits_lower m Hm) as Hlo.
  rewrite Z.shiftr_div_pow2 by lia.
  set (e := (m / 2 ^ 53)%Z).
  pose proof (Z.div_mod m (2 ^ 53) ltac:(lia)) as Hdm. fold e in Hdm.
  pose proof (Z.mod_pos_bound m (2 ^ 53) ltac:(lia)) as Hr.
  assert (He : (0 <= e < 2 ^ 53)%Z) by (unfold e; split; [apply Z.div_pos|apply Z.div_lt_upper_bound]; lia).
  assert (Hlo' : (e <= rne_bits m / 2 ^ 53)%Z) by (apply Z.div_le_lower_bound; lia).
  assert (Hhi : (rne_bits m / 2 ^ 53 <= e + 1)%Z).
  { apply Z.lt_succ_r, Z.div_lt_upper_bound; [lia|]. fold e in Hup. lia. }
  lia.
Qed.

(** The words behind [random() = 1162219258676257 * 2**-53]: there the
    product with 62 rounds up to [8 * 2**53] although [k * 62] lies just
    below it, and [random.choices] picks index 8 where the exact floor
    is 7. *)
Lemma choose_index_floor_witness :
  (Z.of_nat 62 < 2 ^ 53)%Z /\ (0 <= 554189312 < 2 ^ 32)%Z /\ (0 <= 2216757312 < 2 ^ 32)%Z /\
  (choose_index 62 554189312 2216757312 =
     Z.to_nat ((random_bits 554189312 2216757312 * Z.of_nat 62) / 2 ^ 53) \/
   choose_index 62 554189312 2216757312 =
     S (Z.to_nat ((random_bits 554189312 2216757312 * Z.of_nat 62) / 2 ^ 53))) /\
  choose_index 62 554189312 2216757312 = 8%nat /\
  Z.to_nat ((random_bits 554189312 2216757312 * Z.of_nat 62) / 2 ^ 53) = 7%nat.
Proof.
  split; [lia|]. split; [lia|]. split; [lia|].
  split; [apply (choose_index_floor 62 554189312 2216757312); lia|].
  split; vm_compute; reflexivity.
Defined.

Lemma choices_ok (pop : list ascii) (k : nat) (words : nat -> Z) (pos : nat) :
  pop <> [] -> words_32 words ->
  exists cs, choices pop k words pos = inr cs /\ List.length cs = k /\ Forall (fun c => c ∈ pop) cs.
Proof.
  intros Hpop Hw. revert pos. induction k as [|k IH]; intros pos; cbn [choices].
  - by exists [].
  - assert (Hlt : (choose_index (List.length pop) (words pos) (words (S pos)) < List.length pop)%nat).
    { apply choose_index_bound; [destruct pop; simpl; [done|lia] | apply Hw | apply Hw]. }
    destruct (lookup_lt_is_Some_2 _ _ Hlt) as [c Hc]. rewrite Hc.
    destruct (IH (S (S pos))) as (cs & -> & Hlen & Hall).
    exists (c :: cs). split; [done|]. split; [cbn [List.length]; lia|].
    constructor; [|done]. by eapply list_elem_of_lookup_2.
Qed.

Lemma list_ascii_py_upper (cs : list ascii) :
  list_ascii_of_string (py_upper (string_of_list_ascii cs)) = map ascii_upper cs.
Proof. induction cs as [|c cs IH]; simpl; [done|]. by rewrite IH. Qed.

Lemma population_upper_alnum : Forall (fun c => ascii_upper c ∈ upper_alnum) population.
Proof. decide_by_compute. Qed.

Lemma make_nonce_spec (words : nat -> Z) (pos : nat) :
  words_32 words ->
  exists nonce, make_nonce words pos = inr nonce /\
    String.length nonce = 8%nat /\
    Forall (fun c => c ∈ upper_alnum) (list_ascii_of_string nonce).
Proof.
  intros Hw. unfold make_nonce.
  destruct (choices_ok population 8 words pos) as (cs & -> & Hlen & Hall); [done|done|].
  eexists. split; [reflexivity|]. split.
  - rewrite length_py_upper, <- Hlen. clear. induction cs; simpl; auto.
  - rewrite list_ascii_py_upper, Forall_map.
    eapply Forall_impl; [exact Hall|]. intros c Hc.
    exact (proj1 (Forall_forall _ _) population_upper_alnum c Hc).
Qed.

(** C26: the nonce is drawn without error and matches [[A-Z0-9]{8}]: eight
    characters, each an upper-case ASCII letter or a digit. *)
Theorem make_nonce_shape (words : nat -> Z) (pos : nat) :
  words_32 words ->
  exists nonce, make_nonce words pos = inr nonce /\
    String.length nonce = 8%nat /\
    Forall (fun c => c ∈ upper_alnum) (list_ascii_of_string nonce).
Proof. exact (make_nonce_spec words pos). Qed.

Lemma make_nonce_shape_witness :
  words_32 (fun i => Z.of_nat (i mod 7)) /\
  exists nonce, make_nonce (fun i => Z.of_nat (i mod 7)) 0 = inr nonce /\
    String.length nonce = 8%nat /\
    Forall (fun c => c ∈ upper_alnum) (list_ascii_of_string nonce).
Proof.
  assert (Hw : words_32 (fun i => Z.of_nat (i mod 7))).
  { intros i. pose proof (Nat.mod_upper_bound i 7). lia. }
  split; [exact Hw | apply make_nonce_shape; exact Hw].
Defined.

(** After [.upper()] each letter of the nonce alphabet has two
    preimages among the 62 population characters and each digit one: the
    nonce is drawn from 36 symbols, a letter twice as likely as a digit. *)
Theorem nonce_char_weights :
  Forall (fun c => preimages c = if bool_decide (c ∈ list_ascii_of_string digits) then 1%nat else 2%nat)
    upper_alnum /\ List.length upper_alnum = 36%nat.
Proof. decide_by_compute. Qed.
