(* ===== verification/LogsApi.v ===== *)
(** * The CloudWatch Logs API as the handler sees it

    The data the boto3 client [cwlogs] exchanges with the service (line 8
    and the four calls at lines 12, 25, 33 and 48-59), the call trace
    entries a run of the handler leaves, and the client interface
    [LogsClient]: one operation per API call, each taking the service
    state and returning its response or the [ClientError] boto3 raises,
    with the state after the call.  [describe_log_groups] reads the state
    and changes nothing.  [LogsContract] states what the service promises
    a caller; [Refinement] proves the handler against it and
    [CloudWatch] proves that its model keeps it. *)

From stdpp Require Import base list strings.
From Stdlib Require Import ZArith.
From S2P Require Import Prelude PyVal.

(** One element of the [logEvents] argument of [put_log_events]
    (line 97: [{"timestamp": epoch_time, "message": str(message)}]). *)
Record LogEvent := {
  timestamp : Z;
  message : string;
}.

(** The [rejectedLogEventsInfo] member of a [put_log_events] response. *)
Record RejectedLogEventsInfo := {
  tooNewLogEventStartIndex : option Z;
  tooOldLogEventEndIndex : option Z;
  expiredLogEventEndIndex : option Z;
}.

(** [response["ResponseMetadata"]] as botocore builds it: the request
    id, the HTTP status (line 40 reads it), the response headers, the
    number of retries the client made. *)
Record ResponseMetadata := {
  RequestId : string;
  HTTPStatusCode : Z;
  HTTPHeaders : list (string * string);
  RetryAttempts : Z;
}.

(** The members of a [put_log_events] response: an absent member is
    [None]; [ResponseMetadata] is always there. *)
Record PutLogEventsResponse := {
  nextSequenceToken : option string;
  rejectedLogEventsInfo : option RejectedLogEventsInfo;
  put_ResponseMetadata : ResponseMetadata;
}.

(** One element of [describe_log_groups()["logGroups"]]. *)
Record LogGroupInfo := {
  logGroupName : string;
}.

(** ** The responses as Python dicts

    The dict boto3 returns, which lines 21, 38 and 61 print with [str]:
    the members of the response body in the order of the API's shape,
    absent members left out, then [ResponseMetadata]. *)

Definition metadata_pyval (m : ResponseMetadata) : pyval :=
  PDict [("RequestId", PStr (RequestId m)); ("HTTPStatusCode", PInt (HTTPStatusCode m));
         ("HTTPHeaders", PDict (map (fun kv => (kv.1, PStr kv.2)) (HTTPHeaders m)));
         ("RetryAttempts", PInt (RetryAttempts m))].

(** [create_log_group] and [create_log_stream] have an empty body. *)
Definition meta_response_pyval (m : ResponseMetadata) : pyval :=
  PDict [("ResponseMetadata", metadata_pyval m)].

Definition opt_member (k : string) (v : option Z) : list (string * pyval) :=
  match v with Some i => [(k, PInt i)] | None => [] end.

Definition rejected_pyval (r : RejectedLogEventsInfo) : pyval :=
  PDict (opt_member "tooNewLogEventStartIndex" (tooNewLogEventStartIndex r) ++
         opt_member "tooOldLogEventEndIndex" (tooOldLogEventEndIndex r) ++
         opt_member "expiredLogEventEndIndex" (expiredLogEventEndIndex r)).

Definition put_response_pyval (r : PutLogEventsResponse) : pyval :=
  PDict ((match nextSequenceToken r with Some t => [("nextSequenceToken", PStr t)] | None => [] end) ++
         (match rejectedLogEventsInfo r with Some i => [("rejectedLogEventsInfo", rejected_pyval i)] | None => [] end) ++
         [("ResponseMetadata", metadata_pyval (put_ResponseMetadata r))]).

(** A request to the service, with the arguments the code passes. *)
Inductive ApiCall :=
| DescribeLogGroups
| CreateLogGroup (group : string) (tags : list (string * string))
| CreateLogStream (group stream : string)
| PutLogEvents (group stream : string) (events : list LogEvent)
    (sequenceToken : option string).

(** The answer the client returned to a request. *)
Inductive ApiResult :=
| RGroups (groups : list LogGroupInfo)
| RMeta (meta : ResponseMetadata)
| RPut (resp : PutLogEventsResponse)
| RErr (e : PyExn).

(** Each request is answered by a response of its own kind, or by a
    raised error: [describe_log_groups] by its list of groups, the two
    creations by response metadata, [put_log_events] by its response. *)
Definition result_fits (e : ApiCall * ApiResult) : bool :=
  match e with
  | (_, RErr _) => true
  | (DescribeLogGroups, RGroups _) => true
  | (CreateLogGroup _ _, RMeta _) => true
  | (CreateLogStream _ _, RMeta _) => true
  | (PutLogEvents _ _ _ _, RPut _) => true
  | _ => false
  end.

(** The client interface: what [cwlogs] offers the handler.  A raised
    [ClientError] is [inl]. *)
Class LogsClient (S : Type) := {
  describe_log_groups : S -> PyExn + list LogGroupInfo;
  create_log_group : string -> list (string * string) -> S -> (PyExn + ResponseMetadata) * S;
  create_log_stream : string -> string -> S -> (PyExn + ResponseMetadata) * S;
  put_log_events : string -> string -> list LogEvent -> option string -> S ->
                   (PyExn + PutLogEventsResponse) * S;
}.

(** ** What the service promises the handler

    The contract the handler relies on, stated against observations of
    the service state: whether a group exists, the records of a stream
    with the token it expects next, which records the service accepts.
    A valid, absent group can be created and has no stream; a valid,
    fresh stream name in an existing group can be created, answers 200
    and starts empty, expecting no token; a single record the service
    accepts, sent with the token the stream expects, is appended and a
    fresh non-empty token comes back.  [svc_inv] is the service's
    invariant: every law keeps it.  Whatever the answer, creating a
    group changes no stream, and creating or appending to a stream
    changes no other stream. *)
Class LogsContract (S : Type) `{!LogsClient S} := {
  svc_inv : S -> Prop;
  group_exists : S -> string -> bool;
  stream_state : S -> string -> string -> option (list LogEvent * option string);
  accepts : S -> LogEvent -> bool;
  valid_group : string -> bool;
  valid_stream : string -> bool;
  create_log_group_spec g tags s :
    svc_inv s -> valid_group g = true -> group_exists s g = false ->
    exists meta s', create_log_group g tags s = (inr meta, s') /\ svc_inv s' /\
      group_exists s' g = true /\ (forall n, stream_state s' g n = None) /\ accepts s' = accepts s;
  create_log_stream_spec g n s :
    svc_inv s -> valid_stream n = true -> group_exists s g = true -> stream_state s g n = None ->
    exists meta s', create_log_stream g n s = (inr meta, s') /\ HTTPStatusCode meta = 200%Z /\ svc_inv s' /\
      stream_state s' g n = Some ([], None) /\ accepts s' = accepts s;
  put_log_events_spec g n ev evs tok s :
    svc_inv s -> valid_stream n = true -> stream_state s g n = Some (evs, tok) -> accepts s ev = true ->
    exists t meta s', put_log_events g n [ev] tok s =
        (inr {| nextSequenceToken := Some t; rejectedLogEventsInfo := None; put_ResponseMetadata := meta |}, s') /\
      t <> EmptyString /\ svc_inv s' /\ stream_state s' g n = Some (evs ++ [ev], Some t) /\
      accepts s' = accepts s;
  create_log_group_frame g tags s g' n' :
    stream_state (create_log_group g tags s).2 g' n' = stream_state s g' n';
  create_log_stream_frame g n s g' n' :
    (g', n') <> (g, n) -> stream_state (create_log_stream g n s).2 g' n' = stream_state s g' n';
  put_log_events_frame g n evs tok s g' n' :
    (g', n') <> (g, n) -> stream_state (put_log_events g n evs tok s).2 g' n' = stream_state s g' n';
}.
