(* ===== verification/CloudWatch.v ===== *)
(** * A model of the CloudWatch Logs service behind [cwlogs]

    The service is not code of the repository: it is modelled from the
    spec (sections 3, 5 and 6) and the API's documented behaviour, as far
    as the handler exercises it.  Its state holds the log groups sorted by
    name, each with its tags and streams; a stream holds its records and
    the sequence token it expects next.  [describe_log_groups] returns the
    first page (50 groups, in name order); names are validated the way
    botocore ([ParamValidationError], client side) and the service
    ([InvalidParameterException]) do; [put_log_events] checks the token,
    rejects records dated more than two hours ahead or fourteen days back
    of the service clock, and issues a fresh token on every accepted
    call.  [cw_client] makes it a [LogsClient]. *)

From stdpp Require Import base list strings pretty.
From Stdlib Require Import Ascii String ZArith Lia Sorted.
From S2P Require Import Prelude PyStr PyVal LogsApi.

Local Open Scope string_scope.

Module CloudWatch.

Record LogStream := {
  ls_name : string;
  ls_events : list LogEvent;
  ls_token : option string;
}.

Record LogGroup := {
  lg_name : string;
  lg_tags : list (string * string);
  lg_streams : list LogStream;
}.

Record State := {
  cw_groups : list LogGroup;
  cw_now : Z;
  cw_issued : nat;
}.

Definition page_size : nat := 50.
Definition max_future_ms : Z := 7200000.
Definition max_age_ms : Z := 1209600000.

(** ** Names *)

Definition name_lt (a b : string) : Prop := String.compare a b = Lt.

Definition group_name_char (c : ascii) : bool :=
  let n := nat_of_ascii c in
  ((48 <=? n)%nat && (n <=? 57)%nat) || ((65 <=? n)%nat && (n <=? 90)%nat) ||
  ((97 <=? n)%nat && (n <=? 122)%nat) ||
  bool_decide (n ∈ [95; 45; 47; 46; 35])%nat.

(** [[\.\-_/#A-Za-z0-9]+], at most 512 characters. *)
Definition valid_group_name (g : string) : bool :=
  (1 <=? String.length g)%nat && (String.length g <=? 512)%nat &&
  forallb group_name_char (list_ascii_of_string g).

(** At most 512 characters, no [:] and no [*]. *)
Definition valid_stream_name (n : string) : bool :=
  (String.length n <=? 512)%nat &&
  negb (py_contains ":" n) && negb (py_contains "*" n).

(** ** Lookup and update *)

(** Lists of groups and of streams are searched and updated by name:
    the first element with the name is the one found or changed. *)
Fixpoint find_by {A} (key : A -> string) (k : string) (xs : list A) : option A :=
  match xs with
  | [] => None
  | x :: xs' => if String.eqb (key x) k then Some x else find_by key k xs'
  end.

Fixpoint update_by {A} (key : A -> string) (k : string) (f : A -> A) (xs : list A) : list A :=
  match xs with
  | [] => []
  | x :: xs' => if String.eqb (key x) k then f x :: xs' else x :: update_by key k f xs'
  end.

Definition find_group : string -> list LogGroup -> option LogGroup := find_by lg_name.
Definition update_group : string -> (LogGroup -> LogGroup) -> list LogGroup -> list LogGroup :=
  update_by lg_name.
Definition find_stream : string -> list LogStream -> option LogStream := find_by ls_name.
Definition update_stream : string -> (LogStream -> LogStream) -> list LogStream -> list LogStream :=
  update_by ls_name.

(** Groups are kept in name order: a new group goes before the first
    group with a greater name. *)
Fixpoint insert_group (x : LogGroup) (gs : list LogGroup) : list LogGroup :=
  match gs with
  | [] => [x]
  | y :: gs' =>
      match String.compare (lg_name x) (lg_name y) with
      | Lt => x :: y :: gs'
      | _ => y :: insert_group x gs'
      end
  end.

Definition with_groups (gs : list LogGroup) (s : State) : State :=
  {| cw_groups := gs; cw_now := cw_now s; cw_issued := cw_issued s |}.

Definition add_stream (n : string) (x : LogGroup) : LogGroup :=
  {| lg_name := lg_name x; lg_tags := lg_tags x;
     lg_streams := lg_streams x ++ [{| ls_name := n; ls_events := []; ls_token := None |}] |}.

(** The metadata of a successful call.  The service gives each request
    an id of its own; the model, which no property distinguishes requests
    by, uses one fixed id. *)
Definition request_id : string := "6f1b9c1e-0000-4000-8000-000000000000".

Definition ok_meta : ResponseMetadata :=
  {| RequestId := request_id; HTTPStatusCode := 200;
     HTTPHeaders := [("x-amzn-requestid", request_id); ("content-type", "application/x-amz-json-1.1")];
     RetryAttempts := 0 |}.

Definition client_error {A} (code : string) (s : State) : (PyExn + A) * State :=
  (inl (ClientError code), s).

(** ** The operations *)

Definition describe_log_groups (s : State) : PyExn + list LogGroupInfo :=
  inr (firstn page_size (map (fun x => {| logGroupName := lg_name x |}) (cw_groups s))).

Definition create_log_group (g : string) (tags : list (string * string)) (s : State)
  : (PyExn + ResponseMetadata) * State :=
  if String.eqb g "" then (inl (ParamValidationError "logGroupName"), s)
  else if negb (valid_group_name g) then client_error "InvalidParameterException" s
  else match find_group g (cw_groups s) with
  | Some _ => client_error "ResourceAlreadyExistsException" s
  | None =>
      (inr ok_meta,
       with_groups (insert_group {| lg_name := g; lg_tags := tags; lg_streams := [] |}
                      (cw_groups s)) s)
  end.

Definition create_log_stream (g n : string) (s : State) : (PyExn + ResponseMetadata) * State :=
  if String.eqb g "" || String.eqb n "" then (inl (ParamValidationError "logStreamName"), s)
  else if negb (valid_stream_name n) then client_error "InvalidParameterException" s
  else match find_group g (cw_groups s) with
  | None => client_error "ResourceNotFoundException" s
  | Some x =>
      match find_stream n (lg_streams x) with
      | Some _ => client_error "ResourceAlreadyExistsException" s
      | None => (inr ok_meta, with_groups (update_group g (add_stream n) (cw_groups s)) s)
      end
  end.

(** Records of one call must be in chronological order. *)
Fixpoint chronological (evs : list LogEvent) : bool :=
  match evs with
  | e1 :: (e2 :: _) as rest => (timestamp e1 <=? timestamp e2)%Z && chronological rest
  | _ => true
  end.

Definition too_old (now : Z) (e : LogEvent) : bool := (timestamp e <? now - max_age_ms)%Z.
Definition too_new (now : Z) (e : LogEvent) : bool := (now + max_future_ms <? timestamp e)%Z.
Definition in_window (now : Z) (e : LogEvent) : bool := negb (too_old now e || too_new now e).

(** The index of the first record satisfying [p]. *)
Fixpoint first_index (p : LogEvent -> bool) (evs : list LogEvent) : nat :=
  match evs with
  | [] => 0
  | e :: evs' => if p e then 0 else S (first_index p evs')
  end.

(** The [rejectedLogEventsInfo] of a call, absent when every record is
    within the window. *)
Definition rejected_info (now : Z) (evs : list LogEvent) : option RejectedLogEventsInfo :=
  let old := existsb (too_old now) evs in
  let new := existsb (too_new now) evs in
  if old || new then
    Some {| tooNewLogEventStartIndex :=
              if new then Some (Z.of_nat (first_index (too_new now) evs)) else None;
            tooOldLogEventEndIndex :=
              if old then Some (Z.of_nat (List.length (filter (too_old now) evs))) else None;
            expiredLogEventEndIndex := None |}
  else None.

Definition with_streams (ss : list LogStream) (x : LogGroup) : LogGroup :=
  {| lg_name := lg_name x; lg_tags := lg_tags x; lg_streams := ss |}.

(** Append the accepted records and expect the new token. *)
Definition append_records (kept : list LogEvent) (t : string) (st : LogStream) : LogStream :=
  {| ls_name := ls_name st; ls_events := ls_events st ++ kept; ls_token := Some t |}.

Definition put_log_events (g n : string) (evs : list LogEvent) (tok : option string)
    (s : State) : (PyExn + PutLogEventsResponse) * State :=
  if String.eqb g "" || String.eqb n "" then (inl (ParamValidationError "logStreamName"), s)
  else if bool_decide (evs = []) then (inl (ParamValidationError "logEvents"), s)
  else match find_group g (cw_groups s) with
  | None => client_error "ResourceNotFoundException" s
  | Some x =>
      match find_stream n (lg_streams x) with
      | None => client_error "ResourceNotFoundException" s
      | Some st =>
          if negb (chronological evs) then client_error "InvalidParameterException" s
          else if negb (bool_decide (tok = ls_token st)) then
            client_error "InvalidSequenceTokenException" s
          else
            let t := pretty (S (cw_issued s)) in
            let kept := filter (in_window (cw_now s)) evs in
            (inr {| nextSequenceToken := Some t;
                    rejectedLogEventsInfo := rejected_info (cw_now s) evs;
                    put_ResponseMetadata := ok_meta |},
             {| cw_groups := update_group g
                               (fun x => with_streams
                                           (update_stream n (append_records kept t) (lg_streams x)) x)
                               (cw_groups s);
                cw_now := cw_now s;
                cw_issued := S (cw_issued s) |})
      end
  end.



#[export] Instance cw_client : LogsClient State := {|
  LogsApi.describe_log_groups := describe_log_groups;
  LogsApi.create_log_group := create_log_group;
  LogsApi.create_log_stream := create_log_stream;
  LogsApi.put_log_events := put_log_events;
|}.

(** The stream [n] of group [g]. *)
Definition lookup_stream (s : State) (g n : string) : option LogStream :=
  x ← find_group g (cw_groups s); find_stream n (lg_streams x).

(** ** The invariant of the service state *)

(** A stream expects either no token or one the service issued. *)
Definition token_ok (issued : nat) (st : LogStream) : Prop :=
  match ls_token st with
  | None => True
  | Some t => exists k, t = pretty (S k) /\ (k < issued)%nat
  end.

Definition group_ok (issued : nat) (x : LogGroup) : Prop :=
  valid_group_name (lg_name x) = true /\
  NoDup (map ls_name (lg_streams x)) /\
  Forall (token_ok issued) (lg_streams x).

(** Groups sorted by name without duplicates, each valid. *)
Definition wf (s : State) : Prop :=
  Sorted name_lt (map lg_name (cw_groups s)) /\
  NoDup (map lg_name (cw_groups s)) /\
  Forall (group_ok (cw_issued s)) (cw_groups s).

(** ** Observations for the contract [LogsContract] *)

Definition group_exists (s : State) (g : string) : bool :=
  match find_group g (cw_groups s) with Some _ => true | None => false end.

(** The records of stream [n] of group [g] and the token it expects. *)
Definition stream_state (s : State) (g n : string) : option (list LogEvent * option string) :=
  (fun st => (ls_events st, ls_token st)) <$> lookup_stream s g n.

Definition accepts (s : State) (ev : LogEvent) : bool := in_window (cw_now s) ev.

(** A stream name [create_log_stream] takes: non-empty and valid. *)
Definition valid_stream (n : string) : bool := negb (String.eqb n "") && valid_stream_name n.

(** ** Keyed lists *)

Section Keyed.
Context {A : Type} (key : A -> string).

Lemma find_by_Some k (xs : list A) x :
  find_by key k xs = Some x -> x ∈ xs /\ key x = k.
Proof.
  induction xs as [|y xs IH]; cbn; [done|].
  destruct (String.eqb_spec (key y) k) as [<-|]; intros H.
  - injection H as <-. split; [left|done].
  - destruct (IH H) as [? ?]. split; [by right|done].
Qed.

Lemma find_by_None k (xs : list A) :
  find_by key k xs = None <-> k ∉ map key xs.
Proof.
  induction xs as [|y xs IH]; cbn; [split; [intros _; apply not_elem_of_nil|done]|].
  destruct (String.eqb_spec (key y) k) as [<-|Hne].
  - split; [done|]. intros H. exfalso. apply H. left.
  - rewrite IH, elem_of_cons. naive_solver.
Qed.

Lemma find_by_app k (xs ys : list A) :
  find_by key k (xs ++ ys) =
  match find_by key k xs with Some z => Some z | None => find_by key k ys end.
Proof.
  induction xs as [|y xs IH]; cbn; [done|].
  by destruct (String.eqb (key y) k).
Qed.

Context (f : A -> A) (Hf : forall x, key (f x) = key x).

Lemma map_key_update_by k (xs : list A) : map key (update_by key k f xs) = map key xs.
Proof.
  induction xs as [|y xs IH]; cbn; [done|].
  destruct (String.eqb (key y) k); cbn; [by rewrite Hf | by rewrite IH].
Qed.

Lemma find_by_update_eq k (xs : list A) :
  find_by key k (update_by key k f xs) = f <$> find_by key k xs.
Proof.
  induction xs as [|y xs IH]; cbn; [done|].
  destruct (String.eqb (key y) k) eqn:E; cbn; [by rewrite Hf, E | by rewrite E].
Qed.

Lemma find_by_update_ne k k' (xs : list A) :
  k <> k' -> find_by key k' (update_by key k f xs) = find_by key k' xs.
Proof.
  intros Hne. induction xs as [|y xs IH]; cbn; [done|].
  destruct (String.eqb_spec (key y) k) as [Hk|]; cbn; [|by rewrite IH].
  rewrite Hf. destruct (String.eqb_spec (key y) k'); [congruence|done].
Qed.

Lemma Forall_update_by (P Q : A -> Prop) k (xs : list A) :
  Forall P xs -> (forall x, P x -> Q x) ->
  (forall x, find_by key k xs = Some x -> Q (f x)) ->
  Forall Q (update_by key k f xs).
Proof.
  intros Hall HPQ. induction Hall as [|y xs Hy Hxs IH]; cbn; [constructor|].
  destruct (String.eqb (key y) k); intros Hupd; constructor; auto.
  apply Forall_impl with P; auto.
Qed.
End Keyed.

Lemma insert_group_perm (x : LogGroup) gs : insert_group x gs ≡ₚ x :: gs.
Proof.
  induction gs as [|y gs IH]; cbn; [done|].
  destruct (String.compare (lg_name x) (lg_name y)); [|done|]; rewrite IH; apply Permutation_swap.
Qed.

Lemma compare_gt_lt (a b : string) :
  String.compare a b <> Lt -> a <> b -> String.compare b a = Lt.
Proof.
  intros Hlt Hne. rewrite String.compare_antisym.
  destruct (String.compare a b) eqn:E; cbn; [|done|done].
  apply String.compare_eq_iff in E. congruence.
Qed.

Lemma insert_group_sorted (x : LogGroup) gs :
  Sorted name_lt (map lg_name gs) -> lg_name x ∉ map lg_name gs ->
  Sorted name_lt (map lg_name (insert_group x gs)).
Proof.
  induction gs as [|y gs IH]; intros Hs Hnot; cbn in *; [repeat constructor|].
  apply Sorted_inv in Hs as [Hs Hhd]. rewrite elem_of_cons in Hnot.
  destruct (String.compare (lg_name x) (lg_name y)) eqn:E; cbn.
  - exfalso. apply Hnot. left. by apply String.compare_eq_iff.
  - constructor; [by constructor|]. by constructor.
  - constructor; [apply IH; [done|naive_solver]|].
    assert (Hyx : name_lt (lg_name y) (lg_name x)).
    { apply compare_gt_lt; [by rewrite E|naive_solver]. }
    destruct gs as [|z gs]; cbn; [by constructor|].
    destruct (String.compare (lg_name x) (lg_name z)); cbn; constructor;
      [by inversion Hhd|done|by inversion Hhd].
Qed.

(** Inserting a group whose name is absent: only its own name finds it. *)
Lemma find_group_insert (x : LogGroup) gs g' :
  find_group (lg_name x) gs = None ->
  find_group g' (insert_group x gs) =
    if String.eqb (lg_name x) g' then Some x else find_group g' gs.
Proof.
  unfold find_group. induction gs as [|y gs IH]; intros Hx; cbn in *; [done|].
  destruct (String.eqb_spec (lg_name y) (lg_name x)) as [Hyx|Hyx]; [done|].
  destruct (String.compare (lg_name x) (lg_name y)); cbn;
    [| by destruct (String.eqb (lg_name x) g') |];
    destruct (String.eqb_spec (lg_name y) g') as [<-|];
    rewrite ?IH by done; try done;
    destruct (String.eqb_spec (lg_name x) (lg_name y)); congruence.
Qed.

(** ** Tokens *)

Lemma pretty_N_go_nonempty (x : N) (s : string) : s <> "" -> pretty_N_go x s <> "".
Proof.
  revert s. induction (N.lt_wf_0 x) as [x _ IH]; intros s Hs.
  destruct (decide (x = 0)%N) as [->|Hx]; [by rewrite pretty_N_go_0|].
  rewrite pretty_N_go_step by lia. apply IH; [apply N.div_lt; lia|done].
Qed.

(** Every token the service issues is a non-empty string: truthy. *)
Lemma pretty_succ_nonempty (k : nat) : pretty (S k) <> "".
Proof.
  change (pretty (N.of_nat (S k)) <> "").
  unfold pretty, pretty_N. destruct (decide (N.of_nat (S k) = 0%N)); [done|].
  rewrite pretty_N_go_step by lia. by apply pretty_N_go_nonempty.
Qed.


(** ** Every operation keeps the invariant *)

Lemma token_ok_mono (i j : nat) (st : LogStream) : (i <= j)%nat -> token_ok i st -> token_ok j st.
Proof. unfold token_ok. destruct (ls_token st); [|done]. intros ? (k & -> & ?). exists k. split; [done|lia]. Qed.

Lemma group_ok_mono (i j : nat) (x : LogGroup) : (i <= j)%nat -> group_ok i x -> group_ok j x.
Proof.
  intros Hij (Hv & Hnd & Hall). split; [done|]. split; [done|].
  eapply Forall_impl; [exact Hall|]. intros st. by apply token_ok_mono.
Qed.

Lemma find_group_ok (s : State) g x :
  wf s -> find_group g (cw_groups s) = Some x -> group_ok (cw_issued s) x /\ lg_name x = g.
Proof.
  intros (_ & _ & Hall) Hf. apply find_by_Some in Hf as [Hin Hk].
  split; [|done]. by eapply Forall_forall in Hall; [|exact Hin].
Qed.

Lemma create_log_group_wf (g : string) tags (s : State) :
  wf s -> wf (create_log_group g tags s).2.
Proof.
  intros Hwf. unfold create_log_group, client_error.
  destruct (String.eqb g ""); [done|]. destruct (valid_group_name g) eqn:Hv; [|done]. cbn.
  destruct (find_group g (cw_groups s)) eqn:Hf; [done|]. unfold with_groups; cbn.
  destruct Hwf as (Hs & Hnd & Hall). apply find_by_None in Hf.
  pose proof (Permutation_map lg_name (insert_group_perm
    {| lg_name := g; lg_tags := tags; lg_streams := [] |} (cw_groups s))) as Hp.
  split; [by apply insert_group_sorted|]. split.
  - rewrite Hp. cbn. by constructor.
  - eapply Permutation_Forall; [symmetry; apply insert_group_perm|].
    constructor; [|done]. split; [done|]. split; constructor.
Qed.

Lemma create_log_stream_wf (g n : string) (s : State) :
  wf s -> wf (create_log_stream g n s).2.
Proof.
  intros Hwf. unfold create_log_stream, client_error.
  destruct (String.eqb g "" || String.eqb n ""); [done|].
  destruct (valid_stream_name n); [|done]. cbn.
  destruct (find_group g (cw_groups s)) as [x|] eqn:Hf; [|done].
  destruct (find_stream n (lg_streams x)) eqn:Hn; [done|]. unfold with_groups; cbn.
  destruct (find_group_ok s g x Hwf Hf) as [(Hv & Hnd & Htok) _].
  destruct Hwf as (Hs & Hnodup & Hall).
  unfold wf, update_group; cbn [cw_groups cw_issued]. rewrite !map_key_update_by by done.
  split; [done|]. split; [done|].
  apply Forall_update_by with (P := group_ok (cw_issued s)); [done|done|].
  intros y Hy. fold (find_group g (cw_groups s)) in Hy. rewrite Hf in Hy. injection Hy as <-.
  split; [done|]. cbn. split.
  - rewrite map_app. apply NoDup_app. split; [done|]. split; [|apply NoDup_singleton].
    intros y Hy1 Hy2. apply list_elem_of_singleton in Hy2 as ->.
    by apply find_by_None in Hn.
  - apply Forall_app. split; [done|]. repeat constructor.
Qed.

Lemma put_log_events_wf (g n : string) evs tok (s : State) :
  wf s -> wf (put_log_events g n evs tok s).2.
Proof.
  intros Hwf. unfold put_log_events, client_error.
  destruct (String.eqb g "" || String.eqb n ""); [done|].
  destruct (bool_decide (evs = [])); [done|].
  destruct (find_group g (cw_groups s)) as [x|] eqn:Hf; [|done].
  destruct (find_stream n (lg_streams x)) as [st|] eqn:Hn; [|done].
  destruct (chronological evs); [|done]. destruct (bool_decide (tok = ls_token st)); [|done].
  cbn. destruct (find_group_ok s g x Hwf Hf) as [(Hv & Hnd & Htok) _].
  destruct Hwf as (Hs & Hnodup & Hall).
  unfold wf, update_group; cbn [cw_groups cw_issued]. rewrite !map_key_update_by by done.
  split; [done|]. split; [done|].
  apply Forall_update_by with (P := group_ok (cw_issued s)); [done|intros y; apply group_ok_mono; lia|].
  intros y Hy. fold (find_group g (cw_groups s)) in Hy. rewrite Hf in Hy. injection Hy as <-.
  split; [done|]. cbn. split.
  - unfold update_stream. by rewrite map_key_update_by.
  - apply Forall_update_by with (P := token_ok (cw_issued s)); [done|intros y; apply token_ok_mono; lia|].
    intros y _. cbn. exists (cw_issued s). split; [done|lia].
Qed.


(** ** The operations on the paths the handler takes *)

Lemma lookup_stream_update (s : State) g n F f :
  (forall x, lg_name (F x) = lg_name x) ->
  (forall x, find_stream n (lg_streams (F x)) = f <$> find_stream n (lg_streams x)) ->
  lookup_stream (with_groups (update_group g F (cw_groups s)) s) g n = f <$> lookup_stream s g n.
Proof.
  intros HF Hf. unfold lookup_stream, with_groups, find_group, update_group. cbn.
  rewrite find_by_update_eq by done.
  destruct (find_by lg_name g (cw_groups s)); cbn; [apply Hf|done].
Qed.

(** A valid name of a fresh stream in an existing group: created empty. *)
Lemma create_log_stream_new (s : State) g n x :
  g <> "" -> n <> "" -> valid_stream_name n = true ->
  find_group g (cw_groups s) = Some x -> find_stream n (lg_streams x) = None ->
  exists s', create_log_stream g n s = (inr ok_meta, s') /\
    lookup_stream s' g n = Some {| ls_name := n; ls_events := []; ls_token := None |} /\
    cw_now s' = cw_now s.
Proof.
  intros Hg Hn Hv Hf Hs. unfold create_log_stream.
  rewrite (proj2 (String.eqb_neq g "") Hg), (proj2 (String.eqb_neq n "") Hn), Hv, Hf, Hs. cbn.
  eexists. split; [reflexivity|]. split; [|done].
  unfold lookup_stream, with_groups, find_group, update_group. cbn.
  rewrite find_by_update_eq by done. fold (find_group g (cw_groups s)). rewrite Hf. cbn.
  unfold find_stream. induction (lg_streams x) as [|y ys IH]; cbn in *; [by rewrite String.eqb_refl|].
  destruct (String.eqb (ls_name y) n); [done|]. by apply IH.
Qed.

(** A valid name that no group has: the group is created, with its tags
    and no stream. *)
Lemma create_log_group_new (s : State) g tags :
  valid_group_name g = true -> find_group g (cw_groups s) = None ->
  exists s', create_log_group g tags s = (inr ok_meta, s') /\
    find_group g (cw_groups s') = Some {| lg_name := g; lg_tags := tags; lg_streams := [] |} /\
    cw_now s' = cw_now s /\ cw_issued s' = cw_issued s.
Proof.
  intros Hv Hf. unfold create_log_group.
  assert (Hg : String.eqb g "" = false) by (destruct g; [done|apply String.eqb_neq; done]).
  rewrite Hg, Hv, Hf. cbn. eexists. split; [reflexivity|]. split; [|done].
  unfold find_group in *. cbn. clear Hg Hv.
  induction (cw_groups s) as [|y gs IH]; cbn in *; [by rewrite String.eqb_refl|].
  destruct (String.eqb_spec (lg_name y) g) as [|Hne]; [done|].
  destruct (String.compare g (lg_name y)); cbn;
    [| by rewrite String.eqb_refl |];
    rewrite (proj2 (String.eqb_neq _ _) Hne); by apply IH.
Qed.

(** A record within the time window, sent with the expected token to an
    existing stream: accepted, appended, and a fresh token returned. *)
Lemma put_log_events_accepted (s : State) g n st ev tok :
  g <> "" -> n <> "" -> lookup_stream s g n = Some st -> tok = ls_token st ->
  in_window (cw_now s) ev = true ->
  exists s', put_log_events g n [ev] tok s =
    (inr {| nextSequenceToken := Some (pretty (S (cw_issued s)));
            rejectedLogEventsInfo := None; put_ResponseMetadata := ok_meta |}, s') /\
    lookup_stream s' g n = Some (append_records [ev] (pretty (S (cw_issued s))) st) /\
    cw_now s' = cw_now s /\ cw_issued s' = S (cw_issued s).
Proof.
  intros Hg Hn Hl -> Hw. pose proof Hw as Hw0. unfold put_log_events, lookup_stream in *.
  rewrite (proj2 (String.eqb_neq g "") Hg), (proj2 (String.eqb_neq n "") Hn). cbn.
  destruct (find_group g (cw_groups s)) as [x|] eqn:Hf; [|done]. cbn in Hl. rewrite Hl.
  rewrite bool_decide_eq_true_2 by done. cbn.
  unfold in_window in Hw. unfold rejected_info. cbn. rewrite orb_false_r in *.
  destruct (too_old (cw_now s) ev), (too_new (cw_now s) ev); try done. cbn.
  eexists. split; [reflexivity|]. split; [|done].
  cbn. destruct (decide _) as [_|Hno]; [|exfalso; apply Hno; by rewrite Hw0].
  unfold find_group, update_group. rewrite find_by_update_eq by (by intros).
  fold (find_group g (cw_groups s)). rewrite Hf. cbn.
  unfold find_stream, update_stream. rewrite find_by_update_eq by (by intros).
  fold (find_stream n (lg_streams x)). by rewrite Hl.
Qed.
(** ** What each operation leaves alone *)

(** Creating a group changes no stream: a new group has none. *)
Lemma create_log_group_frame g tags (s : State) g' n' :
  stream_state (create_log_group g tags s).2 g' n' = stream_state s g' n'.
Proof.
  unfold create_log_group, client_error.
  destruct (String.eqb g ""); [done|]. destruct (negb (valid_group_name g)); [done|].
  destruct (find_group g (cw_groups s)) eqn:Hf; [done|]. cbn.
  unfold stream_state, lookup_stream, with_groups. cbn.
  rewrite (find_group_insert {| lg_name := g; lg_tags := tags; lg_streams := [] |} (cw_groups s) g' Hf).
  cbn. destruct (String.eqb_spec g g') as [<-|]; cbn; [by rewrite Hf|done].
Qed.

(** Creating stream [n] of group [g] changes no other stream. *)
Lemma create_log_stream_frame g n (s : State) g' n' :
  (g', n') <> (g, n) -> stream_state (create_log_stream g n s).2 g' n' = stream_state s g' n'.
Proof.
  intros Hne. unfold create_log_stream, client_error.
  destruct (String.eqb g "" || String.eqb n ""); [done|]. destruct (negb (valid_stream_name n)); [done|].
  destruct (find_group g (cw_groups s)) as [x|] eqn:Hf; [|done].
  destruct (find_stream n (lg_streams x)); [done|]. cbn.
  unfold stream_state, lookup_stream, with_groups, update_group. cbn.
  destruct (String.eqb_spec g g') as [<-|Hg].
  - unfold find_group at 1. rewrite find_by_update_eq by done. fold (find_group g (cw_groups s)).
    rewrite Hf. cbn. unfold find_stream. rewrite find_by_app. cbn.
    destruct (find_by ls_name n' (lg_streams x)); [done|].
    destruct (String.eqb_spec n n'); [congruence|done].
  - unfold find_group at 1. by rewrite find_by_update_ne.
Qed.

(** Appending to stream [n] of group [g] changes no other stream. *)
Lemma put_log_events_frame g n evs tok (s : State) g' n' :
  (g', n') <> (g, n) -> stream_state (put_log_events g n evs tok s).2 g' n' = stream_state s g' n'.
Proof.
  intros Hne. unfold put_log_events, client_error.
  destruct (String.eqb g "" || String.eqb n ""); [done|]. destruct (bool_decide (evs = [])); [done|].
  destruct (find_group g (cw_groups s)) as [x|] eqn:Hf; [|done].
  destruct (find_stream n (lg_streams x)) as [st|]; [|done].
  destruct (negb (chronological evs)); [done|]. destruct (negb (bool_decide (tok = ls_token st))); [done|].
  cbn. unfold stream_state, lookup_stream, update_group. cbn.
  destruct (String.eqb_spec g g') as [<-|Hg].
  - unfold find_group at 1. rewrite find_by_update_eq by done. fold (find_group g (cw_groups s)).
    rewrite Hf. cbn. unfold find_stream, update_stream.
    rewrite find_by_update_ne; [done|done|congruence].
  - unfold find_group at 1. by rewrite find_by_update_ne.
Qed.

(** ** The model meets the contract *)

Lemma valid_group_name_nonempty (g : string) : valid_group_name g = true -> g <> "".
Proof. unfold valid_group_name. intros H ->. done. Qed.

#[export] Hint Resolve valid_group_name_nonempty pretty_succ_nonempty : s2p_core.

Lemma valid_stream_spec (n : string) :
  valid_stream n = true -> n <> "" /\ valid_stream_name n = true.
Proof.
  unfold valid_stream. intros [Hn Hv]%andb_true_iff.
  split; [|done]. apply String.eqb_neq. by destruct (String.eqb n "").
Qed.

Lemma cw_create_log_group_spec g tags (s : State) :
  wf s -> valid_group_name g = true -> group_exists s g = false ->
  exists meta s', create_log_group g tags s = (inr meta, s') /\ wf s' /\
    group_exists s' g = true /\ (forall n, stream_state s' g n = None) /\ accepts s' = accepts s.
Proof.
  intros Hwf Hv Hg. unfold group_exists in Hg.
  destruct (find_group g (cw_groups s)) eqn:Hf; [done|].
  destruct (create_log_group_new s g tags Hv Hf) as (s' & Hc & Hf' & Hnow & _).
  pose proof (create_log_group_wf g tags s Hwf) as Hw'. rewrite Hc in Hw'.
  exists ok_meta, s'. split; [done|]. split; [done|].
  unfold group_exists, stream_state, lookup_stream, accepts. rewrite Hf', Hnow.
  split; [done|]. by split.
Qed.

Lemma cw_create_log_stream_spec g n (s : State) :
  wf s -> valid_stream n = true -> group_exists s g = true -> stream_state s g n = None ->
  exists meta s', create_log_stream g n s = (inr meta, s') /\ HTTPStatusCode meta = 200%Z /\ wf s' /\
    stream_state s' g n = Some ([], None) /\ accepts s' = accepts s.
Proof.
  intros Hwf [Hn Hvs]%valid_stream_spec Hg Hst. unfold group_exists in Hg.
  destruct (find_group g (cw_groups s)) as [x|] eqn:Hf; [|done].
  destruct (find_group_ok s g x Hwf Hf) as [(Hv & _) Hx].
  assert (Hs : find_stream n (lg_streams x) = None).
  { unfold stream_state, lookup_stream in Hst. rewrite Hf in Hst. cbn in Hst.
    by destruct (find_stream n (lg_streams x)). }
  destruct (create_log_stream_new s g n x ltac:(subst g; eauto with s2p_core)
              Hn Hvs Hf Hs) as (s' & Hc & Hl & Hnow).
  pose proof (create_log_stream_wf g n s Hwf) as Hw'. rewrite Hc in Hw'.
  exists ok_meta, s'. split; [done|]. split; [done|]. split; [done|].
  unfold stream_state, accepts. by rewrite Hl, Hnow.
Qed.

Lemma cw_put_log_events_spec g n ev evs tok (s : State) :
  wf s -> valid_stream n = true -> stream_state s g n = Some (evs, tok) -> accepts s ev = true ->
  exists t meta s', put_log_events g n [ev] tok s =
      (inr {| nextSequenceToken := Some t; rejectedLogEventsInfo := None; put_ResponseMetadata := meta |}, s') /\
    t <> "" /\ wf s' /\ stream_state s' g n = Some ((evs ++ [ev])%list, Some t) /\ accepts s' = accepts s.
Proof.
  intros Hwf [Hn _]%valid_stream_spec Hst Hacc.
  unfold stream_state in Hst. destruct (lookup_stream s g n) as [st|] eqn:Hl; [|done].
  injection Hst as Hev Htok.
  assert (Hg : g <> "").
  { unfold lookup_stream in Hl. destruct (find_group g (cw_groups s)) as [x|] eqn:Hf; [|done].
    destruct (find_group_ok s g x Hwf Hf) as [(Hv & _) <-]. eauto with s2p_core. }
  destruct (put_log_events_accepted s g n st ev tok Hg Hn Hl (eq_sym Htok) Hacc)
    as (s' & Hput & Hl' & Hnow & _).
  pose proof (put_log_events_wf g n [ev] tok s Hwf) as Hw'. rewrite Hput in Hw'.
  eexists _, _, s'. split; [exact Hput|]. split; [eauto with s2p_core|]. split; [done|].
  unfold stream_state, accepts. rewrite Hl', Hnow, <- Hev. by split.
Qed.

#[export] Instance cw_contract : LogsContract State := {|
  LogsApi.svc_inv := wf;
  LogsApi.group_exists := group_exists;
  LogsApi.stream_state := stream_state;
  LogsApi.accepts := accepts;
  LogsApi.valid_group := valid_group_name;
  LogsApi.valid_stream := valid_stream;
  LogsApi.create_log_group_spec := cw_create_log_group_spec;
  LogsApi.create_log_stream_spec := cw_create_log_stream_spec;
  LogsApi.put_log_events_spec := cw_put_log_events_spec;
  LogsApi.create_log_group_frame := create_log_group_frame;
  LogsApi.create_log_stream_frame := create_log_stream_frame;
  LogsApi.put_log_events_frame := put_log_events_frame;
|}.
End CloudWatch.
