(* ===== verification/Handler.v ===== *)
(** * The handler and its helpers (lines 11-103)

    Every function of the source is written in the monad [pym] over a
    [World]: the state of the CloudWatch Logs service behind [cwlogs],
    [os.environ], the clock read by [time.time()], the stream of 32-bit
    words behind [random], the trace of API calls with their answers, and
    standard output.  The client is any [LogsClient] and [json.loads] is
    any decoder: the theorems hold for all of them. *)

From stdpp Require Import base list strings gmap.
From Stdlib Require Import Ascii String ZArith Lia.
From S2P Require Import Prelude PyStr PyVal Nonce LogsApi.

Local Open Scope string_scope.

(** A line of standard output, tagged with the print that wrote it: the
    line of line 90, or a response line of lines 21, 38 and 61. *)
Inductive Output :=
| PrintText (text : string)
| PrintResponse (line : string).

Record World (Svc : Type) := mkWorld {
  w_svc : Svc;
  w_environ : gmap string string;
  w_clock : nat -> Z;
  w_ticks : nat;
  w_words : nat -> Z;
  w_drawn : nat;
  w_calls : list (ApiCall * ApiResult);
  w_stdout : list Output;
}.
Arguments mkWorld {Svc}.
Arguments w_svc {Svc}. Arguments w_environ {Svc}. Arguments w_clock {Svc}.
Arguments w_ticks {Svc}. Arguments w_words {Svc}. Arguments w_drawn {Svc}.
Arguments w_calls {Svc}. Arguments w_stdout {Svc}.

Section Handler.
Context {Svc : Type} `{!LogsClient Svc}.
(** [json.loads] on a [str]. *)
Context (json_loads : string -> PyExn + pyval).

Abbreviation M := (pym (World Svc) PyExn).

(** ** The world's effects *)

Definition log_call (c : ApiCall) (r : ApiResult) (s : Svc) (w : World Svc) : World Svc :=
  mkWorld s (w_environ w) (w_clock w) (w_ticks w) (w_words w) (w_drawn w)
    (w_calls w ++ [(c, r)]) (w_stdout w).

(** Send one request through [cwlogs]: the call and its answer are
    appended to the trace, a [ClientError] is raised. *)
Definition cw_call {A} (c : ApiCall) (wrap : A -> ApiResult)
    (op : Svc -> (PyExn + A) * Svc) : M A :=
  fun w =>
    match op (w_svc w) with
    | (inl e, s') => (Raised e, log_call c (RErr e) s' w)
    | (inr a, s') => (Normal a, log_call c (wrap a) s' w)
    end.

Definition cw_describe_log_groups : M (list LogGroupInfo) :=
  cw_call DescribeLogGroups RGroups (fun s => (describe_log_groups s, s)).

Definition cw_create_log_group (g : string) (tags : list (string * string))
  : M ResponseMetadata :=
  cw_call (CreateLogGroup g tags) RMeta (create_log_group g tags).

Definition cw_create_log_stream (g n : string) : M ResponseMetadata :=
  cw_call (CreateLogStream g n) RMeta (create_log_stream g n).

Definition cw_put_log_events (g n : string) (evs : list LogEvent)
    (tok : option string) : M PutLogEventsResponse :=
  cw_call (PutLogEvents g n evs tok) RPut (put_log_events g n evs tok).

Definition py_print (o : Output) : M unit :=
  pym_modify (fun w => mkWorld (w_svc w) (w_environ w) (w_clock w) (w_ticks w)
                         (w_words w) (w_drawn w) (w_calls w) (w_stdout w ++ [o])).

(** [os.environ.get(k)]. *)
Definition environ_get (k : string) : M (option string) :=
  fun w => (Normal (w_environ w !! k), w).

(** [int(round(time.time() * 1000))]: the next clock reading, in
    milliseconds. *)
Definition epoch_ms : M Z :=
  fun w => (Normal (w_clock w (w_ticks w)),
            mkWorld (w_svc w) (w_environ w) (w_clock w) (S (w_ticks w))
              (w_words w) (w_drawn w) (w_calls w) (w_stdout w)).

(** Lines 75-76: eight draws of two words each. *)
Definition draw_nonce : M string :=
  fun w =>
    match make_nonce (w_words w) (w_drawn w) with
    | inl e => (Raised e, w)
    | inr n => (Normal n, mkWorld (w_svc w) (w_environ w) (w_clock w) (w_ticks w)
                            (w_words w) (w_drawn w + 16) (w_calls w) (w_stdout w))
    end.

(** ** The helpers *)

(** The tags of line 14-18, in the order of the dict literal. *)
Definition group_tags (logGroupName : string) : list (string * string) :=
  [("Owner", "TrendMicro"); ("Product", "CloudOneWorkloadSecurity");
   ("Name", logGroupName)].

Definition createLogGroup (logGroupName : string) : M unit :=
  let* createLogGroupResponse := cw_create_log_group logGroupName (group_tags logGroupName) in
  py_print (PrintResponse ("createLogGroupResponse - " ++ py_str (meta_response_pyval createLogGroupResponse))).

(** The loop of lines 26-29: the first listed group whose name contains
    [logGroupName] as a substring answers [True]. *)
Fixpoint any_group_contains (logGroupName : string) (groups : list LogGroupInfo) : bool :=
  match groups with
  | [] => false
  | logGroup :: rest =>
      if py_contains logGroupName (LogsApi.logGroupName logGroup) then true
      else any_group_contains logGroupName rest
  end.

Definition ifLogGroupExists (logGroupName : string) : M bool :=
  let* groups := cw_describe_log_groups in
  pym_ret (any_group_contains logGroupName groups).

Definition createLogStream (logGroupName logStreamName : string) : M string :=
  let* createLogStreamResponse := cw_create_log_stream logGroupName logStreamName in
  let* _ := py_print (PrintResponse ("createLogStreamResponse - " ++ py_str (meta_response_pyval createLogStreamResponse))) in
  pym_ret (if (HTTPStatusCode createLogStreamResponse =? 200)%Z then logStreamName else "").

(** Lines 45-65.  The token is passed only when it is truthy; a response
    without [rejectedLogEventsInfo] must carry [nextSequenceToken]
    (a [KeyError] otherwise). *)
Definition putLogEvents (logGroupName logStreamName : string)
    (logEvent : list LogEvent) (nextSequenceToken : option string)
  : M (option string) :=
  let* putLogEventsResponse :=
    if py_truthy_token nextSequenceToken
    then cw_put_log_events logGroupName logStreamName logEvent nextSequenceToken
    else cw_put_log_events logGroupName logStreamName logEvent None in
  let* _ := py_print (PrintResponse ("putLogEventsResponse - " ++ py_str (put_response_pyval putLogEventsResponse))) in
  match rejectedLogEventsInfo putLogEventsResponse with
  | None =>
      match LogsApi.nextSequenceToken putLogEventsResponse with
      | Some t => pym_ret (Some t)
      | None => pym_raise (KeyError "nextSequenceToken")
      end
  | Some _ => pym_ret None
  end.

(** The loop of lines 92-103, threading [nextSequenceToken]; [Some v]
    is [return v], [None] is the loop running to its end. *)
Fixpoint put_messages (logGroupName logStreamName : string)
    (messages : list pyval) (nextSequenceToken : option string)
  : M (option pyval) :=
  match messages with
  | [] => pym_ret None
  | message :: rest =>
      let* epoch_time := epoch_ms in
      let logEvent := [{| timestamp := epoch_time; LogsApi.message := py_str message |}] in
      let* tok := putLogEvents logGroupName logStreamName logEvent nextSequenceToken in
      match tok with
      | None => pym_ret (Some (PBool false))
      | Some _ => put_messages logGroupName logStreamName rest tok
      end
  end.

(** [event["Records"][0]["Sns"]["Message"]]. *)
Definition sns_message (event : pyval) : PyExn + pyval :=
  r ← py_getitem event (PStr "Records");
  r0 ← py_getitem r (PInt 0);
  sns ← py_getitem r0 (PStr "Sns");
  py_getitem sns (PStr "Message").

(** Line 78: [json.loads(event["Records"][0]["Sns"]["Message"])]. *)
Definition decode_events (event : pyval) : PyExn + pyval :=
  m ← sns_message event;
  s ← json_loads_arg m;
  json_loads s.

(** Lines 80-88: make sure the group exists and create the stream. *)
Definition open_stream (logGroupName logStreamName : string) : M string :=
  let* found := ifLogGroupExists logGroupName in
  if found then createLogStream logGroupName logStreamName
  else
    let* _ := createLogGroup logGroupName in
    createLogStream logGroupName logStreamName.

(** Lines 68-103.  Falling off the end of the function returns [None]. *)
Definition lambda_handler (event context : pyval) : M pyval :=
  let nextSequenceToken : option string := None in
  let* g := environ_get "CloudWatchLogGroupName" in
  let logGroupName := py_str_opt g in
  let* p := environ_get "CloudWatchLogStreamNamePrefix" in
  let logStreamNamePrefix := py_str_opt p in
  let* nonce := draw_nonce in
  let* logEvents := pym_lift (decode_events event) in
  let* n := pym_lift (py_len logEvents) in
  if (0 <? n)%nat then
    let* logStreamName := open_stream logGroupName (logStreamNamePrefix ++ "-" ++ nonce) in
    let* _ := py_print (PrintText (py_str_opt (Some logGroupName) ++ " - "
                                    ++ py_str_opt (Some logStreamName))) in
    let* messages := pym_lift (py_iter logEvents) in
    let* r := put_messages logGroupName logStreamName messages nextSequenceToken in
    pym_ret (match r with Some v => v | None => PNone end)
  else pym_ret PNone.

(** ** Observations of runs *)

(** The [sequenceToken] argument of the call: the token when truthy,
    otherwise the argument is left out. *)
Definition token_arg (tok : option string) : option string :=
  if py_truthy_token tok then tok else None.

(** The request for message [m] when the clock reads [clock i]. *)
Definition put_request (g n : string) (clock : nat -> Z) (i : nat)
    (tok : option string) (m : pyval) : ApiCall :=
  PutLogEvents g n [{| timestamp := clock i; LogsApi.message := py_str m |}] (token_arg tok).

(** The traces the loop of lines 92-103 may leave, with its outcome.
    Each message is sent alone, with the token the previous call
    returned; the loop goes on only while no record is rejected. *)
Inductive put_chain (g n : string) (clock : nat -> Z) :
  nat -> option string -> list pyval -> list (ApiCall * ApiResult) ->
  outcome PyExn (option pyval) -> Prop :=
| chain_end i tok :
    put_chain g n clock i tok [] [] (Normal None)
| chain_next i tok m ms resp t rest out :
    rejectedLogEventsInfo resp = None ->
    LogsApi.nextSequenceToken resp = Some t ->
    put_chain g n clock (S i) (Some t) ms rest out ->
    put_chain g n clock i tok (m :: ms) ((put_request g n clock i tok m, RPut resp) :: rest) out
| chain_rejected i tok m ms resp info :
    rejectedLogEventsInfo resp = Some info ->
    put_chain g n clock i tok (m :: ms) [(put_request g n clock i tok m, RPut resp)]
      (Normal (Some (PBool false)))
| chain_no_token i tok m ms resp :
    rejectedLogEventsInfo resp = None ->
    LogsApi.nextSequenceToken resp = None ->
    put_chain g n clock i tok (m :: ms) [(put_request g n clock i tok m, RPut resp)]
      (Raised (KeyError "nextSequenceToken"))
| chain_error i tok m ms e :
    put_chain g n clock i tok (m :: ms) [(put_request g n clock i tok m, RErr e)] (Raised e).

(** The token a request carries, and the token an answer returns. *)
Definition request_token (c : ApiCall) : option string :=
  match c with PutLogEvents _ _ _ tok => tok | _ => None end.

Definition request_events (c : ApiCall) : list LogEvent :=
  match c with PutLogEvents _ _ evs _ => evs | _ => [] end.

Definition reply_token (r : ApiResult) : option string :=
  match r with RPut resp => LogsApi.nextSequenceToken resp | _ => None end.

Definition reply_rejected (r : ApiResult) : bool :=
  match r with RPut resp => bool_decide (is_Some (rejectedLogEventsInfo resp)) | _ => false end.

(** What [createLogStream] makes of the answer to its call (lines 33-42):
    a raised [ClientError] propagates; otherwise the requested name comes
    back when the status is 200 and the empty name when it is not. *)
Definition stream_reply (sn : string) (r : ApiResult) (out : outcome PyExn string) : Prop :=
  match r with
  | RErr e => out = Raised e
  | RMeta meta => out = Normal (if (HTTPStatusCode meta =? 200)%Z then sn else "")
  | _ => False
  end.

(** The traces lines 80-88 may leave, with their outcome: one
    [describe_log_groups]; [create_log_group] with the three tags only
    when no listed name contains [g]; then [create_log_stream], unless an
    earlier call raised. *)
Inductive open_trace (g sn : string) :
  list (ApiCall * ApiResult) -> outcome PyExn string -> Prop :=
| open_describe_error e :
    open_trace g sn [(DescribeLogGroups, RErr e)] (Raised e)
| open_found groups r out :
    any_group_contains g groups = true -> stream_reply sn r out ->
    open_trace g sn [(DescribeLogGroups, RGroups groups); (CreateLogStream g sn, r)] out
| open_group_error groups e :
    any_group_contains g groups = false ->
    open_trace g sn [(DescribeLogGroups, RGroups groups);
                     (CreateLogGroup g (group_tags g), RErr e)] (Raised e)
| open_created groups meta r out :
    any_group_contains g groups = false -> stream_reply sn r out ->
    open_trace g sn [(DescribeLogGroups, RGroups groups);
                     (CreateLogGroup g (group_tags g), RMeta meta);
                     (CreateLogStream g sn, r)] out.

(** A call of the loop: [put_log_events] on group [g] and stream [sn]
    with a single record. *)
Definition single_put (g sn : string) (e : ApiCall * ApiResult) : Prop :=
  exists ev tok, e.1 = PutLogEvents g sn [ev] tok.

(** The calls one invocation may leave after world [w]: none at all, or
    an [open_trace] for the stream [prefix + "-" + nonce] followed by
    single-record puts on the name [open_stream] returned, at most one
    per message of the notification. *)
Definition invocation_calls (w : World Svc) (event : pyval)
    (pre post : list (ApiCall * ApiResult)) : Prop :=
  ((pre = [] /\ post = []) \/
   exists nonce out,
     make_nonce (w_words w) (w_drawn w) = inr nonce /\
     open_trace (py_str_opt (w_environ w !! "CloudWatchLogGroupName"))
       (py_str_opt (w_environ w !! "CloudWatchLogStreamNamePrefix") ++ "-" ++ nonce) pre out /\
     (post = [] \/ exists sn, out = Normal sn /\
        Forall (single_put (py_str_opt (w_environ w !! "CloudWatchLogGroupName")) sn) post)) /\
  (forall v ms, decode_events event = inr v -> py_iter v = inr ms ->
     (List.length post <= List.length ms)%nat).

(** The configuration the handler reads (lines 72-73). *)
Definition config_group (w : World Svc) : string :=
  py_str_opt (w_environ w !! "CloudWatchLogGroupName").
Definition config_prefix (w : World Svc) : string :=
  py_str_opt (w_environ w !! "CloudWatchLogStreamNamePrefix").

(** The world once the nonce is drawn: sixteen words consumed. *)
Definition nonce_world (w : World Svc) : World Svc :=
  mkWorld (w_svc w) (w_environ w) (w_clock w) (w_ticks w) (w_words w) (w_drawn w + 16)
    (w_calls w) (w_stdout w).

(** The value the handler returns for an outcome of the loop. *)
Definition loop_result (r : outcome PyExn (option pyval)) : outcome PyExn pyval :=
  match r with
  | Normal (Some v) => Normal v
  | Normal None => Normal PNone
  | Raised e => Raised e
  end.

(** The trace only grows, by entries each answered in kind. *)
Definition calls_grow (w w' : World Svc) : Prop :=
  exists new, w_calls w' = (w_calls w ++ new)%list /\ Forall (fun e => result_fits e = true) new.

End Handler.

(** ** The append loop: token threading and early stop *)

Section PutChain.
Context {Svc : Type} `{!LogsClient Svc}.

Lemma putLogEvents_token_arg (g n : string) evs tok :
  (if py_truthy_token tok then cw_put_log_events g n evs tok
   else cw_put_log_events g n evs None) = cw_put_log_events (Svc:=Svc) g n evs (token_arg tok).
Proof. unfold token_arg. by destruct (py_truthy_token tok). Qed.

Lemma put_messages_trace (g n : string) (ms : list pyval) (tok : option string)
    (w : World Svc) :
  exists entries,
    w_calls (put_messages g n ms tok w).2 = (w_calls w ++ entries)%list /\
    put_chain g n (w_clock w) (w_ticks w) tok ms entries (put_messages g n ms tok w).1.
Proof.
  revert tok w. induction ms as [|m ms IH]; intros tok w.
  - exists []. rewrite app_nil_r. split; [done|constructor].
  - destruct (put_messages g n (m :: ms) tok w) as [out w'] eqn:Hrun. cbn [fst snd].
    cbn [put_messages] in Hrun. unfold pym_bind at 1, epoch_ms in Hrun. cbn beta iota in Hrun.
    unfold putLogEvents in Hrun. rewrite putLogEvents_token_arg in Hrun.
    unfold cw_put_log_events, cw_call, py_print, pym_bind, pym_modify, pym_ret, pym_raise in Hrun.
    cbn in Hrun.
    destruct (put_log_events g n _ (token_arg tok) (w_svc w)) as [[e|resp] s'] eqn:Hput;
      [injection Hrun as <- <-; eexists; split; [reflexivity|apply chain_error]|].
    destruct (rejectedLogEventsInfo resp) as [info|] eqn:Hrej;
      [injection Hrun as <- <-; eexists; split; [reflexivity|];
       by eapply chain_rejected|].
    destruct (LogsApi.nextSequenceToken resp) as [t|] eqn:Htok;
      [|injection Hrun as <- <-; eexists; split; [reflexivity|];
        by apply chain_no_token].
    match type of Hrun with put_messages _ _ _ _ ?w2 = _ =>
      destruct (IH (Some t) w2) as (rest & Hcalls & Hchain) end.
    rewrite Hrun in Hcalls, Hchain. cbn in Hcalls, Hchain.
    eexists. split; [rewrite Hcalls, <- app_assoc; reflexivity|].
    by eapply chain_next.
Qed.

(** C2: for every client and every world, the loop leaves a trace of
    [put_log_events] calls described by [put_chain]: message [k] is
    sent alone, as [str(message)], stamped with the [k]-th clock
    reading, with the token returned by call [k-1] (left out when
    falsy, and for the first call); the loop stops after the first
    rejected call with [False] and raises when a call raises or a
    response has neither a token nor a rejection. *)
Theorem put_messages_chain (g n : string) (ms : list pyval) (tok : option string)
    (w : World Svc) :
  exists entries,
    w_calls (put_messages g n ms tok w).2 = (w_calls w ++ entries)%list /\
    put_chain g n (w_clock w) (w_ticks w) tok ms entries (put_messages g n ms tok w).1.
Proof. exact (put_messages_trace g n ms tok w). Qed.
(** C3: when the loop runs to its end, it made exactly one call per
    message, each with one record holding [str] of its message, none
    rejected, the first without a token when the loop starts with a
    falsy one, and every later call with the token of the call before. *)
Theorem put_chain_all_accepted (g n : string) clock i tok ms entries :
  put_chain g n clock i tok ms entries (Normal None) ->
  List.length entries = List.length ms /\
  (forall k m c r, ms !! k = Some m -> entries !! k = Some (c, r) ->
     request_events c = [{| timestamp := clock (i + k)%nat; LogsApi.message := py_str m |}] /\
     reply_rejected r = false) /\
  (forall c r, entries !! 0%nat = Some (c, r) -> request_token c = token_arg tok) /\
  (forall k c1 r1 c2 r2, entries !! k = Some (c1, r1) -> entries !! S k = Some (c2, r2) ->
     request_token c2 = token_arg (reply_token r1)).
Proof.
  intros H. remember (Normal None) as out eqn:Hout.
  induction H as [i tok|i tok m ms resp t rest out Hrej Htok Hch IH| | |];
    try discriminate.
  - split; [done|]. split; [by intros ? ? ? ? ?|]. split; [done|]. by intros ? ? ? ? ? ?.
  - destruct (IH Hout) as (Hlen & Hev & Hfirst & Hnext). clear IH.
    split; [simpl; lia|]. split; [|split].
    + intros [|k] m' c r Hm He; simpl in Hm, He; simplify_eq.
      * rewrite Nat.add_0_r. split; [done|]. cbn. by rewrite Hrej.
      * destruct (Hev k m' c r Hm He) as [Hk Hr]. split; [|done].
        by rewrite Hk, Nat.add_succ_r.
    + intros c r He. cbn in He. simplify_eq. reflexivity.
    + intros [|k] c1 r1 c2 r2 H1 H2; simpl in H1, H2; simplify_eq.
      * cbn. rewrite Htok. by apply (Hfirst c2 r2).
      * by eapply Hnext.
Qed.

(** C4: when the loop returns early, it returns [False], the last call
    made was rejected, every earlier one was accepted, and no message
    after the rejected one was sent: at most one call per message. *)
Theorem put_chain_stops_at_rejection (g n : string) clock i tok ms entries v :
  put_chain g n clock i tok ms entries (Normal (Some v)) ->
  v = PBool false /\
  (1 <= List.length entries <= List.length ms)%nat /\
  (exists c r, last entries = Some (c, r) /\ reply_rejected r = true) /\
  (forall k c r, (S k < List.length entries)%nat -> entries !! k = Some (c, r) ->
     reply_rejected r = false).
Proof.
  intros H. remember (Normal (Some v)) as out eqn:Hout.
  induction H as [|i tok m ms resp t rest out Hrej Htok Hch IH|i tok m ms resp info Hrej| |];
    try discriminate.
  - destruct (IH Hout) as (Hv & Hlen & (c & r & Hlast & Hr) & Hearly). clear IH.
    split; [done|]. split; [simpl; lia|]. split.
    + exists c, r. destruct rest as [|x rest]; [simpl in Hlen; lia|]. by rewrite last_cons_cons.
    + intros [|k] c' r' Hk He; simpl in He; simplify_eq.
      * cbn. by rewrite Hrej.
      * apply (Hearly k c' r'); [simpl in Hk; lia|exact He].
  - injection Hout as <-. split; [done|]. split; [simpl; lia|]. split.
    + eexists _, _. split; [reflexivity|]. cbn. by rewrite Hrej.
    + intros k c r Hk. simpl in Hk. lia.
Qed.
(** Every call of the loop puts a single record on [g]/[n], and there is
    at most one call per message. *)
Lemma put_chain_single_puts (g n : string) clock i tok ms entries out :
  put_chain g n clock i tok ms entries out ->
  Forall (single_put g n) entries /\ (List.length entries <= List.length ms)%nat.
Proof.
  induction 1 as [|i tok m ms resp t rest out _ _ _ [IHf IHl]| | |];
    (split; [|cbn [List.length]; lia]); [constructor|..];
    (constructor; [by eexists _, _|]); [exact IHf|constructor..].
Qed.
End PutChain.

(** ** Runs of the handler *)

Section HandlerRuns.
Context {Svc : Type} `{!LogsClient Svc}.
Context (json_loads : string -> PyExn + pyval).

Lemma draw_nonce_run (w : World Svc) nonce :
  make_nonce (w_words w) (w_drawn w) = inr nonce -> draw_nonce w = (Normal nonce, nonce_world w).
Proof. unfold draw_nonce. by intros ->. Qed.

(** The handler's first steps up to the length test (lines 70-80). *)
Lemma lambda_handler_prefix event context (w : World Svc) v nonce :
  decode_events json_loads event = inr v ->
  make_nonce (w_words w) (w_drawn w) = inr nonce ->
  lambda_handler json_loads event context w =
  (let* n := pym_lift (py_len v) in
   if (0 <? n)%nat then
     let* logStreamName := open_stream (config_group w) (config_prefix w ++ "-" ++ nonce) in
     let* _ := py_print (PrintText (py_str_opt (Some (config_group w)) ++ " - "
                                    ++ py_str_opt (Some logStreamName))) in
     let* messages := pym_lift (py_iter v) in
     let* r := put_messages (config_group w) logStreamName messages None in
     pym_ret (match r with Some v => v | None => PNone end)
   else pym_ret PNone) (nonce_world w).
Proof.
  intros Hdec Hn. unfold lambda_handler.
  pym_step by reflexivity.
  pym_step by reflexivity.
  pym_step by (apply draw_nonce_run; exact Hn).
  rewrite Hdec. erewrite pym_bind_normal by reflexivity. reflexivity.
Qed.

(** A notification body [json.loads] rejects: the exception ends the
    invocation right after the nonce is drawn (line 78). *)
Lemma lambda_handler_decode_error event context (w : World Svc) e nonce :
  decode_events json_loads event = inl e ->
  make_nonce (w_words w) (w_drawn w) = inr nonce ->
  lambda_handler json_loads event context w = (Raised e, nonce_world w).
Proof.
  intros Hdec Hn. unfold lambda_handler.
  pym_step by reflexivity.
  pym_step by reflexivity.
  pym_step by (apply draw_nonce_run; exact Hn).
  rewrite Hdec. by erewrite pym_bind_raised.
Qed.

(** A non-empty notification: after the nonce, the handler opens the
    stream, prints the names and runs the loop without a token. *)
Lemma lambda_handler_nonempty event context (w : World Svc) v ms nonce :
  decode_events json_loads event = inr v -> py_iter v = inr ms -> ms <> [] ->
  make_nonce (w_words w) (w_drawn w) = inr nonce ->
  lambda_handler json_loads event context w =
  (let* sn := open_stream (config_group w) (config_prefix w ++ "-" ++ nonce) in
   let* _ := py_print (PrintText (py_str_opt (Some (config_group w)) ++ " - "
                                  ++ py_str_opt (Some sn))) in
   let* r := put_messages (config_group w) sn ms None in
   pym_ret (match r with Some v => v | None => PNone end)) (nonce_world w).
Proof.
  intros Hdec Hiter Hne Hn.
  rewrite (lambda_handler_prefix event context w v nonce Hdec Hn), (py_iter_len v ms Hiter), Hiter.
  pym_step by reflexivity.
  by destruct ms as [|m ms'].
Qed.

(** C17: when the decoded notification is empty ([len] is 0), the
    handler returns [None] without a single API call and without
    printing: no group is looked up or created and no stream is
    created.  The world only differs by the words the nonce drew. *)
Theorem lambda_handler_empty event context (w : World Svc) v :
  decode_events json_loads event = inr v -> py_len v = inr 0%nat ->
  words_32 (w_words w) ->
  lambda_handler json_loads event context w = (Normal PNone, nonce_world w).
Proof.
  intros Hdec Hlen Hw.
  destruct (make_nonce_spec (w_words w) (w_drawn w) Hw) as (nonce & Hn & _).
  rewrite (lambda_handler_prefix event context w v nonce Hdec Hn), Hlen. reflexivity.
Qed.

(** The handler reads the decoded body only through [len] and [for]:
    two bodies with the same length and the same items are handled
    alike. *)
Lemma lambda_handler_same_items event event' context (w : World Svc) v v' :
  decode_events json_loads event = inr v -> decode_events json_loads event' = inr v' ->
  py_len v = py_len v' -> py_iter v = py_iter v' -> words_32 (w_words w) ->
  lambda_handler json_loads event context w = lambda_handler json_loads event' context w.
Proof.
  intros Hd Hd' Hl Hi Hw.
  destruct (make_nonce_spec (w_words w) (w_drawn w) Hw) as (nonce & Hn & _).
  rewrite (lambda_handler_prefix event context w v nonce Hd Hn), (lambda_handler_prefix event' context w v' nonce Hd' Hn).
  by rewrite Hl, Hi.
Qed.

Lemma length_chars (s : string) : String.length s = List.length (map (fun c => PStr (String c "")) (list_ascii_of_string s)).
Proof. rewrite length_map. induction s as [|c s IH]; cbn; congruence. Qed.

(** C22: bodies that are not JSON arrays are not refused.  Whatever the
    decoder and the world, a body that decodes to a string is handled
    exactly as the array of its characters (one record per character),
    a body that decodes to an object exactly as the array of its keys
    (one record per key, the values dropped), and a body that decodes to
    a number, a boolean or [null] raises [TypeError] at [len] (line 80)
    right after the nonce, before any API call. *)
Theorem non_array_bodies event event' context (w : World Svc) v :
  decode_events json_loads event = inr v -> words_32 (w_words w) ->
  (forall s, v = PStr s ->
     decode_events json_loads event' = inr (PList (map (fun c => PStr (String c "")) (list_ascii_of_string s))) ->
     lambda_handler json_loads event context w = lambda_handler json_loads event' context w) /\
  (forall kvs, v = PDict kvs ->
     decode_events json_loads event' = inr (PList (map (fun kv => PStr kv.1) kvs)) ->
     lambda_handler json_loads event context w = lambda_handler json_loads event' context w) /\
  match v with
  | PNone | PBool _ | PInt _ =>
      lambda_handler json_loads event context w =
        (Raised (TypeError ("object of type '" ++ py_typename v ++ "' has no len()")), nonce_world w)
  | _ => True
  end.
Proof.
  intros Hd Hw. split; [|split].
  - intros s -> Hd'. apply (lambda_handler_same_items _ _ _ _ _ _ Hd Hd'); [|done|done].
    cbn. by rewrite length_chars.
  - intros kvs -> Hd'. apply (lambda_handler_same_items _ _ _ _ _ _ Hd Hd'); [|done|done].
    cbn. by rewrite length_map.
  - destruct (make_nonce_spec (w_words w) (w_drawn w) Hw) as (nonce & Hn & _).
    destruct v; try done; by rewrite (lambda_handler_prefix event context w _ nonce Hd Hn).
Qed.

(** C5: on a non-empty notification the handler is [open_stream] on
    group [config_group] and stream [prefix + "-" + nonce], followed by
    the append loop of [put_chain], started without a token, on the
    stream name [open_stream] returned; an exception of [open_stream]
    ends the invocation with no append. *)
Theorem lambda_handler_calls event context (w : World Svc) v ms nonce :
  decode_events json_loads event = inr v -> py_iter v = inr ms -> ms <> [] ->
  make_nonce (w_words w) (w_drawn w) = inr nonce ->
  match open_stream (config_group w) (config_prefix w ++ "-" ++ nonce) (nonce_world w) with
  | (Raised e, w1) => lambda_handler json_loads event context w = (Raised e, w1)
  | (Normal sn, w1) =>
      exists entries r,
        w_calls (lambda_handler json_loads event context w).2 = (w_calls w1 ++ entries)%list /\
        put_chain (config_group w) sn (w_clock w1) (w_ticks w1) None ms entries r /\
        (lambda_handler json_loads event context w).1 = loop_result r
  end.
Proof.
  intros Hdec Hiter Hne Hn.
  rewrite (lambda_handler_nonempty event context w v ms nonce Hdec Hiter Hne Hn).
  destruct (open_stream _ _ (nonce_world w)) as [[sn|e] w1] eqn:Hos.
  - pym_step by exact Hos.
    pym_step by reflexivity.
    match goal with |- context [pym_bind (put_messages ?g ?n ?l ?t) _ ?w2] =>
      destruct (put_messages_trace g n l t w2) as (entries & Hcalls & Hchain);
      unfold pym_bind; destruct (put_messages g n l t w2) as [r w3] eqn:Hpm end.
    exists entries, r. cbn in Hcalls, Hchain.
    split; [|split; [exact Hchain|]]; destruct r as [[]|]; cbn; auto.
  - erewrite pym_bind_raised by exact Hos. reflexivity.
Qed.

(** [open_stream] leaves one of the traces of [open_trace], and its
    outcome is the one the trace gives. *)
Lemma open_stream_trace (g sn : string) (w : World Svc) :
  exists pre,
    w_calls (open_stream g sn w).2 = (w_calls w ++ pre)%list /\
    open_trace g sn pre (open_stream g sn w).1.
Proof.
  unfold open_stream, ifLogGroupExists, createLogGroup, createLogStream,
    cw_describe_log_groups, cw_create_log_group, cw_create_log_stream,
    cw_call, py_print, pym_bind, pym_modify, pym_ret.
  destruct (describe_log_groups (w_svc w)) as [e|groups]; cbn.
  { eexists. split; [reflexivity|constructor]. }
  destruct (any_group_contains g groups) eqn:Hany; cbn;
    [|destruct (create_log_group g (group_tags g) _) as [[e0|meta0] s0]; cbn;
      [eexists; split; [by rewrite <- app_assoc|by constructor]|]];
    destruct (create_log_stream g sn _) as [[e|meta] s']; cbn;
    eexists; (split; [by rewrite <- ?app_assoc|]); econstructor; done.
Qed.

(** [createLogStream] returns the requested name or the empty one. *)
Lemma createLogStream_name (g sn : string) (w : World Svc) sn' w' :
  createLogStream g sn w = (Normal sn', w') -> sn' = sn \/ sn' = "".
Proof.
  unfold createLogStream, cw_create_log_stream, cw_call, py_print, pym_bind, pym_modify, pym_ret.
  destruct (create_log_stream g sn (w_svc w)) as [[e|meta] s']; cbn; [done|].
  destruct (_ =? _)%Z; intros [= <- _]; auto.
Qed.

(** [open_stream] returns the requested name or the empty one. *)
Lemma open_stream_name (g sn : string) (w : World Svc) sn' w' :
  open_stream g sn w = (Normal sn', w') -> sn' = sn \/ sn' = "".
Proof.
  unfold open_stream, pym_bind at 1.
  destruct (ifLogGroupExists g w) as [[b|e] w1]; cbn beta iota; [|done].
  repeat match goal with
  | |- createLogStream _ _ _ = _ -> _ => apply createLogStream_name
  | |- pym_bind (createLogGroup ?g') _ ?w0 = _ -> _ =>
      unfold pym_bind at 1; destruct (createLogGroup g' w0) as [[u|e] w2]; cbn beta iota; [|done]
  | |- (if ?b then _ else _) _ = _ -> _ => destruct b
  end.
Qed.

(** C16: [open_stream] looks the group up once; when no listed name
    contains the configured one it creates the group, with the three
    tags, before creating the stream, and otherwise goes straight to
    creating the stream; the stream is created once, unless the
    creation of the group raised. *)
Theorem open_stream_calls (g sn : string) (w : World Svc) groups :
  describe_log_groups (w_svc w) = inr groups ->
  exists rest,
    w_calls (open_stream g sn w).2 = (w_calls w ++ (DescribeLogGroups, RGroups groups) :: rest)%list /\
    (any_group_contains g groups = true ->
       exists r, rest = [(CreateLogStream g sn, r)]) /\
    (any_group_contains g groups = false ->
       exists r0, (rest = [(CreateLogGroup g (group_tags g), r0)] /\ exists e, r0 = RErr e) \/
                  exists r, rest = [(CreateLogGroup g (group_tags g), r0); (CreateLogStream g sn, r)]).
Proof.
  intros Hd. unfold open_stream, ifLogGroupExists, cw_describe_log_groups.
  pym_step by (unfold pym_bind, cw_call; rewrite Hd; reflexivity).
  destruct (any_group_contains g groups) eqn:Hany.
  - unfold createLogStream, cw_create_log_stream, cw_call, pym_bind, py_print, pym_modify, pym_ret.
    destruct (create_log_stream g sn _) as [[e|meta] s'];
      (eexists; split; [cbn; by rewrite <- app_assoc|]); split; [eauto|done| |done]; eauto.
  - unfold createLogGroup, cw_create_log_group, createLogStream, cw_create_log_stream,
      cw_call, pym_bind, py_print, pym_modify, pym_ret.
    destruct (create_log_group g (group_tags g) _) as [[e0|meta0] s0].
    + eexists. split; [cbn; by rewrite <- app_assoc|]. split; [done|]. eauto 8.
    + cbn. destruct (create_log_stream g sn s0) as [[e|meta] s'];
        (eexists; split; [cbn; by rewrite <- !app_assoc|]); split; [done| |done|]; eauto 8.
Qed.
(** C18: the existence test of lines 24-29 answers [True] exactly when
    some listed group name contains the configured name as a substring,
    not when a group of that exact name is listed. *)
Theorem any_group_contains_spec (g : string) (groups : list LogGroupInfo) :
  any_group_contains g groups = true <->
  exists lg, lg ∈ groups /\ exists a b, LogsApi.logGroupName lg = (a ++ g ++ b)%string.
Proof.
  induction groups as [|lg groups IH]; cbn [any_group_contains].
  - split; [done|]. intros (lg & Hin & _). by apply not_elem_of_nil in Hin.
  - destruct (py_contains g (LogsApi.logGroupName lg)) eqn:Hc.
    + split; [intros _|done]. exists lg. split; [left|]. by apply py_contains_spec.
    + rewrite IH. split.
      * intros (lg' & Hin & Hab). exists lg'. split; [by right|done].
      * intros (lg' & Hin & Hab). apply elem_of_cons in Hin as [->|Hin].
        -- apply py_contains_spec in Hab. congruence.
        -- by exists lg'.
Qed.

(** C21: when [open_stream] returns, its last call created the stream
    and it returns the requested name only if that call answered status
    200, and the empty name otherwise: the appends that follow then
    target the stream [""]. *)
Theorem open_stream_result (g sn : string) (w : World Svc) sn' w' :
  open_stream g sn w = (Normal sn', w') ->
  exists meta, last (w_calls w') = Some (CreateLogStream g sn, RMeta meta) /\
    sn' = (if (HTTPStatusCode meta =? 200)%Z then sn else "").
Proof.
  intros Hrun. destruct (open_stream_trace g sn w) as (pre & Hcalls & Hot).
  rewrite Hrun in Hcalls, Hot. cbn in Hcalls, Hot. rewrite Hcalls.
  inversion Hot; subst;
    match goal with Hr : stream_reply _ ?r _ |- _ =>
      destruct r as [gs|m|resp|e]; cbn in Hr; try done;
      injection Hr as ->; exists m; by rewrite last_app end.
Qed.
Lemma invocation_calls_none (w : World Svc) event :
  invocation_calls json_loads w event [] [].
Proof. split; [by left|intros; simpl; lia]. Qed.

(** C6: whatever the client answers and whatever the notification
    holds, the calls of one invocation are an opening [open_trace] (one
    [describe_log_groups], at most one [create_log_group] and at most one
    [create_log_stream] for [prefix + "-" + nonce]) followed by single-record
    [put_log_events] calls, at most one per message, which are only made
    once [open_stream] returned a stream name, and all go to that name;
    or no call at all. *)
Theorem lambda_handler_safe event context (w : World Svc) :
  exists pre post,
    w_calls (lambda_handler json_loads event context w).2 = (w_calls w ++ pre ++ post)%list /\
    invocation_calls json_loads w event pre post.
Proof.
  assert (Hnone : forall w' : World Svc, w_calls w' = w_calls w ->
            exists pre post, w_calls w' = (w_calls w ++ pre ++ post)%list /\
              invocation_calls json_loads w event pre post).
  { intros w' ->. exists [], []. split; [by rewrite !app_nil_r|apply invocation_calls_none]. }
  unfold lambda_handler. do 2 pym_step by reflexivity.
  destruct (make_nonce (w_words w) (w_drawn w)) as [e|nonce] eqn:Hn.
  { erewrite pym_bind_raised by (unfold draw_nonce; rewrite Hn; reflexivity). by apply Hnone. }
  pym_step by (apply draw_nonce_run; exact Hn).
  destruct (decode_events json_loads event) as [e|v] eqn:Hdec.
  { erewrite pym_bind_raised by reflexivity. by apply Hnone. }
  pym_step by reflexivity.
  destruct (py_len v) as [e|n] eqn:Hlen.
  { erewrite pym_bind_raised by reflexivity. by apply Hnone. }
  pym_step by reflexivity.
  destruct (0 <? n)%nat; [|by apply Hnone].
  match goal with |- context [pym_bind (open_stream ?g ?sn) _ _] =>
    destruct (open_stream_trace g sn (nonce_world w)) as (pre & Hpre & Hot);
    destruct (open_stream g sn (nonce_world w)) as [[sn'|e] w1] eqn:Hos end;
    cbn in Hpre, Hot.
  2: { erewrite pym_bind_raised by exact Hos. exists pre, [].
       split; [by rewrite app_nil_r|]. split; [|intros; simpl; lia].
       right. exists nonce, (Raised e). split; [done|by split; [|left]]. }
  pym_step by exact Hos. pym_step by reflexivity.
  destruct (py_iter v) as [e|ms] eqn:Hiter.
  { erewrite pym_bind_raised by reflexivity. exists pre, [].
    split; [by rewrite app_nil_r|]. split; [|intros; simpl; lia].
    right. exists nonce, (Normal sn'). split; [done|by split; [|left]]. }
  pym_step by reflexivity.
  match goal with |- context [pym_bind (put_messages ?g ?n ?l ?t) _ ?w2] =>
    destruct (put_messages_trace g n l t w2) as (entries & Hcalls & Hchain);
    unfold pym_bind at 1; destruct (put_messages g n l t w2) as [r w3] eqn:Hpm end.
  cbn in Hcalls, Hchain. destruct (put_chain_single_puts _ _ _ _ _ _ _ _ Hchain) as [Hall Hle].
  exists pre, entries. split; [destruct r; cbn; by rewrite Hcalls, Hpre, app_assoc|].
  split; [right; exists nonce, (Normal sn'); split; [done|split; [done|right; eauto]]|].
  intros v' ms' Hv' Hms'. rewrite Hdec in Hv'. injection Hv' as <-. congruence.
Qed.
End HandlerRuns.

(** ** Relations kept by every run of the handler

    For a preorder [R] on worlds that holds across steps leaving the
    service and the trace alone, and across the four API calls (stream
    creation and appends on the names [Q] allows), every run of
    [lambda_handler] relates its first and last worlds by [R].  Isolation
    ([Refinement]) and the typing of the trace are instances. *)

(** A preorder on worlds that every helper of lines 11-65 respects, and
    the quiet steps of the handler (the print of line 90, the clock, the
    nonce), is respected by a whole run of the handler.  [Q] says which
    group and stream names the helpers are asked to respect it at. *)
Section HelperRelations.
Context {Svc : Type} `{!LogsClient Svc}.
Context (json_loads : string -> PyExn + pyval).
Context (R : relation (World Svc)) `{!PreOrder R} (Q : string -> string -> Prop).
Hypothesis R_text : forall t, pym_rel R (py_print (PrintText t)).
Hypothesis R_clock : pym_rel R epoch_ms.
Hypothesis R_nonce : forall w, R w (nonce_world w).
Hypothesis R_exists : forall g, pym_rel R (ifLogGroupExists g).
Hypothesis R_createGroup : forall g, pym_rel R (createLogGroup g).
Hypothesis R_createStream : forall g n, Q g n -> pym_rel R (createLogStream g n).
Hypothesis R_putLogEvents : forall g n evs tok, Q g n -> pym_rel R (putLogEvents g n evs tok).

Lemma rel_put_messages g n ms tok : Q g n -> pym_rel R (put_messages g n ms tok).
Proof.
  intros Hq. revert tok. induction ms as [|m ms IH]; intros tok; cbn [put_messages]; [rel_ret|].
  rel_bind; [apply R_clock|intros w t w' _].
  rel_bind; [by apply R_putLogEvents|intros w1 a w1' _].
  destruct a; [apply IH|rel_ret].
Qed.

Lemma rel_open_stream g sn : Q g sn -> pym_rel R (open_stream g sn).
Proof.
  intros Hq. rel_bind; [apply R_exists|intros w found w' _].
  destruct found; [by apply R_createStream|].
  rel_bind; [apply R_createGroup|intros; by apply R_createStream].
Qed.

Lemma rel_handler_of_helpers event context (w : World Svc) :
  (forall nonce, make_nonce (w_words w) (w_drawn w) = inr nonce ->
     Q (config_group w) (config_prefix w ++ "-" ++ nonce) /\ Q (config_group w) "") ->
  R w (lambda_handler json_loads event context w).2.
Proof.
  intros HQ. unfold lambda_handler. do 2 pym_step by reflexivity.
  destruct (make_nonce (w_words w) (w_drawn w)) as [e|nonce] eqn:Hn.
  { erewrite pym_bind_raised by (unfold draw_nonce; rewrite Hn; reflexivity). reflexivity. }
  destruct (HQ nonce eq_refl) as [Hq Hq0].
  pym_step by (apply draw_nonce_run; exact Hn).
  transitivity (nonce_world w); [apply R_nonce|].
  match goal with |- R _ (?c (nonce_world w)).2 =>
    enough (Hk : pym_rel R c) by exact (Hk (nonce_world w)) end.
  rel_bind; [rel_ret|intros w1 v w1' _].
  rel_bind; [rel_ret|intros w2 k w2' _].
  destruct (0 <? k)%nat; [|rel_ret].
  rel_bind; [apply rel_open_stream; exact Hq|intros w3 sn' w3' Hos].
  apply open_stream_name in Hos.
  rel_bind; [apply R_text|intros w4 u w4' _].
  rel_bind; [rel_ret|intros w5 ms w5' _].
  rel_bind; [|intros; rel_ret].
  apply rel_put_messages. by destruct Hos as [-> | ->].
Qed.
End HelperRelations.

(** The same for a preorder that every API call respects and every step
    that leaves the service and the trace alone. *)
Section RunRelations.
Context {Svc : Type} `{!LogsClient Svc}.
Context (json_loads : string -> PyExn + pyval).
Context (R : relation (World Svc)) `{!PreOrder R} (Q : string -> string -> Prop).
Hypothesis R_quiet : forall w w' : World Svc, w_svc w' = w_svc w -> w_calls w' = w_calls w -> R w w'.
Hypothesis R_describe : pym_rel R cw_describe_log_groups.
Hypothesis R_group : forall g tags, pym_rel R (cw_create_log_group g tags).
Hypothesis R_stream : forall g n, Q g n -> pym_rel R (cw_create_log_stream g n).
Hypothesis R_put : forall g n evs tok, Q g n -> pym_rel R (cw_put_log_events g n evs tok).

Lemma rel_print o : pym_rel R (py_print o).
Proof. intros w. by apply R_quiet. Qed.

Lemma rel_putLogEvents g n evs tok : Q g n -> pym_rel R (putLogEvents g n evs tok).
Proof.
  intros Hq. unfold putLogEvents.
  rel_bind; [destruct (py_truthy_token tok); by apply R_put|intros w a w' _].
  rel_bind; [apply rel_print|intros w1 u w1' _].
  destruct (rejectedLogEventsInfo a); [rel_ret|].
  destruct (LogsApi.nextSequenceToken a); [rel_ret|rel_ret].
Qed.

Lemma rel_lambda_handler event context (w : World Svc) :
  (forall nonce, make_nonce (w_words w) (w_drawn w) = inr nonce ->
     Q (config_group w) (config_prefix w ++ "-" ++ nonce) /\ Q (config_group w) "") ->
  R w (lambda_handler json_loads event context w).2.
Proof.
  apply (rel_handler_of_helpers json_loads R Q).
  - intros t. apply rel_print.
  - intros w1. by apply R_quiet.
  - intros w1. by apply R_quiet.
  - intros g. rel_bind; [exact R_describe|intros; rel_ret].
  - intros g. rel_bind; [apply R_group|intros; apply rel_print].
  - intros g n Hq. rel_bind; [by apply R_stream|intros w1 a w1' _].
    rel_bind; [apply rel_print|intros; rel_ret].
  - exact rel_putLogEvents.
Qed.
End RunRelations.

(** ** The trace is answered in kind *)

Section TypedTrace.
Context {Svc : Type} `{!LogsClient Svc}.
Context (json_loads : string -> PyExn + pyval).

#[local] Instance calls_grow_preorder : PreOrder (@calls_grow Svc).
Proof.
  split.
  - intros w. exists []. split; [by rewrite app_nil_r|constructor].
  - intros w1 w2 w3 (n1 & H1 & F1) (n2 & H2 & F2). exists (n1 ++ n2)%list.
    split; [by rewrite H2, H1, app_assoc|by apply Forall_app].
Qed.

(** A call whose answers are all of the call's kind. *)
Lemma grow_cw_call {A} c (wrap : A -> ApiResult) op :
  (forall a, result_fits (c, wrap a) = true) -> pym_rel (@calls_grow Svc) (cw_call c wrap op).
Proof.
  intros Hfit w. unfold cw_call.
  destruct (op (w_svc w)) as [[e|a] s']; eexists; (split; [reflexivity|]);
    repeat constructor; [by destruct c|apply Hfit].
Qed.

(** Whatever the client and the notification, a run of the handler
    only appends to the trace, and every entry it appends pairs a request
    with a response of the request's own kind or with an error:
    [describe_log_groups] with its groups, the creations with response
    metadata, [put_log_events] with its response. *)
Theorem lambda_handler_typed event context (w : World Svc) :
  exists new, w_calls (lambda_handler json_loads event context w).2 = (w_calls w ++ new)%list /\
    Forall (fun e => result_fits e = true) new.
Proof.
  refine (rel_lambda_handler json_loads (@calls_grow Svc) (fun _ _ => True) _ _ _ _ _ event context w _);
    try (intros; apply grow_cw_call; done).
  - intros w1 w2 _ Hc. exists []. rewrite app_nil_r. split; [exact Hc|constructor].
  - done.
Qed.
End TypedTrace.
