(* ===== verification/CallTree.v ===== *)
(** * An invocation as a tree of API requests

    [Handler] runs an invocation to its end against one client: the state
    monad threads the service state through every call.  To interleave
    several invocations against one service, an invocation is written
    here as a tree of requests: a node is one call through [cwlogs] and
    its continuation takes the service's answer, a leaf is the outcome
    with the invocation's own world (environment, clock, random words,
    trace and standard output, without the service: [World unit]).
    [serve] answers one request with a client and [run_tree] answers
    every request of a tree in turn.

    [inv] is the monad of such trees over the local world, with its own
    [let*] in [inv_scope]; [inv_local] runs a computation of [Handler]
    that does not touch the service (printing, the clock, the nonce),
    [inv_call] issues one request and logs it as [cw_call] does.
    [implements t m] states that answering the requests of [t] with the
    client gives what [m] gives on the whole world; it is closed under
    [let*], so the tree version of each function of the handler is
    proved against the function of [Handler] one function at a time.
    [calls_within n t] bounds the number of requests on every path. *)

From stdpp Require Import base list strings gmap.
From Stdlib Require Import String ZArith Lia.
From S2P Require Import Prelude PyVal Nonce LogsApi Handler.

(** ** Requests, answers and trees *)

(** What a request returns when it does not raise. *)
Definition answer_ok (c : ApiCall) : Type :=
  match c with
  | DescribeLogGroups => list LogGroupInfo
  | CreateLogGroup _ _ | CreateLogStream _ _ => ResponseMetadata
  | PutLogEvents _ _ _ _ => PutLogEventsResponse
  end.

(** The answer to a request: a raised [ClientError] is [inl]. *)
Definition answer (c : ApiCall) : Type := PyExn + answer_ok c.

(** The trace entry [cw_call] logs for an answer. *)
Definition answer_result (c : ApiCall) : answer c -> ApiResult :=
  match c return answer c -> ApiResult with
  | DescribeLogGroups => fun a => match a with inl e => RErr e | inr gs => RGroups gs end
  | CreateLogGroup _ _ => fun a => match a with inl e => RErr e | inr m => RMeta m end
  | CreateLogStream _ _ => fun a => match a with inl e => RErr e | inr m => RMeta m end
  | PutLogEvents _ _ _ _ => fun a => match a with inl e => RErr e | inr p => RPut p end
  end.

Inductive call_tree (R : Type) : Type :=
| Done (r : R)
| Call (c : ApiCall) (k : answer c -> call_tree R).
Arguments Done {R} r.
Arguments Call {R} c k.

Fixpoint tree_bind {R S} (t : call_tree R) (f : R -> call_tree S) : call_tree S :=
  match t with
  | Done r => f r
  | Call c k => Call c (fun a => tree_bind (k a) f)
  end.

(** At most [n] requests on every path of the tree. *)
Fixpoint calls_within {R} (n : nat) (t : call_tree R) {struct t} : Prop :=
  match t with
  | Done _ => True
  | Call _ k => match n with O => False | S n' => forall a, calls_within n' (k a) end
  end.

(** ** Answering requests with a client *)

Section Serve.
Context {Svc : Type} `{!LogsClient Svc}.

Definition serve (c : ApiCall) (s : Svc) : answer c * Svc :=
  match c return answer c * Svc with
  | DescribeLogGroups => (describe_log_groups s, s)
  | CreateLogGroup g tags => create_log_group g tags s
  | CreateLogStream g n => create_log_stream g n s
  | PutLogEvents g n evs tok => put_log_events g n evs tok s
  end.

Fixpoint run_tree {R} (t : call_tree R) (s : Svc) : R * Svc :=
  match t with
  | Done r => (r, s)
  | Call c k => let '(a, s') := serve c s in run_tree (k a) s'
  end.
End Serve.

(** Every request on every path satisfies [P] and every leaf [Q]. *)
Fixpoint tree_all {R} (P : ApiCall -> Prop) (Q : R -> Prop) (t : call_tree R) : Prop :=
  match t with
  | Done r => Q r
  | Call c k => P c /\ forall a, tree_all P Q (k a)
  end.

(** ** The monad of an invocation over its local world *)

Abbreviation Loc := (World unit).

Definition inv (A : Type) : Type := Loc -> call_tree (outcome PyExn A * Loc).

Definition inv_ret {A} (a : A) : inv A := fun l => Done (Normal a, l).

Definition inv_bind {A B} (m : inv A) (f : A -> inv B) : inv B :=
  fun l => tree_bind (m l) (fun '(o, l') =>
    match o with
    | Normal a => f a l'
    | Raised e => Done (Raised e, l')
    end).

(** A computation of [Handler] that does not touch the service. *)
Definition inv_local {A} (c : pym Loc PyExn A) : inv A := fun l => Done (c l).

(** One request through [cwlogs], logged in the trace as [cw_call] logs it. *)
Definition inv_call (c : ApiCall) : inv (answer_ok c) :=
  fun l => Call c (fun a =>
    Done (match a with inl e => Raised e | inr x => Normal x end,
          log_call c (answer_result c a) tt l)).

(** An invocation's computation makes at most [n] requests. *)
Definition inv_within {A} (n : nat) (m : inv A) : Prop := forall l, calls_within n (m l).

(** Every request of the computation satisfies [P], and when it
    returns normally its value satisfies [Q]. *)
Definition inv_spec {A} (P : ApiCall -> Prop) (Q : A -> Prop) (m : inv A) : Prop :=
  forall l, tree_all P (fun '(o, _) => match o with Normal a => Q a | Raised _ => True end) (m l).

Declare Scope inv_scope.
Delimit Scope inv_scope with inv.
Notation "'let*' x ':=' c 'in' k" := (inv_bind c (fun x => k))
  (at level 10, x name, c at level 100, k at level 200) : inv_scope.

(** ** Trees against the state monad *)

(** The local world of a world, and a world from a local one. *)
Definition strip {Svc} (w : World Svc) : Loc :=
  mkWorld tt (w_environ w) (w_clock w) (w_ticks w) (w_words w) (w_drawn w) (w_calls w) (w_stdout w).

Section Implements.
Context {Svc : Type} `{!LogsClient Svc}.

(** Answering the requests of [t] from the service of [w] gives the
    outcome of [m] on [w], its local world and its service. *)
Definition implements {A} (t : inv A) (m : pym (World Svc) PyExn A) : Prop :=
  forall w, run_tree (t (strip w)) (w_svc w) = (((m w).1, strip (m w).2), w_svc (m w).2).

End Implements.

(** ** Lemmas *)

Create HintDb implements.

Lemma run_tree_bind {Svc R S} `{!LogsClient Svc} (t : call_tree R) (f : R -> call_tree S) (s : Svc) :
  run_tree (tree_bind t f) s = let '(r, s') := run_tree t s in run_tree (f r) s'.
Proof.
  revert s. induction t as [r|c k IH]; intros s; [done|]. cbn. destruct (serve c s). apply IH.
Qed.

Lemma calls_within_mono {R} (n n' : nat) (t : call_tree R) : n <= n' -> calls_within n t -> calls_within n' t.
Proof.
  revert n n'. induction t as [r|c k IH]; intros [|n] [|n'] Hle; cbn; try done; [lia|].
  intros H a. apply (IH a n); [lia|apply H].
Qed.

Lemma calls_within_bind {R S} (n k : nat) (t : call_tree R) (f : R -> call_tree S) :
  calls_within n t -> (forall r, calls_within k (f r)) -> calls_within (n + k) (tree_bind t f).
Proof.
  revert n. induction t as [r|c g IH]; intros n Ht Hf; cbn.
  - apply (calls_within_mono k); [lia|apply Hf].
  - destruct n as [|n]; [done|]. intros a. by apply IH.
Qed.

Lemma inv_within_bind {A B} (n k : nat) (m : inv A) (f : A -> inv B) :
  inv_within n m -> (forall a, inv_within k (f a)) -> inv_within (n + k) (inv_bind m f).
Proof.
  intros Hm Hf l. apply calls_within_bind; [apply Hm|]. intros [[a|e] l']; [apply Hf|done].
Qed.

Lemma inv_within_ret {A} (n : nat) (a : A) : inv_within n (inv_ret a).
Proof. by intros l. Qed.

Lemma inv_within_local {A} (n : nat) (c : pym Loc PyExn A) : inv_within n (inv_local c).
Proof. by intros l. Qed.

Lemma inv_within_call (c : ApiCall) : inv_within 1 (inv_call c).
Proof. by intros l a. Qed.

(** A local step that returns [a] is followed by what follows [a]. *)
Lemma inv_within_bind_local {A B} (n : nat) (c : pym Loc PyExn A) (f : A -> inv B) :
  (forall a l l', c l = (Normal a, l') -> calls_within n (f a l')) -> inv_within n (inv_bind (inv_local c) f).
Proof. intros Hf l. unfold inv_bind, inv_local. cbn. destruct (c l) as [[a|e] l'] eqn:E; [by eapply Hf|done]. Qed.

Lemma tree_all_bind {R S} (P : ApiCall -> Prop) (Q : R -> Prop) (Q' : S -> Prop)
    (t : call_tree R) (f : R -> call_tree S) :
  tree_all P Q t -> (forall r, Q r -> tree_all P Q' (f r)) -> tree_all P Q' (tree_bind t f).
Proof.
  induction t as [r|c k IH]; cbn; [auto|]. intros [Hc Hk] Hf. split; [done|]. intros a. by apply IH.
Qed.

Lemma tree_all_impl {R} (P P' : ApiCall -> Prop) (Q : R -> Prop) (t : call_tree R) :
  (forall c, P c -> P' c) -> tree_all P Q t -> tree_all P' Q t.
Proof. intros HP. induction t as [r|c k IH]; cbn; [done|]. intros [Hc Hk]. split; [auto|]. intros a. apply IH, Hk. Qed.

Lemma tree_all_post {R} (P : ApiCall -> Prop) (Q Q' : R -> Prop) (t : call_tree R) :
  tree_all P Q t -> (forall r, Q r -> Q' r) -> tree_all P Q' t.
Proof. intros Ht HQ. induction t as [r|c k IH]; cbn in *; [auto|]. destruct Ht as [Hc Hk]. split; [done|]. intros a. apply IH, Hk. Qed.

Lemma inv_spec_bind {A B} (P : ApiCall -> Prop) (Q : A -> Prop) (Q' : B -> Prop) (m : inv A) (f : A -> inv B) :
  inv_spec P Q m -> (forall a, Q a -> inv_spec P Q' (f a)) -> inv_spec P Q' (inv_bind m f).
Proof.
  intros Hm Hf l. apply (tree_all_bind _ _ _ _ _ (Hm l)). intros [[a|e] l'] Ha; [by apply Hf|done].
Qed.

Lemma inv_spec_ret {A} (P : ApiCall -> Prop) (Q : A -> Prop) (a : A) : Q a -> inv_spec P Q (inv_ret a).
Proof. by intros Ha l. Qed.

Lemma inv_spec_local {A} (P : ApiCall -> Prop) (Q : A -> Prop) (c : pym Loc PyExn A) :
  (forall a l l', c l = (Normal a, l') -> Q a) -> inv_spec P Q (inv_local c).
Proof. intros HQ l. cbn. destruct (c l) as [[a|e] l'] eqn:E; [by eapply HQ|done]. Qed.

Lemma inv_spec_call (P : ApiCall -> Prop) (c : ApiCall) (Q : answer_ok c -> Prop) :
  P c -> (forall a, Q a) -> inv_spec P Q (inv_call c).
Proof. intros Hc HQ l. split; [done|]. intros [e|a]; cbn; auto. Qed.

Lemma tree_all_bind_local {A B} (P : ApiCall -> Prop) (Q : B -> Prop) (c : pym Loc PyExn A) (f : A -> inv B) (l : Loc) :
  (forall a l', c l = (Normal a, l') ->
     tree_all P (fun '(o, _) => match o with Normal b => Q b | Raised _ => True end) (f a l')) ->
  tree_all P (fun '(o, _) => match o with Normal b => Q b | Raised _ => True end) (inv_bind (inv_local c) f l).
Proof. intros Hf. unfold inv_bind, inv_local. cbn. destruct (c l) as [[a|e] l'] eqn:E; [by apply Hf|done]. Qed.

Section ImplementsLemmas.
Context {Svc : Type} `{!LogsClient Svc}.

Lemma implements_ret {A} (a : A) : implements (Svc:=Svc) (inv_ret a) (pym_ret a).
Proof. by intros w. Qed.

Lemma implements_bind {A B} (t : inv A) (m : pym (World Svc) PyExn A)
    (f : A -> inv B) (g : A -> pym (World Svc) PyExn B) :
  implements t m -> (forall a, implements (f a) (g a)) -> implements (inv_bind t f) (pym_bind m g).
Proof.
  intros Hm Hf w. unfold inv_bind, pym_bind. rewrite run_tree_bind, Hm.
  destruct (m w) as [[a|e] w']; cbn; [apply Hf|done].
Qed.

Lemma implements_raise {A} (e : PyExn) : implements (Svc:=Svc) (A:=A) (inv_local (pym_raise e)) (pym_raise e).
Proof. by intros w. Qed.

Lemma implements_lift {A} (r : PyExn + A) : implements (Svc:=Svc) (inv_local (pym_lift r)) (pym_lift r).
Proof. by intros w; destruct r. Qed.

Lemma implements_print (o : Output) : implements (Svc:=Svc) (inv_local (py_print o)) (py_print o).
Proof. by intros w. Qed.

Lemma implements_environ_get (k : string) : implements (Svc:=Svc) (inv_local (environ_get k)) (environ_get k).
Proof. by intros w. Qed.

Lemma implements_epoch_ms : implements (Svc:=Svc) (inv_local epoch_ms) epoch_ms.
Proof. by intros w. Qed.

Lemma implements_draw_nonce : implements (Svc:=Svc) (inv_local draw_nonce) draw_nonce.
Proof. intros w. unfold inv_local, draw_nonce. cbn. by destruct (make_nonce _ _). Qed.

Lemma implements_describe : implements (inv_call DescribeLogGroups) cw_describe_log_groups.
Proof. intros w. unfold cw_describe_log_groups, cw_call. cbn. by destruct (describe_log_groups (w_svc w)). Qed.

Lemma implements_create_group (g : string) (tags : list (string * string)) :
  implements (inv_call (CreateLogGroup g tags)) (cw_create_log_group g tags).
Proof. intros w. unfold cw_create_log_group, cw_call. cbn. by destruct (create_log_group g tags (w_svc w)) as [[]]. Qed.

Lemma implements_create_stream (g n : string) :
  implements (inv_call (CreateLogStream g n)) (cw_create_log_stream g n).
Proof. intros w. unfold cw_create_log_stream, cw_call. cbn. by destruct (create_log_stream g n (w_svc w)) as [[]]. Qed.

Lemma implements_put (g n : string) (evs : list LogEvent) (tok : option string) :
  implements (inv_call (PutLogEvents g n evs tok)) (cw_put_log_events g n evs tok).
Proof. intros w. unfold cw_put_log_events, cw_call. cbn. by destruct (put_log_events g n evs tok (w_svc w)) as [[]]. Qed.

End ImplementsLemmas.

#[export] Hint Resolve implements_ret implements_raise implements_lift implements_print
  implements_environ_get implements_epoch_ms implements_draw_nonce implements_describe
  implements_create_group implements_create_stream implements_put : implements.
#[export] Hint Resolve inv_within_ret inv_within_local inv_within_call : implements.

(** Prove [implements] through [let*], [if] and [match]. *)
Ltac implements_step :=
  repeat match goal with
  | |- implements (inv_bind _ _) (pym_bind _ _) => apply implements_bind; [|intros ?]
  | |- implements (if ?b then _ else _) (if ?b then _ else _) => destruct b
  | |- implements (match ?x with _ => _ end) (match ?x with _ => _ end) => destruct x
  | |- implements _ _ => solve [eauto with implements]
  end.
