(* ===== verification/HandlerTree.v ===== *)
(** * The handler as a tree of requests

    The functions of [Handler] written in the monad [inv] of [CallTree]:
    the same code, line for line, with each call through [cwlogs] a
    request of the tree ([inv_call]) and the rest of the code run on the
    invocation's local world ([inv_local]).  [lambda_handler_tree]
    implements [lambda_handler] for every client ([lambda_handler_tree_ok]),
    and an invocation makes at most three requests before its loop and
    one per message ([lambda_handler_tree_within]); its requests create
    or write no stream but the one it draws, [prefix + "-" + nonce], and
    [""] ([lambda_handler_tree_writes]). *)

From stdpp Require Import base list strings gmap.
From Stdlib Require Import String ZArith Lia.
From S2P Require Import Prelude PyStr PyVal Nonce LogsApi Handler CallTree.

Local Open Scope string_scope.
Local Open Scope inv_scope.

Section HandlerTree.
(** [json.loads] on a [str]. *)
Context (json_loads : string -> PyExn + pyval).

Definition createLogGroup_tree (logGroupName : string) : inv unit :=
  let* createLogGroupResponse := inv_call (CreateLogGroup logGroupName (group_tags logGroupName)) in
  inv_local (py_print (PrintResponse ("createLogGroupResponse - " ++ py_str (meta_response_pyval createLogGroupResponse)))).

Definition ifLogGroupExists_tree (logGroupName : string) : inv bool :=
  let* groups := inv_call DescribeLogGroups in
  inv_ret (any_group_contains logGroupName groups).

Definition createLogStream_tree (logGroupName logStreamName : string) : inv string :=
  let* createLogStreamResponse := inv_call (CreateLogStream logGroupName logStreamName) in
  let* _ := inv_local (py_print (PrintResponse ("createLogStreamResponse - " ++ py_str (meta_response_pyval createLogStreamResponse)))) in
  inv_ret (if (HTTPStatusCode createLogStreamResponse =? 200)%Z then logStreamName else "").

Definition putLogEvents_tree (logGroupName logStreamName : string)
    (logEvent : list LogEvent) (nextSequenceToken : option string) : inv (option string) :=
  let* putLogEventsResponse :=
    if py_truthy_token nextSequenceToken
    then (inv_call (PutLogEvents logGroupName logStreamName logEvent nextSequenceToken)
            : inv PutLogEventsResponse)
    else inv_call (PutLogEvents logGroupName logStreamName logEvent None) in
  let* _ := inv_local (py_print (PrintResponse ("putLogEventsResponse - " ++ py_str (put_response_pyval putLogEventsResponse)))) in
  match rejectedLogEventsInfo putLogEventsResponse with
  | None =>
      match LogsApi.nextSequenceToken putLogEventsResponse with
      | Some t => inv_ret (Some t)
      | None => inv_local (pym_raise (KeyError "nextSequenceToken"))
      end
  | Some _ => inv_ret None
  end.

Fixpoint put_messages_tree (logGroupName logStreamName : string)
    (messages : list pyval) (nextSequenceToken : option string) : inv (option pyval) :=
  match messages with
  | [] => inv_ret None
  | message :: rest =>
      let* epoch_time := inv_local epoch_ms in
      let logEvent := [{| timestamp := epoch_time; LogsApi.message := py_str message |}] in
      let* tok := putLogEvents_tree logGroupName logStreamName logEvent nextSequenceToken in
      match tok with
      | None => inv_ret (Some (PBool false))
      | Some _ => put_messages_tree logGroupName logStreamName rest tok
      end
  end.

Definition open_stream_tree (logGroupName logStreamName : string) : inv string :=
  let* found := ifLogGroupExists_tree logGroupName in
  if found then createLogStream_tree logGroupName logStreamName
  else
    let* _ := createLogGroup_tree logGroupName in
    createLogStream_tree logGroupName logStreamName.

Definition lambda_handler_tree (event context : pyval) : inv pyval :=
  let nextSequenceToken : option string := None in
  let* g := inv_local (environ_get "CloudWatchLogGroupName") in
  let logGroupName := py_str_opt g in
  let* p := inv_local (environ_get "CloudWatchLogStreamNamePrefix") in
  let logStreamNamePrefix := py_str_opt p in
  let* nonce := inv_local draw_nonce in
  let* logEvents := inv_local (pym_lift (decode_events json_loads event)) in
  let* n := inv_local (pym_lift (py_len logEvents)) in
  if (0 <? n)%nat then
    let* logStreamName := open_stream_tree logGroupName (logStreamNamePrefix ++ "-" ++ nonce) in
    let* _ := inv_local (py_print (PrintText (py_str_opt (Some logGroupName) ++ " - "
                                                ++ py_str_opt (Some logStreamName)))) in
    let* messages := inv_local (pym_lift (py_iter logEvents)) in
    let* r := put_messages_tree logGroupName logStreamName messages nextSequenceToken in
    inv_ret (match r with Some v => v | None => PNone end)
  else inv_ret PNone.

(** The number of messages the loop of an invocation goes through. *)
Definition messages_of (event : pyval) : nat :=
  match decode_events json_loads event with
  | inr v => match py_iter v with inr ms => List.length ms | inl _ => 0 end
  | inl _ => 0
  end.

(** The stream name an invocation draws: [prefix + "-" + nonce] from
    its environment and its random words. *)
Definition stream_name_of (l : Loc) : string :=
  py_str_opt (w_environ l !! "CloudWatchLogStreamNamePrefix") ++ "-" ++
  match make_nonce (w_words l) (w_drawn l) with inr n => n | inl _ => "" end.

(** A request creates or writes no stream but [sn] and [""]. *)
Definition writes_only (sn : string) (c : ApiCall) : Prop :=
  match c with
  | CreateLogStream _ n | PutLogEvents _ n _ _ => n = sn \/ n = ""
  | _ => True
  end.

End HandlerTree.

(** ** The trees implement the handler *)

Section TreeImplements.
Context {Svc : Type} `{!LogsClient Svc}.
Context (json_loads : string -> PyExn + pyval).

Lemma createLogGroup_tree_ok (g : string) : implements (createLogGroup_tree g) (createLogGroup (Svc:=Svc) g).
Proof. unfold createLogGroup_tree, createLogGroup. implements_step. Qed.

Lemma ifLogGroupExists_tree_ok (g : string) :
  implements (ifLogGroupExists_tree g) (ifLogGroupExists (Svc:=Svc) g).
Proof. unfold ifLogGroupExists_tree, ifLogGroupExists. implements_step. Qed.

Lemma createLogStream_tree_ok (g n : string) :
  implements (createLogStream_tree g n) (createLogStream (Svc:=Svc) g n).
Proof. unfold createLogStream_tree, createLogStream. implements_step. Qed.

Lemma putLogEvents_tree_ok (g n : string) (evs : list LogEvent) (tok : option string) :
  implements (putLogEvents_tree g n evs tok) (putLogEvents (Svc:=Svc) g n evs tok).
Proof. unfold putLogEvents_tree, putLogEvents. implements_step. Qed.

Lemma put_messages_tree_ok (g n : string) (ms : list pyval) (tok : option string) :
  implements (put_messages_tree g n ms tok) (put_messages (Svc:=Svc) g n ms tok).
Proof.
  revert tok. induction ms as [|m ms IH]; intros tok; cbn [put_messages_tree put_messages]; [implements_step|].
  apply implements_bind; [implements_step|intros t].
  apply implements_bind; [apply putLogEvents_tree_ok|intros [r|]]; [apply IH|implements_step].
Qed.

Lemma open_stream_tree_ok (g n : string) : implements (open_stream_tree g n) (open_stream (Svc:=Svc) g n).
Proof.
  unfold open_stream_tree, open_stream.
  apply implements_bind; [apply ifLogGroupExists_tree_ok|intros [|]]; [apply createLogStream_tree_ok|].
  apply implements_bind; [apply createLogGroup_tree_ok|intros _]. apply createLogStream_tree_ok.
Qed.

(** For every client, answering the requests of an invocation's tree
    with the client gives exactly the run of [lambda_handler]: the same
    outcome, the same local world (trace, output, clock, random words)
    and the same service state. *)
Theorem lambda_handler_tree_ok (event context : pyval) :
  implements (lambda_handler_tree json_loads event context) (lambda_handler (Svc:=Svc) json_loads event context).
Proof.
  unfold lambda_handler_tree, lambda_handler.
  do 5 (apply implements_bind; [implements_step|intros ?]).
  destruct (0 <? _)%nat; [|implements_step].
  apply implements_bind; [apply open_stream_tree_ok|intros ?].
  do 2 (apply implements_bind; [implements_step|intros ?]).
  apply implements_bind; [apply put_messages_tree_ok|intros ?]. implements_step.
Qed.

End TreeImplements.

(** ** How many requests an invocation makes *)

Section TreeWithin.
Context (json_loads : string -> PyExn + pyval).

Lemma putLogEvents_tree_within (g n : string) (evs : list LogEvent) (tok : option string) :
  inv_within 1 (putLogEvents_tree g n evs tok).
Proof.
  unfold putLogEvents_tree. apply (inv_within_bind 1 0); [by destruct (py_truthy_token tok); auto with implements|].
  intros r. apply (inv_within_bind 0 0); [auto with implements|intros _].
  destruct (rejectedLogEventsInfo r); [|destruct (LogsApi.nextSequenceToken r)]; auto with implements.
Qed.

Lemma put_messages_tree_within (g n : string) (ms : list pyval) (tok : option string) :
  inv_within (List.length ms) (put_messages_tree g n ms tok).
Proof.
  revert tok. induction ms as [|m ms IH]; intros tok; cbn [put_messages_tree List.length]; [auto with implements|].
  apply (inv_within_bind 0 (S (List.length ms))); [auto with implements|intros t].
  apply (inv_within_bind 1 (List.length ms)); [apply putLogEvents_tree_within|intros [r|]]; [apply IH|auto with implements].
Qed.

Lemma open_stream_tree_within (g n : string) : inv_within 3 (open_stream_tree g n).
Proof.
  unfold open_stream_tree, ifLogGroupExists_tree, createLogStream_tree, createLogGroup_tree.
  apply (inv_within_bind 1 2); [apply (inv_within_bind 1 0); auto with implements|intros [|]].
  - apply (inv_within_bind 1 1); [auto with implements|intros ?].
    apply (inv_within_bind 0 1); auto with implements.
  - apply (inv_within_bind 1 1); [apply (inv_within_bind 1 0); auto with implements|intros _].
    apply (inv_within_bind 1 0); [auto with implements|intros ?].
    apply (inv_within_bind 0 0); auto with implements.
Qed.

(** Termination of an invocation, with its bound: whatever the service
    answers, an invocation makes at most [3 + k] requests, where [k] is
    the number of messages its loop goes through: one [describe], at most
    one group creation and one stream creation, then one [put] per
    message. *)
Theorem lambda_handler_tree_within (event context : pyval) :
  inv_within (3 + messages_of json_loads event) (lambda_handler_tree json_loads event context).
Proof.
  unfold lambda_handler_tree, messages_of.
  do 3 (apply inv_within_bind_local; intros ? ? ? ?).
  apply inv_within_bind_local. intros v ? ?. destruct (decode_events json_loads event) as [e|v'] eqn:Hd;
    [done|injection 1 as -> _].
  apply inv_within_bind_local. intros k ? ? _. destruct (0 <? k)%nat; [|done].
  apply (inv_within_bind 3); [apply open_stream_tree_within|intros sn].
  apply inv_within_bind_local. intros ? ? ? _.
  apply inv_within_bind_local. intros ms ? ?. destruct (py_iter v); [done|injection 1 as -> _].
  rewrite <- (Nat.add_0_r (List.length ms)). apply (inv_within_bind (List.length ms) 0); [apply put_messages_tree_within|auto with implements].
Qed.

End TreeWithin.

(** The tree depends on the decoder only through what it decodes. *)
Lemma lambda_handler_tree_decode (json_loads json_loads' : string -> PyExn + pyval) (event context : pyval) :
  decode_events json_loads event = decode_events json_loads' event ->
  lambda_handler_tree json_loads event context = lambda_handler_tree json_loads' event context.
Proof. intros Hd. unfold lambda_handler_tree. by rewrite Hd. Qed.

(** ** Which streams an invocation writes *)

Section TreeWrites.
Context (json_loads : string -> PyExn + pyval).

Lemma putLogEvents_tree_writes (sn g n : string) (evs : list LogEvent) (tok : option string) :
  n = sn \/ n = "" -> inv_spec (writes_only sn) (fun _ => True) (putLogEvents_tree g n evs tok).
Proof.
  intros Hn. unfold putLogEvents_tree.
  apply (inv_spec_bind _ (fun _ => True)); [destruct (py_truthy_token tok); by apply inv_spec_call|intros r _].
  apply (inv_spec_bind _ (fun _ => True)); [by apply inv_spec_local|intros _ _].
  destruct (rejectedLogEventsInfo r); [|destruct (LogsApi.nextSequenceToken r)];
    [by apply inv_spec_ret..|by apply inv_spec_local].
Qed.

Lemma put_messages_tree_writes (sn g n : string) (ms : list pyval) (tok : option string) :
  n = sn \/ n = "" -> inv_spec (writes_only sn) (fun _ => True) (put_messages_tree g n ms tok).
Proof.
  intros Hn. revert tok. induction ms as [|m ms IH]; intros tok; cbn [put_messages_tree]; [by apply inv_spec_ret|].
  apply (inv_spec_bind _ (fun _ => True)); [by apply inv_spec_local|intros t _].
  apply (inv_spec_bind _ (fun _ => True)); [by apply putLogEvents_tree_writes|intros [r|] _]; [apply IH|by apply inv_spec_ret].
Qed.

Lemma open_stream_tree_writes (g n : string) :
  inv_spec (writes_only n) (fun r => r = n \/ r = "") (open_stream_tree g n).
Proof.
  unfold open_stream_tree, ifLogGroupExists_tree, createLogGroup_tree, createLogStream_tree.
  assert (Hcs : inv_spec (writes_only n) (fun r => r = n \/ r = "")
                  (let* resp := inv_call (CreateLogStream g n) in
                   let* _ := inv_local (py_print (PrintResponse ("createLogStreamResponse - " ++ py_str (meta_response_pyval resp)))) in
                   inv_ret (if (HTTPStatusCode resp =? 200)%Z then n else ""))%inv).
  { apply (inv_spec_bind _ (fun _ => True)); [apply inv_spec_call; cbn; auto|intros r _].
    apply (inv_spec_bind _ (fun _ => True)); [by apply inv_spec_local|intros _ _].
    apply inv_spec_ret. destruct (HTTPStatusCode r =? 200)%Z; auto. }
  apply (inv_spec_bind _ (fun _ => True)); [apply (inv_spec_bind _ (fun _ => True)); [by apply inv_spec_call|intros; by apply inv_spec_ret]|].
  intros [|] _; [exact Hcs|].
  apply (inv_spec_bind _ (fun _ => True)); [|intros _ _; exact Hcs].
  apply (inv_spec_bind _ (fun _ => True)); [by apply inv_spec_call|intros; by apply inv_spec_local].
Qed.

(** Every request of an invocation creates or writes no stream but the
    one it draws, [prefix + "-" + nonce], and [""]. *)
Lemma lambda_handler_tree_writes (event context : pyval) (l : Loc) :
  tree_all (writes_only (stream_name_of l)) (fun _ => True) (lambda_handler_tree json_loads event context l).
Proof.
  unfold lambda_handler_tree.
  apply (tree_all_post _ (fun '(o, _) => match o with Normal _ => True | Raised _ => True end)); [|done].
  apply (tree_all_bind_local _ (fun _ => True)). intros g l1 Hg. injection Hg as Hg <-.
  apply (tree_all_bind_local _ (fun _ => True)). intros p l2 Hp. injection Hp as Hp <-.
  apply (tree_all_bind_local _ (fun _ => True)). intros x l3 Hn.
  unfold draw_nonce in Hn. destruct (make_nonce (w_words l) (w_drawn l)) as [e|nonce] eqn:Hm; [done|].
  injection Hn as <- <-.
  assert (Hrest : inv_spec (writes_only (stream_name_of l)) (fun _ => True)
    (let* logEvents := inv_local (pym_lift (decode_events json_loads event)) in
     let* n := inv_local (pym_lift (py_len logEvents)) in
     if (0 <? n)%nat then
       let* logStreamName := open_stream_tree (py_str_opt g) (py_str_opt p ++ "-" ++ nonce) in
       let* _ := inv_local (py_print (PrintText (py_str_opt (Some (py_str_opt g)) ++ " - "
                                                   ++ py_str_opt (Some logStreamName)))) in
       let* messages := inv_local (pym_lift (py_iter logEvents)) in
       let* r := put_messages_tree (py_str_opt g) logStreamName messages None in
       inv_ret (match r with Some v => v | None => PNone end)
     else inv_ret PNone)%inv).
  { apply (inv_spec_bind _ (fun _ => True)); [by apply inv_spec_local|intros v _].
    apply (inv_spec_bind _ (fun _ => True)); [by apply inv_spec_local|intros k _].
    destruct (0 <? k)%nat; [|by apply inv_spec_ret].
    assert (Hsn : stream_name_of l = py_str_opt p ++ "-" ++ nonce) by (unfold stream_name_of; by rewrite Hp, Hm).
    rewrite Hsn.
    apply (inv_spec_bind _ (fun r => r = py_str_opt p ++ "-" ++ nonce \/ r = "")); [apply open_stream_tree_writes|intros sn Hsn'].
    apply (inv_spec_bind _ (fun _ => True)); [by apply inv_spec_local|intros _ _].
    apply (inv_spec_bind _ (fun _ => True)); [by apply inv_spec_local|intros ms _].
    apply (inv_spec_bind _ (fun _ => True)); [by apply put_messages_tree_writes|intros; by apply inv_spec_ret]. }
  apply Hrest.
Qed.

End TreeWrites.
