(* ===== verification/Concurrent.v ===== *)
(** * Concurrent invocations against one service

    AWS Lambda runs invocations of the handler concurrently, each in its
    own process with its own environment, clock, random state and output,
    all of them calling the same CloudWatch Logs service.  A configuration
    is the service state and one request tree ([HandlerTree]) per
    invocation; a step lets the service answer the pending request of one
    invocation ([step_at]), so a run is an interleaving of the
    invocations' calls in any order a scheduler picks.

    Liveness: whatever the schedule, every run from a configuration of
    invocations is finite, at most [3 + k] steps per invocation of [k]
    messages, from every reachable configuration a run leads to one where
    every invocation has returned, and a configuration with no step left
    is one where every invocation has returned ([invocations_finish]).
    An invocation run alone is [lambda_handler]
    ([solo_invocation_is_handler]).  Isolation: for a client that keeps
    the frame laws of [LogsContract], a step of one invocation changes no
    stream another invocation draws ([concurrent_streams_isolated]). *)

From stdpp Require Import base list strings gmap relations.
From Stdlib Require Import String ZArith Lia.
From S2P Require Import Prelude PyVal LogsApi Handler CallTree HandlerTree.

Section Concurrent.
Context {Svc : Type} `{!LogsClient Svc}.

(** An invocation: the requests it has left and its outcome at the end. *)
Abbreviation invocation := (call_tree (outcome PyExn pyval * Loc)).

Record config := Cfg {
  cfg_svc : Svc;
  cfg_invs : list invocation;
}.

(** The service answers the pending request of invocation [i]. *)
Definition step_at (i : nat) (cfg : config) : option config :=
  match cfg_invs cfg !! i with
  | Some (Call c k) =>
      let '(a, s') := serve c (cfg_svc cfg) in Some (Cfg s' (<[i := k a]> (cfg_invs cfg)))
  | _ => None
  end.

Definition cstep (cfg cfg' : config) : Prop := exists i, step_at i cfg = Some cfg'.

(** A schedule: the invocations whose requests are answered, in order. *)
Fixpoint run_schedule (sched : list nat) (cfg : config) : option config :=
  match sched with
  | [] => Some cfg
  | i :: rest => step_at i cfg ≫= run_schedule rest
  end.

Definition returned (t : invocation) : bool :=
  match t with Done _ => true | Call _ _ => false end.

Definition all_returned (cfg : config) : Prop := Forall (fun t => returned t = true) (cfg_invs cfg).

(** What an invocation returned, if it has. *)
Definition outcome_of (t : invocation) : option (outcome PyExn pyval) :=
  match t with Done (o, _) => Some o | Call _ _ => None end.

(** The configuration where each invocation [(event, context, local
    world)] of [starts] is about to run, and the bound on its steps. *)
Definition start_config (json_loads : string -> PyExn + pyval) (s : Svc)
    (starts : list (pyval * pyval * Loc)) : config :=
  Cfg s (map (fun '(e, ctx, l) => lambda_handler_tree json_loads e ctx l) starts).

Definition start_bound (json_loads : string -> PyExn + pyval) (starts : list (pyval * pyval * Loc)) : nat :=
  sum_list (map (fun '(e, _, _) => 3 + messages_of json_loads e) starts).

(** Each invocation's requests write only the stream its local world draws. *)
Definition writes_own (locs : list Loc) (cfg : config) : Prop :=
  Forall2 (fun l t => tree_all (writes_only (stream_name_of l)) (fun _ => True) t) locs (cfg_invs cfg).

(** ** Steps use up the invocations' requests *)

Lemma sum_list_insert_pred (bs : list nat) (i b : nat) :
  bs !! i = Some (S b) -> S (sum_list (<[i := b]> bs)) = sum_list bs.
Proof. revert i. induction bs as [|x bs IH]; intros [|i] Hi; cbn in *; simplify_eq; [done|]. rewrite <- (IH i Hi). by rewrite Nat.add_succ_r. Qed.

Lemma step_within (bs : list nat) (i : nat) (cfg cfg' : config) :
  Forall2 calls_within bs (cfg_invs cfg) -> step_at i cfg = Some cfg' ->
  exists bs', Forall2 calls_within bs' (cfg_invs cfg') /\ S (sum_list bs') = sum_list bs.
Proof.
  intros Hb. unfold step_at. destruct (cfg_invs cfg !! i) as [[r|c k]|] eqn:Hi; try done.
  destruct (serve c (cfg_svc cfg)) as [a s'] eqn:Hs. intros [= <-].
  destruct (Forall2_lookup_r _ _ _ _ _ Hb Hi) as ([|b] & Hbi & Hw); [done|].
  exists (<[i := b]> bs). split; [by apply Forall2_insert|]. by apply sum_list_insert_pred.
Qed.

Lemma nsteps_within (bs : list nat) (n : nat) (cfg cfg' : config) :
  Forall2 calls_within bs (cfg_invs cfg) -> nsteps cstep n cfg cfg' -> n <= sum_list bs.
Proof.
  intros Hb Hn. revert bs Hb. induction Hn as [cfg|n cfg1 cfg2 cfg3 [i Hi] _ IH]; intros bs Hb; [lia|].
  destruct (step_within bs i cfg1 cfg2 Hb Hi) as (bs' & Hb' & Hsum). specialize (IH bs' Hb'). lia.
Qed.

Lemma rtc_within (bs : list nat) (cfg cfg' : config) :
  Forall2 calls_within bs (cfg_invs cfg) -> rtc cstep cfg cfg' ->
  exists bs', Forall2 calls_within bs' (cfg_invs cfg').
Proof.
  intros Hb Hr. revert bs Hb. induction Hr as [cfg|cfg1 cfg2 cfg3 [i Hi] _ IH]; intros bs Hb; [by exists bs|].
  destruct (step_within bs i cfg1 cfg2 Hb Hi) as (bs' & Hb' & _). by apply (IH bs').
Qed.

(** Either every invocation has returned, or one has a pending request
    and the service answers it. *)
Lemma returned_or_step (cfg : config) : all_returned cfg \/ exists cfg', cstep cfg cfg'.
Proof.
  destruct (list_find (fun t => returned t = false) (cfg_invs cfg)) as [[i t]|] eqn:E.
  - apply list_find_Some in E as (Hi & Ht & _). destruct t as [r|c k]; [done|]. right.
    destruct (serve c (cfg_svc cfg)) as [a s'] eqn:Hs. eexists. exists i. unfold step_at. by rewrite Hi, Hs.
  - left. apply list_find_None in E. eapply Forall_impl; [exact E|]. intros [] ?; cbn in *; [done|congruence].
Qed.

Lemma stuck_returned (cfg : config) : (forall cfg', ~ cstep cfg cfg') -> all_returned cfg.
Proof. intros Hstuck. destruct (returned_or_step cfg) as [H|[cfg' H]]; [done|by destruct (Hstuck cfg')]. Qed.

Lemma eventually_returned (bs : list nat) (cfg : config) :
  Forall2 calls_within bs (cfg_invs cfg) -> exists cfg', rtc cstep cfg cfg' /\ all_returned cfg'.
Proof.
  remember (sum_list bs) as m eqn:Hm. revert bs cfg Hm.
  induction m as [m IH] using lt_wf_ind; intros bs cfg -> Hb.
  destruct (returned_or_step cfg) as [Hd|[cfg1 [i Hi]]]; [exists cfg; split; [constructor|done]|].
  destruct (step_within bs i cfg cfg1 Hb Hi) as (bs' & Hb' & Hsum).
  destruct (IH (sum_list bs') ltac:(lia) bs' cfg1 eq_refl Hb') as (cfg' & Hr & Hd).
  exists cfg'. split; [|done]. eapply rtc_l; [by exists i|done].
Qed.

Lemma start_within (json_loads : string -> PyExn + pyval) (s : Svc) (starts : list (pyval * pyval * Loc)) :
  Forall2 calls_within (map (fun '(e, _, _) => 3 + messages_of json_loads e) starts)
    (cfg_invs (start_config json_loads s starts)).
Proof.
  unfold start_config. cbn. induction starts as [|[[e ctx] l] starts IH]; cbn; [constructor|].
  constructor; [exact (lambda_handler_tree_within json_loads e ctx l)|exact IH].
Qed.


(** Running invocation [i] alone answers its requests one after the
    other, as [run_tree] does. *)
Lemma run_schedule_solo (t : invocation) (n i : nat) (cfg : config) :
  cfg_invs cfg !! i = Some t -> calls_within n t ->
  exists m, m <= n /\ run_schedule (replicate m i) cfg =
    Some (Cfg (run_tree t (cfg_svc cfg)).2 (<[i := Done (run_tree t (cfg_svc cfg)).1]> (cfg_invs cfg))).
Proof.
  revert n cfg. induction t as [r|c k IH]; intros n [s invs] Hi Hn; cbn in Hi |- *.
  - exists 0. split; [lia|]. cbn. by rewrite list_insert_id.
  - destruct n as [|n]; [done|]. destruct (serve c s) as [a s'] eqn:Hs.
    destruct (IH a n (Cfg s' (<[i := k a]> invs))) as (m & Hm & Hrun); [cbn; apply list_lookup_insert_eq; exact (lookup_lt_Some _ _ _ Hi)|apply Hn|].
    exists (S m). split; [lia|]. cbn. unfold step_at. cbn. rewrite Hi, Hs. cbn.
    rewrite Hrun. cbn. by rewrite list_insert_insert_eq.
Qed.

(** C13: liveness of concurrent invocations.  For every client and every
    list of invocations started together against one service, under
    every schedule: a run makes at most [3 + k] steps per invocation of
    [k] messages, so every run is finite; from every configuration a run
    reaches, the service can answer the pending requests until every
    invocation has returned; and a configuration in which no request is
    pending is one in which every invocation has returned. *)
Theorem invocations_finish (json_loads : string -> PyExn + pyval) (s : Svc)
    (starts : list (pyval * pyval * Loc)) :
  (forall n cfg, nsteps cstep n (start_config json_loads s starts) cfg -> n <= start_bound json_loads starts) /\
  (forall cfg, rtc cstep (start_config json_loads s starts) cfg ->
     exists cfg', rtc cstep cfg cfg' /\ all_returned cfg') /\
  (forall cfg, rtc cstep (start_config json_loads s starts) cfg ->
     (forall cfg', ~ cstep cfg cfg') -> all_returned cfg).
Proof.
  pose proof (start_within json_loads s starts) as Hb. split; [|split].
  - intros n cfg. by apply nsteps_within.
  - intros cfg Hr. destruct (rtc_within _ _ _ Hb Hr) as [bs' Hb']. by apply (eventually_returned bs').
  - intros cfg _. apply stuck_returned.
Qed.

(** An invocation that runs alone is the handler.  When the
    scheduler answers the requests of one invocation one after the other,
    with nothing interleaved, the invocation ends after at most
    [3 + k] steps exactly as [lambda_handler] ends on the whole world:
    the same outcome, the same trace, output, clock and random words, and
    the same service state; the other invocations are untouched. *)
Theorem solo_invocation_is_handler (json_loads : string -> PyExn + pyval) (invs : list invocation)
    (i : nat) (event context : pyval) (w : World Svc) :
  invs !! i = Some (lambda_handler_tree json_loads event context (strip w)) ->
  exists m, m <= 3 + messages_of json_loads event /\
    run_schedule (replicate m i) (Cfg (w_svc w) invs) =
      Some (Cfg (w_svc (lambda_handler json_loads event context w).2)
             (<[i := Done ((lambda_handler json_loads event context w).1,
                           strip (lambda_handler json_loads event context w).2)]> invs)).
Proof.
  intros Hi.
  destruct (run_schedule_solo _ _ i (Cfg (w_svc w) invs) Hi (lambda_handler_tree_within json_loads event context _))
    as (m & Hm & Hrun).
  exists m. split; [done|]. rewrite Hrun. cbn. by rewrite (lambda_handler_tree_ok json_loads event context w).
Qed.

End Concurrent.

Arguments config Svc : clear implicits.

(** ** Isolation of interleaved invocations *)

Section Isolation.
Context {Svc : Type} `{!LogsClient Svc} `{!LogsContract Svc}.

(** A request that writes only [sn] and [""] leaves every other stream
    as it was: the frame laws of the contract. *)
Lemma serve_frame (sn g n : string) (c : ApiCall) (s : Svc) :
  writes_only sn c -> n <> sn -> n <> "" ->
  stream_state (serve c s).2 g n = stream_state s g n.
Proof.
  intros Hc Hsn Hne. destruct c as [|g' tags|g' n'|g' n' evs tok]; cbn.
  - done.
  - apply create_log_group_frame.
  - apply create_log_stream_frame. intros [= -> ->]. cbn in Hc. tauto.
  - apply put_log_events_frame. intros [= -> ->]. cbn in Hc. tauto.
Qed.

Lemma run_schedule_app (sched1 sched2 : list nat) (cfg : config Svc) :
  run_schedule (sched1 ++ sched2) cfg = run_schedule sched1 cfg ≫= run_schedule sched2.
Proof.
  revert cfg. induction sched1 as [|i sched1 IH]; intros cfg; cbn; [done|].
  destruct (step_at i cfg); cbn; [apply IH|done].
Qed.

Lemma run_schedule_rtc (sched : list nat) (cfg cfg' : config Svc) :
  run_schedule sched cfg = Some cfg' -> rtc cstep cfg cfg'.
Proof.
  revert cfg. induction sched as [|i sched IH]; intros cfg; cbn; [by intros [= <-]|].
  destruct (step_at i cfg) as [cfg1|] eqn:Hi; cbn; [|done]. intros H. eapply rtc_l; [by exists i|by apply IH].
Qed.

Lemma writes_own_step (locs : list Loc) (i : nat) (cfg cfg' : config Svc) :
  writes_own locs cfg -> step_at i cfg = Some cfg' -> writes_own locs cfg'.
Proof.
  unfold writes_own, step_at. intros Hw. destruct (cfg_invs cfg !! i) as [[r|c k]|] eqn:Hi; try done.
  destruct (serve c (cfg_svc cfg)) as [a s'] eqn:Hs. intros [= <-]. cbn.
  destruct (Forall2_lookup_r _ _ _ _ _ Hw Hi) as (l & Hl & [_ Hk]).
  replace locs with (<[i := l]> locs) by (by apply list_insert_id). by apply Forall2_insert.
Qed.

Lemma writes_own_rtc (locs : list Loc) (cfg cfg' : config Svc) :
  writes_own locs cfg -> rtc cstep cfg cfg' -> writes_own locs cfg'.
Proof. intros Hw Hr. induction Hr as [|cfg1 cfg2 cfg3 [i Hi] _ IH]; [done|]. apply IH. by apply (writes_own_step _ i cfg1). Qed.

Lemma writes_own_start (json_loads : string -> PyExn + pyval) (s : Svc) (starts : list (pyval * pyval * Loc)) :
  writes_own (map (fun '(_, _, l) => l) starts) (start_config json_loads s starts).
Proof.
  unfold writes_own, start_config. cbn. induction starts as [|[[e ctx] l] starts IH]; cbn; [constructor|].
  constructor; [exact (lambda_handler_tree_writes json_loads e ctx l)|exact IH].
Qed.

(** C15: isolation of interleaved invocations.  For every client that
    keeps the frame laws of the contract and every list of invocations
    started together: when no invocation but [i] draws the stream name
    [n] (which is not [""]), then under every schedule, in every
    configuration reached, a step of any other invocation leaves the
    stream [n] of every group as it was.  Only invocation [i] creates
    or writes it. *)
Theorem concurrent_streams_isolated (json_loads : string -> PyExn + pyval) (s : Svc)
    (starts : list (pyval * pyval * Loc)) (i : nat) (g n : string) :
  n <> "" ->
  (forall j l, j <> i -> map (fun '(_, _, l) => l) starts !! j = Some l -> stream_name_of l <> n) ->
  forall cfg cfg' j, rtc cstep (start_config json_loads s starts) cfg -> step_at j cfg = Some cfg' -> j <> i ->
    stream_state (cfg_svc cfg') g n = stream_state (cfg_svc cfg) g n.
Proof.
  intros Hne Hothers cfg cfg' j Hr Hj Hji.
  pose proof (writes_own_rtc _ _ _ (writes_own_start json_loads s starts) Hr) as Hw.
  unfold step_at in Hj. destruct (cfg_invs cfg !! j) as [[r|c k]|] eqn:Hi; try done.
  destruct (serve c (cfg_svc cfg)) as [a s'] eqn:Hs. injection Hj as <-. cbn.
  destruct (Forall2_lookup_r _ _ _ _ _ Hw Hi) as (l & Hl & [Hc _]).
  replace s' with (serve c (cfg_svc cfg)).2 by (by rewrite Hs).
  apply (serve_frame (stream_name_of l)); [done| |done].
  intros ->. by apply (Hothers j l).
Qed.

End Isolation.
