(* ===== verification/Refinement.v ===== *)
(** * The handler against the service's contract

    The refinement theorem of the development: for every client that
    keeps the promises of [LogsContract] (the instance [cw_contract] of
    [CloudWatch] is one), when the group is ready and the service accepts
    every record, [lambda_handler] returns [None] and the new stream
    [prefix + "-" + nonce] holds exactly the notification's messages,
    [str]-converted, stamped with successive clock readings, in order.
    The loop and [open_stream] are first proved against the contract
    ([contract_put_messages], [contract_open_stream]), then the branch of
    a non-empty notification ([nonempty_branch_appends]), which
    [Published] reuses.  The isolation theorem is the instance of
    [rel_lambda_handler] at the preorder [streams_kept]: from the
    contract's frame laws, an invocation changes no stream but its own. *)

From stdpp Require Import base list strings.
From Stdlib Require Import String ZArith Lia.
From S2P Require Import Prelude PyStr PyVal Nonce LogsApi Handler.

Local Open Scope string_scope.

(** The records the handler should leave for messages [ms] when the
    clock's readings from [i] on are used. *)
Fixpoint stamped (clock : nat -> Z) (i : nat) (ms : list pyval) : list LogEvent :=
  match ms with
  | [] => []
  | m :: ms' => {| timestamp := clock i; LogsApi.message := py_str m |} :: stamped clock (S i) ms'
  end.

Section Contract.
Context {Svc : Type} `{!LogsClient Svc} `{!LogsContract Svc}.
Context (json_loads : string -> PyExn + pyval).

(** The service is ready for the stream [sn] of group [g]: the invariant
    holds, the name is valid and fresh, and either the group exists and
    the first page lists a name containing [g], or the group does not
    exist, no listed name contains [g] and [g] is a valid group name. *)
Definition ready (s : Svc) (g sn : string) : Prop :=
  svc_inv s /\ valid_stream sn = true /\ stream_state s g sn = None /\
  exists page, describe_log_groups s = inr page /\
    ((group_exists s g = true /\ any_group_contains g page = true) \/
     (group_exists s g = false /\ any_group_contains g page = false /\ valid_group g = true)).

Lemma token_arg_nonempty (t : string) : t <> "" -> token_arg (Some t) = Some t.
Proof. intros Ht. unfold token_arg, py_truthy_token. by rewrite (proj2 (String.eqb_neq t "") Ht). Qed.

(** The loop against the contract: every record the service accepts,
    sent to a valid stream with the token it expects, is appended. *)
Lemma contract_put_messages (w : World Svc) g sn ms tok evs :
  svc_inv (w_svc w) -> valid_stream sn = true ->
  stream_state (w_svc w) g sn = Some (evs, token_arg tok) ->
  Forall (fun ev => accepts (w_svc w) ev = true) (stamped (w_clock w) (w_ticks w) ms) ->
  exists tok' w',
    put_messages g sn ms tok w = (Normal None, w') /\ svc_inv (w_svc w') /\
    stream_state (w_svc w') g sn =
      Some ((evs ++ stamped (w_clock w) (w_ticks w) ms)%list, token_arg tok').
Proof.
  revert tok w evs. induction ms as [|m ms IH]; intros tok w evs Hinv Hvs Hst Hacc.
  - exists tok, w. by rewrite app_nil_r.
  - cbn [stamped] in Hacc. apply Forall_cons in Hacc as [Hev Hacc].
    cbn [put_messages]. unfold pym_bind at 1, epoch_ms. cbn beta iota.
    unfold putLogEvents. rewrite putLogEvents_token_arg.
    destruct (put_log_events_spec g sn _ evs (token_arg tok) (w_svc w) Hinv Hvs Hst Hev)
      as (t & meta & s' & Hput & Ht & Hinv' & Hst' & Hacc').
    unfold cw_put_log_events, cw_call, py_print, pym_bind, pym_modify, pym_ret.
    cbn [w_svc]. rewrite Hput. cbn.
    match goal with |- context [put_messages g sn ms (Some t) ?w2] =>
      destruct (IH (Some t) w2 (evs ++ [{| timestamp := w_clock w (w_ticks w);
                                            LogsApi.message := py_str m |}])%list)
        as (tok' & w' & Hrun & Hinv2 & Hst2);
        [exact Hinv'|exact Hvs|by rewrite token_arg_nonempty|cbn; by rewrite Hacc'|] end.
    exists tok', w'. split; [exact Hrun|]. split; [exact Hinv2|].
    rewrite Hst2. cbn. by rewrite <- app_assoc.
Qed.

(** [open_stream] against the contract, when the service is ready: the
    stream is created empty and its name returned. *)
Lemma contract_open_stream (w : World Svc) g sn :
  ready (w_svc w) g sn ->
  exists w1, open_stream g sn w = (Normal sn, w1) /\ svc_inv (w_svc w1) /\
    stream_state (w_svc w1) g sn = Some ([], None) /\ accepts (w_svc w1) = accepts (w_svc w) /\
    w_clock w1 = w_clock w /\ w_ticks w1 = w_ticks w.
Proof.
  intros (Hinv & Hvs & Hst & page & Hd & Hcase).
  unfold open_stream, ifLogGroupExists, cw_describe_log_groups, createLogGroup, createLogStream,
    cw_create_log_group, cw_create_log_stream, cw_call, py_print, pym_bind, pym_modify, pym_ret.
  cbn beta. rewrite Hd. cbn beta iota.
  destruct Hcase as [(Hg & Hany) | (Hg & Hany & Hv)]; rewrite Hany; unfold log_call; cbn [w_svc].
  - destruct (create_log_stream_spec g sn (w_svc w) Hinv Hvs Hg Hst) as (meta & s' & Hc & H200 & Hinv' & Hst' & Hacc).
    rewrite Hc. cbn. rewrite H200. cbn. eexists. split; [reflexivity|]. done.
  - destruct (create_log_group_spec g (group_tags g) (w_svc w) Hinv Hv Hg)
      as (meta & s1 & Hc1 & Hinv1 & Hg1 & Hnone & Hacc1).
    rewrite Hc1. cbn.
    destruct (create_log_stream_spec g sn s1 Hinv1 Hvs Hg1 (Hnone sn)) as (meta2 & s' & Hc & H200 & Hinv' & Hst' & Hacc).
    rewrite Hc. cbn. rewrite H200. cbn. eexists. split; [reflexivity|]. cbn. split; [done|]. split; [done|].
    split; [congruence|done].
Qed.

(** The branch of a non-empty notification (lines 82-101), after the
    nonce, on a ready service that accepts every record. *)
Lemma nonempty_branch_appends (w : World Svc) ms nonce :
  ready (w_svc w) (config_group w) (config_prefix w ++ "-" ++ nonce) ->
  Forall (fun ev => accepts (w_svc w) ev = true) (stamped (w_clock w) (w_ticks w) ms) ->
  exists w' tok,
    (let* sn := open_stream (config_group w) (config_prefix w ++ "-" ++ nonce) in
     let* _ := py_print (PrintText (py_str_opt (Some (config_group w)) ++ " - "
                                    ++ py_str_opt (Some sn))) in
     let* r := put_messages (config_group w) sn ms None in
     pym_ret (match r with Some v => v | None => PNone end)) (nonce_world w) = (Normal PNone, w') /\
    stream_state (w_svc w') (config_group w) (config_prefix w ++ "-" ++ nonce) =
      Some (stamped (w_clock w) (w_ticks w) ms, tok) /\
    svc_inv (w_svc w').
Proof.
  intros Hready Hacc.
  destruct (contract_open_stream (nonce_world w) _ _ Hready)
    as (w1 & Hos & Hinv1 & Hst1 & Hacc1 & Hclk & Htk).
  pym_step by exact Hos.
  pym_step by reflexivity.
  match goal with |- context [pym_bind (put_messages ?g ?n ?l ?t) _ ?w2] =>
    destruct (contract_put_messages w2 g n l t [] Hinv1 (proj1 (proj2 Hready)) Hst1)
      as (tok' & w' & Hrun & Hinv' & Hst'); [cbn; rewrite Hacc1, Hclk, Htk; exact Hacc|] end.
  erewrite pym_bind_normal by exact Hrun. cbn.
  exists w', (token_arg tok'). split; [done|]. split; [|done].
  rewrite Hst'. cbn. by rewrite Hclk, Htk.
Qed.

(** C1: refinement.  For every client that keeps the contract: when the
    service is ready for the stream [prefix + "-" + nonce] and accepts
    every record, the handler returns [None] and the new stream holds
    exactly the notification's messages, [str]-converted, stamped with
    successive clock readings, in order; the service's invariant holds
    after the invocation. *)
Theorem handler_appends_messages event context (w : World Svc) v ms nonce :
  decode_events json_loads event = inr v -> py_iter v = inr ms -> ms <> [] ->
  make_nonce (w_words w) (w_drawn w) = inr nonce ->
  ready (w_svc w) (config_group w) (config_prefix w ++ "-" ++ nonce) ->
  Forall (fun ev => accepts (w_svc w) ev = true) (stamped (w_clock w) (w_ticks w) ms) ->
  exists w' tok,
    lambda_handler json_loads event context w = (Normal PNone, w') /\
    stream_state (w_svc w') (config_group w) (config_prefix w ++ "-" ++ nonce) =
      Some (stamped (w_clock w) (w_ticks w) ms, tok) /\
    svc_inv (w_svc w').
Proof.
  intros Hdec Hiter Hne Hn Hready Hacc.
  rewrite (lambda_handler_nonempty json_loads event context w v ms nonce Hdec Hiter Hne Hn).
  exact (nonempty_branch_appends w ms nonce Hready Hacc).
Qed.
End Contract.

(** ** Isolation: an invocation touches only its own stream *)

Section Isolation.
Context {Svc : Type} `{!LogsClient Svc} `{!LogsContract Svc}.
Context (json_loads : string -> PyExn + pyval).

(** The worlds [w] and [w'] hold the same streams outside [P]. *)
Definition streams_kept (P : string -> string -> Prop) (w w' : World Svc) : Prop :=
  forall g' n', ~ P g' n' -> stream_state (w_svc w') g' n' = stream_state (w_svc w) g' n'.

#[local] Instance streams_kept_preorder P : PreOrder (streams_kept P).
Proof.
  split; [by intros w g' n' _|].
  intros w1 w2 w3 H12 H23 g' n' Hn. by rewrite (H23 g' n' Hn), (H12 g' n' Hn).
Qed.

(** A call whose operation changes no stream outside [P]. *)
Lemma keeps_cw_call {A} P c (wrap : A -> ApiResult) op :
  (forall s g' n', ~ P g' n' -> stream_state (op s).2 g' n' = stream_state s g' n') ->
  pym_rel (streams_kept P) (cw_call c wrap op).
Proof.
  intros Hop w g' n' Hn. unfold cw_call.
  specialize (Hop (w_svc w) g' n' Hn). by destruct (op (w_svc w)) as [[] s'].
Qed.

(** C7: isolation of invocations.  For every client that keeps the
    contract's frame laws, whatever the notification and whatever the
    service answers, an invocation changes no stream other than the
    stream [prefix + "-" + nonce] of the configured group and the stream
    [""] of that group (where the appends go when [create_log_stream]
    answers a status other than 200): the streams of other groups and of
    other invocations are left as they were. *)
Theorem lambda_handler_isolated event context (w : World Svc) g' n' :
  (g' <> config_group w \/
   (n' <> "" /\ forall nonce, make_nonce (w_words w) (w_drawn w) = inr nonce ->
                 n' <> config_prefix w ++ "-" ++ nonce)) ->
  stream_state (w_svc (lambda_handler json_loads event context w).2) g' n' =
    stream_state (w_svc w) g' n'.
Proof.
  intros Hout.
  set (P := fun g n => g = config_group w /\
              (n = "" \/ exists nonce, make_nonce (w_words w) (w_drawn w) = inr nonce /\
                                       n = config_prefix w ++ "-" ++ nonce)).
  assert (HnP : ~ P g' n').
  { intros [Hg [Hn'|(nonce & Hn & Hn')]]; destruct Hout as [Hg'|[Hne Hno]]; try done.
    exact (Hno nonce Hn Hn'). }
  refine (rel_lambda_handler json_loads (streams_kept P) P _ _ _ _ _ event context w _ g' n' HnP).
  - intros w1 w2 Hs _ g n _. by rewrite Hs.
  - apply keeps_cw_call. by intros.
  - intros g tags. apply keeps_cw_call. intros s g0 n0 _. apply create_log_group_frame.
  - intros g n Hq. apply keeps_cw_call. intros s g0 n0 Hn. apply create_log_stream_frame.
    intros [= -> ->]. by apply Hn.
  - intros g n evs tok Hq. apply keeps_cw_call. intros s g0 n0 Hn. apply put_log_events_frame.
    intros [= -> ->]. by apply Hn.
  - intros nonce Hn. split; split; [done|right; eauto|done|by left].
Qed.
End Isolation.
