(* ===== verification/Published.v ===== *)
(** * The handler with the JSON decoder

    The publisher of the notification writes the message body with
    [json.dumps]; the handler reads it back with [json.loads] (line 78).
    For every recursion allowance [limit] left when [json.loads] is
    called, every decoder that agrees with the model of [Json] at that
    allowance ([JsonLoads limit]) and every client that keeps
    [LogsContract], what the publisher sends is what the new stream
    receives, one record per value, as [str] of the value; a body the
    decoder rejects ends the invocation with its exception
    ([JSONDecodeError], or [RecursionError] for nesting deeper than the
    allowance) before any API call; the decoding step accepts exactly
    the JSON texts of the grammar of [JsonGrammar] nested within the
    allowance. *)

From stdpp Require Import base list strings.
From Stdlib Require Import Ascii String ZArith Lia.
From S2P Require Import Prelude PyStr PyVal Json JsonFuel JsonRoundtrip JsonGrammar Nonce LogsApi Handler Refinement.

Local Open Scope string_scope.

Section Published.
Context {Svc : Type} `{!LogsClient Svc} `{!LogsContract Svc}.
Context (limit : nat) (json_loads : string -> PyExn + pyval) `{!JsonLoads limit json_loads}.

(** The body of the notification is the published text. *)
Definition publishes (event : pyval) (text : string) : Prop :=
  sns_message event = inr (PStr text).

Lemma decode_rejected event (text : string) e :
  publishes event text -> json_decode limit text = Some (inl e) ->
  decode_events json_loads event = inl e.
Proof. intros He Hd. unfold decode_events. rewrite He. cbn. by apply json_loads_agrees. Qed.

(** C8: from publisher to stream.  When the notification carries
    [json.dumps(ms)] for a non-empty list [ms] of values [json.dumps]
    prints within the decoder's recursion allowance, the
    service is ready for the stream [prefix + "-" + nonce] and accepts
    every record, the handler returns [None] and the new stream holds one
    record per value of [ms], in order, whose message is [str] of the
    value ([42] becomes "42", a string is copied), stamped with
    successive clock readings. *)
Theorem published_messages_appended event context (w : World Svc) ms nonce :
  publishes event (json_dumps (PList ms)) -> json_value_ok limit (PList ms) = true -> ms <> [] ->
  make_nonce (w_words w) (w_drawn w) = inr nonce ->
  ready (w_svc w) (config_group w) (config_prefix w ++ "-" ++ nonce) ->
  Forall (fun ev => accepts (w_svc w) ev = true) (stamped (w_clock w) (w_ticks w) ms) ->
  exists w' tok,
    lambda_handler json_loads event context w = (Normal PNone, w') /\
    stream_state (w_svc w') (config_group w) (config_prefix w ++ "-" ++ nonce) =
      Some (stamped (w_clock w) (w_ticks w) ms, tok) /\
    svc_inv (w_svc w').
Proof.
  intros Hpub Hok Hne Hn Hready Hacc.
  assert (Hdec : decode_events json_loads event = inr (PList ms)).
  { unfold decode_events. rewrite Hpub. cbn -[json_dumps]. by apply json_loads_agrees, json_roundtrip. }
  rewrite (lambda_handler_nonempty json_loads event context w (PList ms) ms nonce Hdec eq_refl Hne Hn).
  exact (nonempty_branch_appends w ms nonce Hready Hacc).
Qed.

(** C9: malformed JSON.  When [json.loads] rejects the notification's
    body, with [JSONDecodeError] or with [RecursionError], the invocation
    raises that exception: it draws the nonce and makes no API call,
    creates no group and no stream, and prints nothing. *)
Theorem malformed_message_raises event context (w : World Svc) text e :
  publishes event text -> json_decode limit text = Some (inl e) -> words_32 (w_words w) ->
  lambda_handler json_loads event context w = (Raised e, nonce_world w) /\
  w_calls (nonce_world w) = w_calls w /\ w_stdout (nonce_world w) = w_stdout w /\ w_svc (nonce_world w) = w_svc w.
Proof.
  intros Hpub Hd Hw.
  destruct (make_nonce_spec (w_words w) (w_drawn w) Hw) as (nonce & Hn & _).
  split; [|done]. exact (lambda_handler_decode_error json_loads event context w e nonce
                           (decode_rejected event text e Hpub Hd) Hn).
Qed.

(** C11: nesting deeper than the allowance.  [scan_once_unicode] enters
    every array through [_Py_EnterRecursiveCall]: when the body opens
    [limit + 1] arrays, whatever follows them, [json.loads] raises
    [RecursionError] (not [JSONDecodeError]), and the invocation ends
    with it after drawing the nonce, before any API call and with
    nothing printed. *)
Theorem deep_message_raises event context (w : World Svc) text rest :
  publishes event text -> list_ascii_of_string text = (repeat "["%char (S limit) ++ rest)%list ->
  words_32 (w_words w) ->
  lambda_handler json_loads event context w =
    (Raised (RecursionError "maximum recursion depth exceeded while decoding a JSON array from a unicode string"),
     nonce_world w) /\
  w_calls (nonce_world w) = w_calls w /\ w_stdout (nonce_world w) = w_stdout w.
Proof.
  intros Hpub Htext Hw.
  destruct (make_nonce_spec (w_words w) (w_drawn w) Hw) as (nonce & Hn & _).
  split; [|done]. apply (lambda_handler_decode_error json_loads event context w _ nonce); [|exact Hn].
  apply (decode_rejected event text); [exact Hpub|]. exact (json_decode_too_deep limit text rest Htext).
Qed.

(** C10: round trip through the notification.  When the publisher puts
    [json.dumps(v)] in the notification, for a value [v] that [json.dumps]
    prints (distinct dict keys, integers of at most 4300 digits) nested
    within the handler's recursion allowance, the handler's decoding step
    (line 78) gives back [v] itself: the same strings, integers,
    booleans, [None], lists and dicts, in the same order. *)
Theorem published_text_decodes event (v : pyval) :
  publishes event (json_dumps v) -> json_value_ok limit v = true ->
  decode_events json_loads event = inr v.
Proof.
  intros He Hok. unfold decode_events. rewrite He. cbn -[json_dumps].
  by apply json_loads_agrees, json_roundtrip.
Qed.

(** C12: the decoding step against the JSON grammar.  When the body of
    the notification is a JSON text of the value [v] (RFC 8259, with
    integer numbers, [\u] escapes below U+0100 and the dict semantics of
    repeated keys) nested at most [limit] deep, the handler's decoding
    step (line 78) gives [v], for every decoder that agrees with the
    model at the allowance [limit]; and when the model of [json.loads]
    gives [v], the body is such a JSON text of [v]. *)
Theorem decode_events_grammar event (text : string) (v : pyval) :
  publishes event text ->
  (json_text limit (list_ascii_of_string text) v -> decode_events json_loads event = inr v) /\
  (decode_events (json_loads_model limit) event = inr v -> json_text limit (list_ascii_of_string text) v).
Proof.
  intros He. unfold decode_events. rewrite He. cbn. split.
  - intros Ht. by apply json_loads_agrees, json_decode_grammar.
  - unfold json_loads_model. destruct (json_decode limit text) as [r|] eqn:Hd; [|done].
    intros ->. by apply json_decode_grammar.
Qed.
End Published.
