(* ===== verification/Clock.v ===== *)
(** * The clock reading of line 94: [int(round(time.time() * 1000))]

    [time.time()] returns a positive binary64 value; the handler
    multiplies it by [1000] in binary64 and rounds the product to an
    integer with Python's [round] (ties to even).  A binary64 value is
    written [f_man * 2^f_exp] with an integer [f_man]; the product keeps
    the exponent and rounds its integer significand to 53 bits with the
    reference rounding [rne_ref] of [Nonce] (overflow and subnormals do
    not arise for clock readings).  [time_clock] turns a stream of
    [time.time()] readings into the integer readings the handler's world
    uses ([w_clock], read by [epoch_ms]).

    The stamp is within half a millisecond, plus the rounding of the
    product, of the exact [1000 * t], and it does not decrease when
    [time.time()] does not go back ([f64_le]): both roundings commute with
    scaling by a power of two, so readings of different exponents are
    compared at the smaller one.  The records an invocation sends
    therefore carry non-decreasing timestamps. *)

From stdpp Require Import base list sorting strings.
From Stdlib Require Import String ZArith Lia.
From S2P Require Import Prelude PyStr PyVal Nonce LogsApi Handler.

(** A binary64 value [f_man * 2^f_exp]. *)
Record f64 := mkF64 { f_man : Z; f_exp : Z }.

(** [x * k] in binary64, for an integer [k] that is a binary64 value. *)
Definition f64_mul_int (x : f64) (k : Z) : f64 := mkF64 (rne_ref (f_man x * k)) (f_exp x).

(** [round(x)] of a float ([float.__round__] without [ndigits]): the
    nearest integer, the even one on a tie. *)
Definition py_round (x : f64) : Z :=
  if (0 <=? f_exp x)%Z then (f_man x * 2 ^ f_exp x)%Z
  else (round_half_even (f_man x) (2 ^ (- f_exp x)) / 2 ^ (- f_exp x))%Z.

(** Line 94: [int(round(time.time() * 1000))] for the reading [t]. *)
Definition epoch_ms_of (t : f64) : Z := py_round (f64_mul_int t 1000).

(** The integer clock of the world for a stream of [time.time()] readings. *)
Definition time_clock (readings : nat -> f64) : nat -> Z := fun i => epoch_ms_of (readings i).

(** The order of binary64 values ([<=] on floats), compared at the
    smaller of the two exponents. *)
Definition f64_le (x y : f64) : Prop :=
  let e := Z.min (f_exp x) (f_exp y) in
  (f_man x * 2 ^ (f_exp x - e) <= f_man y * 2 ^ (f_exp y - e))%Z.

(** The timestamps of the records the [PutLogEvents] requests of a trace send. *)
Definition put_stamps (entries : list (ApiCall * ApiResult)) : list Z :=
  mjoin (map (fun e => match e.1 with PutLogEvents _ _ evs _ => map timestamp evs | _ => [] end) entries).

(** ** Rounding to a multiple *)

Section RoundHalfEven.
Context (u : Z) (Hu : (0 < u)%Z).

Lemma rhe_cases (m : Z) :
  round_half_even m u = (m / u * u)%Z \/ round_half_even m u = ((m / u + 1) * u)%Z.
Proof.
  unfold round_half_even.
  destruct (2 * (m mod u) <? u)%Z; [by left|]. destruct (u <? 2 * (m mod u))%Z; [by right|].
  destruct (Z.even (m / u)); [by left|by right].
Qed.

Lemma rhe_err (m : Z) : (2 * Z.abs (round_half_even m u - m) <= u)%Z.
Proof.
  pose proof (Z.div_mod m u ltac:(lia)) as Hdm. pose proof (Z.mod_pos_bound m u Hu) as Hb.
  unfold round_half_even.
  destruct (Z.ltb_spec (2 * (m mod u)) u), (Z.ltb_spec u (2 * (m mod u)));
    [..|destruct (Z.even (m / u))]; lia.
Qed.

Lemma rhe_multiple (m : Z) : exists k, round_half_even m u = (k * u)%Z.
Proof. destruct (rhe_cases m) as [H|H]; rewrite H; eauto. Qed.

Lemma rhe_mono (m1 m2 : Z) : (m1 <= m2)%Z -> (round_half_even m1 u <= round_half_even m2 u)%Z.
Proof.
  intros Hle. destruct (Z.eq_dec m1 m2) as [->|Hne]; [lia|].
  pose proof (rhe_err m1). pose proof (rhe_err m2).
  destruct (rhe_multiple m1) as [k1 H1], (rhe_multiple m2) as [k2 H2]. rewrite H1, H2 in *.
  destruct (Z.le_gt_cases k1 k2) as [Hk|Hk]; [nia|].
  assert (((k1 - k2) * u >= u)%Z) by nia. lia.
Qed.

Lemma rhe_le_multiple (m c : Z) : (c mod u = 0)%Z -> (m <= c)%Z -> (round_half_even m u <= c)%Z.
Proof.
  intros Hc Hm. pose proof (Z.div_mod c u ltac:(lia)) as Hdc. rewrite Hc, Z.add_0_r in Hdc.
  pose proof (rhe_err m). destruct (rhe_multiple m) as [k Hk]. rewrite Hk in *.
  destruct (Z.le_gt_cases k (c / u)) as [Hle|Hgt]; [nia|].
  assert ((k * u >= u * (c / u) + u)%Z) by nia. lia.
Qed.

Lemma rhe_ge_multiple (m c : Z) : (c mod u = 0)%Z -> (c <= m)%Z -> (c <= round_half_even m u)%Z.
Proof.
  intros Hc Hm. pose proof (Z.div_mod c u ltac:(lia)) as Hdc. rewrite Hc, Z.add_0_r in Hdc.
  pose proof (rhe_err m). destruct (rhe_multiple m) as [k Hk]. rewrite Hk in *.
  destruct (Z.le_gt_cases (c / u) k) as [Hle|Hgt]; [nia|].
  assert ((k * u + u <= u * (c / u))%Z) by nia. lia.
Qed.

Lemma rhe_of_multiple (m : Z) : (m mod u = 0)%Z -> round_half_even m u = m.
Proof.
  intros Hm. pose proof (Z.div_mod m u ltac:(lia)) as Hdm. unfold round_half_even. rewrite Hm.
  destruct (Z.ltb_spec (2 * 0) u); lia.
Qed.

Lemma rhe_scale (m c : Z) : (0 < c)%Z -> round_half_even (m * c) (u * c) = (round_half_even m u * c)%Z.
Proof.
  intros Hc. unfold round_half_even.
  rewrite Z.div_mul_cancel_r, Z.mul_mod_distr_r by lia.
  destruct (Z.ltb_spec (2 * (m mod u)) u), (Z.ltb_spec (2 * (m mod u * c)) (u * c)); try nia;
    destruct (Z.ltb_spec u (2 * (m mod u))), (Z.ltb_spec (u * c) (2 * (m mod u * c))); nia.
Qed.
End RoundHalfEven.

(** ** Rounding to 53 bits and to an integer *)

Lemma pow2_mod (a b : Z) : (0 <= b <= a)%Z -> (2 ^ a mod 2 ^ b = 0)%Z.
Proof.
  intros Hab. replace a with (b + (a - b))%Z by lia. rewrite Z.pow_add_r, Z.mul_comm by lia.
  apply Z.mod_mul. apply Z.pow_nonzero; lia.
Qed.

Lemma rne_ref_nonneg (m : Z) : (0 <= m)%Z -> (0 <= rne_ref m)%Z.
Proof.
  intros Hm. unfold rne_ref. apply rhe_ge_multiple; [apply Z.pow_pos_nonneg; lia|apply Z.mod_0_l|lia].
  apply Z.pow_nonzero; lia.
Qed.

Lemma rne_ref_mono (m1 m2 : Z) : (0 <= m1 <= m2)%Z -> (rne_ref m1 <= rne_ref m2)%Z.
Proof.
  intros Hm. unfold rne_ref.
  set (s1 := Z.max 0 (Z.log2 m1 + 1 - 53)). set (s2 := Z.max 0 (Z.log2 m2 + 1 - 53)).
  assert (Hl : (Z.log2 m1 <= Z.log2 m2)%Z) by (apply Z.log2_le_mono; lia).
  destruct (Z.eq_dec s1 s2) as [Hs|Hs].
  { rewrite Hs. apply rhe_mono; [apply Z.pow_pos_nonneg; lia|lia]. }
  assert (Hpos : (0 < m2)%Z) by (destruct (Z.eq_dec m2 0) as [E|]; [subst s2; rewrite E in Hs; subst s1;
    assert (m1 = 0)%Z by lia; subst m1; done|lia]).
  destruct (Z.log2_spec m2 Hpos) as [Hlo Hhi].
  assert (Hs12 : (s1 < s2 /\ s2 = Z.log2 m2 - 52)%Z) by lia.
  apply (Z.le_trans _ (2 ^ Z.log2 m2)).
  - apply rhe_le_multiple; [apply Z.pow_pos_nonneg; lia|apply pow2_mod; lia|].
    destruct (Z.eq_dec m1 0) as [->|Hm1]; [apply Z.pow_nonneg; lia|].
    destruct (Z.log2_spec m1 ltac:(lia)) as [_ Hhi1].
    apply Z.lt_le_incl, (Z.lt_le_trans _ _ _ Hhi1). apply Z.pow_le_mono_r; lia.
  - apply rhe_ge_multiple; [apply Z.pow_pos_nonneg; lia|apply pow2_mod; lia|lia].
Qed.

(** The product of a significand below [2^53] by [1000] is rounded by at
    most [2^9]. *)
Lemma rne_ref_err (m : Z) : (0 <= m < 2 ^ 63)%Z -> (2 * Z.abs (rne_ref m - m) <= 2 ^ 10)%Z.
Proof.
  intros Hm. unfold rne_ref.
  assert (Hs : (Z.max 0 (Z.log2 m + 1 - 53) <= 10)%Z).
  { destruct (Z.eq_dec m 0) as [->|Hm0]; [cbn; lia|].
    assert (Z.log2 m < 63)%Z by (apply Z.log2_lt_pow2; lia). lia. }
  pose proof (rhe_err (2 ^ Z.max 0 (Z.log2 m + 1 - 53)) ltac:(apply Z.pow_pos_nonneg; lia) m).
  pose proof (Z.pow_le_mono_r 2 _ _ ltac:(lia) Hs). lia.
Qed.

(** Both roundings commute with scaling by a power of two: they depend
    on the value of a float, not on how it is written. *)
Lemma rne_ref_scale (X k : Z) : (0 <= X)%Z -> (0 <= k)%Z -> rne_ref (X * 2 ^ k) = (rne_ref X * 2 ^ k)%Z.
Proof.
  intros HX Hk. destruct (Z.eq_dec X 0) as [->|HX0]; [done|].
  unfold rne_ref. rewrite Z.log2_mul_pow2 by lia.
  pose proof (Z.log2_nonneg X).
  destruct (Z.leb_spec 53 (Z.log2 X + 1)).
  - replace (Z.max 0 (k + Z.log2 X + 1 - 53)) with (Z.max 0 (Z.log2 X + 1 - 53) + k)%Z by lia.
    rewrite Z.pow_add_r by lia. apply rhe_scale; [apply Z.pow_pos_nonneg|apply Z.pow_pos_nonneg]; lia.
  - replace (Z.max 0 (Z.log2 X + 1 - 53)) with 0%Z by lia. rewrite !rhe_of_multiple; try lia.
    + apply Z.mod_1_r.
    + destruct (Z.max_spec 0 (k + Z.log2 X + 1 - 53)) as [[Hs ->]|[_ ->]].
      * assert (Hp : (2 ^ k = 2 ^ (52 - Z.log2 X) * 2 ^ (k + Z.log2 X + 1 - 53))%Z)
          by (rewrite <- Z.pow_add_r by lia; f_equal; lia).
        rewrite Hp, Z.mul_assoc. apply Z.mod_mul. apply Z.pow_nonzero; lia.
      * apply Z.mod_1_r.
Qed.

Lemma py_round_scale (Y e k : Z) : (0 <= k)%Z -> py_round (mkF64 (Y * 2 ^ k) (e - k)) = py_round (mkF64 Y e).
Proof.
  intros Hk. unfold py_round. cbn [f_man f_exp].
  destruct (Z.leb_spec 0 (e - k)), (Z.leb_spec 0 e); try lia.
  - rewrite <- Z.mul_assoc, <- Z.pow_add_r by lia. by replace (k + (e - k))%Z with e by lia.
  - replace k with ((k - e) + e)%Z at 1 by lia. rewrite Z.pow_add_r, Z.mul_assoc by lia.
    replace (- (e - k))%Z with (k - e)%Z by lia.
    rewrite rhe_of_multiple; [|apply Z.pow_pos_nonneg; lia|].
    2: { rewrite <- Z.mul_assoc, (Z.mul_comm (2 ^ (k - e))), Z.mul_assoc. apply Z.mod_mul, Z.pow_nonzero; lia. }
    rewrite <- Z.mul_assoc, (Z.mul_comm (2 ^ (k - e))), Z.mul_assoc.     rewrite Z.div_mul by (apply Z.pow_nonzero; lia). lia.
  - replace (- (e - k))%Z with (- e + k)%Z by lia. rewrite Z.pow_add_r by lia.
    rewrite rhe_scale by (apply Z.pow_pos_nonneg; lia).
    rewrite Z.div_mul_cancel_r; [done|apply Z.pow_nonzero; lia..].
Qed.

Lemma py_round_mono (X1 X2 e : Z) : (X1 <= X2)%Z -> (py_round (mkF64 X1 e) <= py_round (mkF64 X2 e))%Z.
Proof.
  intros Hle. unfold py_round. cbn [f_man f_exp].
  destruct (Z.leb_spec 0 e).
  - apply Z.mul_le_mono_nonneg_r; [apply Z.pow_nonneg|]; lia.
  - apply Z.div_le_mono; [apply Z.pow_pos_nonneg; lia|]. apply rhe_mono; [apply Z.pow_pos_nonneg|]; lia.
Qed.

Lemma py_round_err (X e : Z) : (e < 0)%Z ->
  (2 * Z.abs (py_round (mkF64 X e) * 2 ^ (- e) - X) <= 2 ^ (- e))%Z.
Proof.
  intros He. unfold py_round. cbn [f_man f_exp]. destruct (Z.leb_spec 0 e); [lia|].
  assert (Hu : (0 < 2 ^ (- e))%Z) by (apply Z.pow_pos_nonneg; lia).
  destruct (rhe_multiple (2 ^ (- e)) X) as [k Hk]. pose proof (rhe_err _ Hu X) as Herr. rewrite Hk in *.
  rewrite Z.div_mul by lia. exact Herr.
Qed.

Lemma epoch_ms_of_mono (t1 t2 : f64) :
  f_exp t1 = f_exp t2 -> (0 <= f_man t1 <= f_man t2)%Z -> (epoch_ms_of t1 <= epoch_ms_of t2)%Z.
Proof.
  intros He Hm. unfold epoch_ms_of, f64_mul_int. rewrite He.
  apply py_round_mono, rne_ref_mono. lia.
Qed.

Lemma epoch_ms_of_scale (t : f64) (k : Z) : (0 <= f_man t)%Z -> (0 <= k)%Z ->
  epoch_ms_of (mkF64 (f_man t * 2 ^ k) (f_exp t - k)) = epoch_ms_of t.
Proof.
  intros Hm Hk. unfold epoch_ms_of, f64_mul_int. cbn [f_man f_exp].
  replace (f_man t * 2 ^ k * 1000)%Z with (f_man t * 1000 * 2 ^ k)%Z by ring.
  rewrite rne_ref_scale by lia. by rewrite py_round_scale.
Qed.

(** The stamp does not decrease when the reading does not, whatever the
    exponents of the two readings. *)
Lemma epoch_ms_of_le (t1 t2 : f64) :
  (0 <= f_man t1)%Z -> f64_le t1 t2 -> (epoch_ms_of t1 <= epoch_ms_of t2)%Z.
Proof.
  unfold f64_le. set (e := Z.min (f_exp t1) (f_exp t2)). intros Hm Hle.
  assert (H1 : (0 <= f_exp t1 - e)%Z) by lia. assert (H2 : (0 <= f_exp t2 - e)%Z) by lia.
  assert (Hp1 : (0 < 2 ^ (f_exp t1 - e))%Z) by (apply Z.pow_pos_nonneg; lia).
  assert (Hp2 : (0 < 2 ^ (f_exp t2 - e))%Z) by (apply Z.pow_pos_nonneg; lia).
  assert (Hm2 : (0 <= f_man t2)%Z) by nia.
  rewrite <- (epoch_ms_of_scale t1 (f_exp t1 - e)), <- (epoch_ms_of_scale t2 (f_exp t2 - e)) by done.
  apply epoch_ms_of_mono; cbn [f_man f_exp]; [lia|nia].
Qed.

(** ** The stamps of the loop *)

Lemma put_chain_stamps (g n : string) (clock : nat -> Z) i tok ms entries out :
  put_chain g n clock i tok ms entries out -> put_stamps entries = map clock (seq i (List.length entries)).
Proof.
  assert (Hcons : forall e es, put_stamps (e :: es) =
    ((match e.1 with PutLogEvents _ _ evs _ => map timestamp evs | _ => [] end) ++ put_stamps es)%list)
    by reflexivity.
  induction 1 as [|? ? ? ? ? ? ? ? ? ? ? IH| | |]; rewrite ?Hcons; cbn -[put_stamps]; [done|by rewrite IH|done..].
Qed.

Lemma sorted_map_seq (clock : nat -> Z) (i k : nat) :
  (forall j, (clock j <= clock (S j))%Z) -> Sorted Z.le (map clock (seq i k)).
Proof.
  intros Hmono. revert i. induction k as [|k IH]; intros i; cbn; [constructor|].
  constructor; [apply IH|]. destruct k; cbn; constructor. apply Hmono.
Qed.

(** C24: accuracy of the stamp.  For a reading [t = m * 2^e] of
    [time.time()] with a 53-bit significand and a negative exponent, the
    stamp [int(round(t * 1000))] differs from the exact [1000 * t] by at
    most half a millisecond plus [2^9 * 2^e] (the rounding of the float
    product): [2^-13] ms for readings of the years 2004 to 2038. *)
Theorem epoch_ms_accuracy (t : f64) :
  (0 <= f_man t < 2 ^ 53)%Z -> (f_exp t < 0)%Z ->
  (2 * Z.abs (epoch_ms_of t * 2 ^ (- f_exp t) - 1000 * f_man t) <= 2 ^ (- f_exp t) + 2 ^ 10)%Z.
Proof.
  intros Hm He. unfold epoch_ms_of, f64_mul_int.
  assert (Hp : (0 <= f_man t * 1000 < 2 ^ 63)%Z).
  { replace (2 ^ 63)%Z with (2 ^ 53 * 1024)%Z by reflexivity. nia. }
  pose proof (rne_ref_err _ Hp) as H1. pose proof (py_round_err (rne_ref (f_man t * 1000)) _ He) as H2.
  lia.
Qed.

Section Stamps.
Context {Svc : Type} `{!LogsClient Svc}.

(** C23: chronological records.  When the world's clock is line 94
    applied to non-negative [time.time()] readings that do not go back
    (compared as floats, whatever their exponents), the records the loop
    sends, from any message list and any token, whatever the service
    answers, carry non-decreasing timestamps, in the order of the calls. *)
Theorem put_messages_chronological (g n : string) (ms : list pyval) (tok : option string)
    (w : World Svc) (readings : nat -> f64) :
  w_clock w = time_clock readings ->
  (forall j, 0 <= f_man (readings j))%Z ->
  (forall j, f64_le (readings j) (readings (S j))) ->
  exists new, w_calls (put_messages g n ms tok w).2 = (w_calls w ++ new)%list /\
    Sorted Z.le (put_stamps new).
Proof.
  intros Hclk Hpos Hle.
  destruct (put_messages_trace g n ms tok w) as (entries & Hc & Hch).
  exists entries. split; [exact Hc|]. rewrite (put_chain_stamps _ _ _ _ _ _ _ _ Hch), Hclk.
  apply sorted_map_seq. intros j. by apply epoch_ms_of_le.
Qed.
End Stamps.
