(* ===== verification/ServiceSteps.v ===== *)
(** * The service model as a state machine

    [cw_step] is one step of the CloudWatch Logs model: a group creation,
    a stream creation or a [put_log_events], whatever its outcome, or the
    service clock moving forward ([describe_log_groups] changes nothing).
    A state is [reachable] when some sequence of steps leads to it from
    the empty service.  The invariant [wf] holds in every reachable
    state, and a log stream is append-only: along any sequence of steps
    the records a stream holds stay a prefix of the records it holds
    later.  A run of [lambda_handler] on the model moves the service by
    such steps, so both facts carry over to invocations. *)

From stdpp Require Import base list strings relations.
From Stdlib Require Import String ZArith Lia.
From S2P Require Import Prelude PyStr PyVal Nonce LogsApi CloudWatch Handler.
Import CloudWatch.

Local Open Scope string_scope.

Inductive cw_step : State -> State -> Prop :=
| step_create_group g tags s : cw_step s (create_log_group g tags s).2
| step_create_stream g n s : cw_step s (create_log_stream g n s).2
| step_put g n evs tok s : cw_step s (put_log_events g n evs tok s).2
| step_tick s dt :
    (0 <= dt)%Z ->
    cw_step s {| cw_groups := cw_groups s; cw_now := cw_now s + dt; cw_issued := cw_issued s |}.

(** The service with no group, at time [now]. *)
Definition init_state (now : Z) : State := {| cw_groups := []; cw_now := now; cw_issued := 0 |}.

Definition reachable (s : State) : Prop := exists now, rtc cw_step (init_state now) s.

(** Every stream of [s] is still in [s'], its records extended at the end. *)
Definition stream_extends (s s' : State) : Prop :=
  forall g n evs tok, stream_state s g n = Some (evs, tok) ->
    exists evs' tok', stream_state s' g n = Some ((evs ++ evs')%list, tok').

(** The service states of two worlds are joined by steps. *)
Definition svc_steps (w w' : World State) : Prop := rtc cw_step (w_svc w) (w_svc w').

(** ** The invariant *)

Lemma cw_step_wf (s s' : State) : cw_step s s' -> wf s -> wf s'.
Proof.
  destruct 1; intros Hw;
    [apply create_log_group_wf|apply create_log_stream_wf|apply put_log_events_wf|exact Hw]; done.
Qed.

Lemma cw_steps_wf (s s' : State) : rtc cw_step s s' -> wf s -> wf s'.
Proof. induction 1 as [|x y z Hxy _ IH]; [done|]. intros Hx. by eapply IH, cw_step_wf. Qed.

Lemma init_state_wf now : wf (init_state now).
Proof. split; [constructor|split; constructor]. Qed.

(** Every state the service can reach from the empty service is
    well formed: groups sorted by name without duplicates, each with a
    valid name, streams without duplicate names, and every expected token
    one the service issued. *)
Theorem reachable_wf (s : State) : reachable s -> wf s.
Proof. intros [now Hr]. exact (cw_steps_wf _ _ Hr (init_state_wf now)). Qed.

(** ** Streams are append-only *)

#[local] Instance stream_extends_preorder : PreOrder stream_extends.
Proof.
  split.
  - intros s g n evs tok H. exists [], tok. by rewrite app_nil_r.
  - intros s1 s2 s3 H12 H23 g n evs tok H.
    destruct (H12 g n evs tok H) as (evs1 & tok1 & H2).
    destruct (H23 g n _ _ H2) as (evs2 & tok2 & H3).
    exists (evs1 ++ evs2)%list, tok2. by rewrite app_assoc.
Qed.

(** Creating a stream that exists fails and changes nothing. *)
Lemma create_log_stream_existing g n (s : State) p :
  stream_state s g n = Some p -> (create_log_stream g n s).2 = s.
Proof.
  unfold stream_state, lookup_stream. intros H. unfold create_log_stream, client_error.
  destruct (String.eqb g "" || String.eqb n ""); [done|]. destruct (negb _); [done|].
  destruct (find_group g (cw_groups s)) as [x|]; cbn in H; [|done].
  by destruct (find_stream n (lg_streams x)).
Qed.

(** An append to a stream extends its records, whatever the outcome. *)
Lemma put_log_events_same g n evs tok (s : State) evs0 tok0 :
  stream_state s g n = Some (evs0, tok0) ->
  exists evs' tok', stream_state (put_log_events g n evs tok s).2 g n = Some ((evs0 ++ evs')%list, tok').
Proof.
  intros H. unfold put_log_events, client_error.
  assert (Hkeep : exists evs' tok', stream_state s g n = Some ((evs0 ++ evs')%list, tok'))
    by (exists [], tok0; by rewrite app_nil_r).
  destruct (String.eqb g "" || String.eqb n ""); [done|]. destruct (bool_decide (evs = [])); [done|].
  unfold stream_state, lookup_stream in H.
  destruct (find_group g (cw_groups s)) as [x|] eqn:Hf; [|done]. cbn in H.
  destruct (find_stream n (lg_streams x)) as [st|] eqn:Hs; [|done]. cbn in H.
  destruct (negb (chronological evs)); [done|]. destruct (negb (bool_decide (tok = ls_token st))); [done|].
  injection H as <- <-. cbn. unfold stream_state, lookup_stream. cbn.
  unfold find_group at 1, update_group. rewrite find_by_update_eq by done.
  fold (find_group g (cw_groups s)). rewrite Hf. cbn.
  unfold find_stream, update_stream. rewrite find_by_update_eq by done.
  fold (find_stream n (lg_streams x)). rewrite Hs. cbn. eauto.
Qed.

Lemma cw_step_extends (s s' : State) : cw_step s s' -> stream_extends s s'.
Proof.
  destruct 1 as [g tags s|g n s|g n evs tok s|s dt Hdt]; intros g' n' evs0 tok0 H.
  - exists [], tok0. by rewrite create_log_group_frame, app_nil_r.
  - destruct (decide ((g', n') = (g, n))) as [[= -> ->]|Hne].
    + rewrite (create_log_stream_existing g n s _ H). exists [], tok0. by rewrite app_nil_r.
    + rewrite create_log_stream_frame by done. exists [], tok0. by rewrite app_nil_r.
  - destruct (decide ((g', n') = (g, n))) as [[= -> ->]|Hne].
    + by eapply put_log_events_same.
    + rewrite put_log_events_frame by done. exists [], tok0. by rewrite app_nil_r.
  - exists [], tok0. rewrite app_nil_r. exact H.
Qed.

Lemma cw_steps_extends (s s' : State) : rtc cw_step s s' -> stream_extends s s'.
Proof.
  induction 1 as [|x y z Hxy _ IH]; [reflexivity|].
  etransitivity; [by apply cw_step_extends|exact IH].
Qed.

(** ** Invocations are sequences of steps *)

#[local] Instance svc_steps_preorder : PreOrder svc_steps.
Proof.
  split; [intros w; apply rtc_refl|].
  intros w1 w2 w3 H12 H23. unfold svc_steps in *. by etransitivity.
Qed.

Lemma steps_cw_call {A} c (wrap : A -> ApiResult) op :
  (forall s, rtc cw_step s (op s).2) -> pym_rel svc_steps (cw_call c wrap op).
Proof. intros Hop w. unfold cw_call, svc_steps. specialize (Hop (w_svc w)). by destruct (op (w_svc w)) as [[] s']. Qed.

Lemma lambda_handler_steps json_loads event context (w : World State) :
  svc_steps w (lambda_handler json_loads event context w).2.
Proof.
  refine (rel_lambda_handler json_loads svc_steps (fun _ _ => True) _ _ _ _ _ event context w _).
  - intros w1 w2 Hs _. unfold svc_steps. rewrite Hs. apply rtc_refl.
  - apply steps_cw_call. intros s. apply rtc_refl.
  - intros g tags. apply steps_cw_call. intros s. apply rtc_once, step_create_group.
  - intros g n _. apply steps_cw_call. intros s. apply rtc_once, step_create_stream.
  - intros g n evs tok _. apply steps_cw_call. intros s. apply rtc_once, step_put.
  - done.
Qed.

(** A run of the handler on the service model, whatever the
    notification and whatever the service answers, leaves a reachable
    service reachable and well formed, and removes or reorders no record
    of any stream: every stream that existed is still there, its records
    extended at the end. *)
Theorem lambda_handler_append_only json_loads event context (w : World State) :
  reachable (w_svc w) ->
  reachable (w_svc (lambda_handler json_loads event context w).2) /\
  wf (w_svc (lambda_handler json_loads event context w).2) /\
  stream_extends (w_svc w) (w_svc (lambda_handler json_loads event context w).2).
Proof.
  intros [now Hr]. pose proof (lambda_handler_steps json_loads event context w) as Hs.
  assert (Hr' : rtc cw_step (init_state now) (w_svc (lambda_handler json_loads event context w).2))
    by (etransitivity; [exact Hr|exact Hs]).
  split; [by exists now|]. split; [exact (cw_steps_wf _ _ Hr' (init_state_wf now))|].
  by apply cw_steps_extends.
Qed.
