(* ===== verification/EndToEnd.v ===== *)
(** * The handler against the service model

    [lambda_handler] instantiated with [CloudWatch.cw_client]: two
    behaviours the source shows where the spec expects others, for every
    service state and every notification (a configured group name that
    is a substring of another group's name, and a group past the first
    page of [describe_log_groups], both make the invocation fail), and
    the witnesses of the handler's theorems, the refinement theorem of
    [Refinement] among them at [cw_contract], the composed theorems of
    [Published] at [json_loads_model allowance]. *)

From stdpp Require Import base list strings gmap pretty sorting.
From Stdlib Require Import Ascii String ZArith Lia.
From S2P Require Import Prelude PyStr PyVal Json JsonGrammar Nonce LogsApi CloudWatch Handler Refinement Published Clock ServiceSteps.
Import CloudWatch.

Local Open Scope string_scope.

(** ** Concrete runs *)

(** An SNS notification as the Lambda runtime hands it over. *)
Definition sns_event (msg : string) : pyval :=
  PDict [("Records", PList [PDict [("EventSource", PStr "aws:sns");
                                  ("Sns", PDict [("Message", PStr msg)])]])].

(** A stream of 32-bit words, and a clock ticking once a millisecond. *)
Definition lcg_words (i : nat) : Z := ((Z.of_nat i * 1103515245 + 12345) mod 2 ^ 32)%Z.
Definition ms_clock (start : Z) (i : nat) : Z := (start + Z.of_nat i)%Z.

(** A JSON string literal (no escapes needed). *)
Definition jstr (s : string) : string := String dquote (s ++ String dquote "").

(** Readings across the binade boundary of January 2004: the first is
    the float just below [2^30] seconds (exponent [-23]), the next ones
    start at [2^30] and are a millisecond apart (exponent [-22]). *)
Definition cross_readings (j : nat) : f64 :=
  match j with
  | O => mkF64 (2 ^ 53 - 1) (-23)
  | S j' => mkF64 (2 ^ 52 + Z.of_nat j' * 4194) (-22)
  end.

(** A body written by hand: whitespace around the tokens, a negative
    number, a [\u00e9] and a [\n] escape, and the key "a" given twice. *)
Definition grammar_text : string :=
  " {" ++ jstr "a" ++ ": [1, -20], " ++ jstr "b\u00e9" ++ ": " ++ jstr "x\n" ++ ", " ++ jstr "a" ++ ": null} ".

(** Its value: the second "a" replaces the first in place. *)
Definition grammar_value : pyval :=
  PDict [("a", PNone); (String "b" (String (ascii_of_nat 233) ""), PStr (String "x" (String (ascii_of_nat 10) "")))].

(** The recursion allowance the witnesses call [json.loads] with; the
    theorems hold for every allowance. *)
Definition allowance : nat := 1000.

Definition environ_of (g p : string) : gmap string string :=
  <["CloudWatchLogGroupName" := g]> (<["CloudWatchLogStreamNamePrefix" := p]> ∅).

Definition service_at (now : Z) (gs : list LogGroup) : State :=
  {| cw_groups := gs; cw_now := now; cw_issued := 0 |}.

Definition empty_group (g : string) : LogGroup :=
  {| lg_name := g; lg_tags := []; lg_streams := [] |}.

(** A world at time [now], with the clock reading [start] first. *)
Definition world_at (now start : Z) (gs : list LogGroup) (env : gmap string string) : World State :=
  mkWorld (service_at now gs) env (ms_clock start) 0 lcg_words 0 [] [].

(** The first page [describe_log_groups] returns. *)
Definition first_page (s : State) : list LogGroupInfo :=
  firstn page_size (map (fun x => {| logGroupName := lg_name x |}) (cw_groups s)).

(** Fifty groups [grp-00] to [grp-49], then [zz-target]. *)
Definition two_digits (i : nat) : string :=
  String (hex_digit (i / 10)) (String (hex_digit (i mod 10)) "").
Definition crowded_groups : list LogGroup :=
  map (fun i => empty_group ("grp-" ++ two_digits i)) (seq 0 50) ++ [empty_group "zz-target"].


Lemma decode_sns_event (json_loads : string -> PyExn + pyval) msg :
  decode_events json_loads (sns_event msg) = json_loads msg.
Proof. reflexivity. Qed.

(** Run the handler on a concrete world whose notification decodes by
    [Hj]: draw the nonce, take the handler's first steps and evaluate. *)
Ltac run_scenario Hj :=
  match goal with |- context [lambda_handler ?loads (sns_event ?msg) ?ctx ?w] =>
    let r := eval vm_compute in (make_nonce (w_words w) (w_drawn w)) in
    match r with inr ?n =>
      rewrite (lambda_handler_prefix loads (sns_event msg) ctx w _ n
                 ltac:(rewrite decode_sns_event; exact Hj) ltac:(vm_compute; reflexivity))
    end
  end; vm_compute.

Lemma create_log_stream_no_group (s : State) g n :
  find_group g (cw_groups s) = None -> exists e, create_log_stream g n s = (inl e, s).
Proof.
  intros Hf. unfold create_log_stream, client_error.
  destruct (_ || _); [eauto|]. destruct (valid_stream_name n); cbn; [rewrite Hf|]; eauto.
Qed.

Lemma create_log_group_exists (s : State) g tags x :
  valid_group_name g = true -> find_group g (cw_groups s) = Some x ->
  create_log_group g tags s = (inl (ClientError "ResourceAlreadyExistsException"), s).
Proof.
  intros Hv Hf. unfold create_log_group, client_error.
  assert (Hg : String.eqb g "" = false).
  { apply String.eqb_neq. by apply valid_group_name_nonempty. }
  by rewrite Hg, Hv, Hf.
Qed.

(** C19: the group lookup matches substrings.  When no group has the
    configured name but a listed group's name contains it, the handler
    skips creating the group, the creation of the stream fails, and the
    invocation ends with that exception: no group, no stream, no record,
    and the service unchanged. *)
Theorem substring_group_fails (json_loads : string -> PyExn + pyval) event context
    (w : World State) v ms nonce :
  decode_events json_loads event = inr v -> py_iter v = inr ms -> ms <> [] ->
  make_nonce (w_words w) (w_drawn w) = inr nonce ->
  find_group (config_group w) (cw_groups (w_svc w)) = None ->
  any_group_contains (config_group w) (first_page (w_svc w)) = true ->
  exists e, lambda_handler json_loads event context w =
    (Raised e, mkWorld (w_svc w) (w_environ w) (w_clock w) (w_ticks w) (w_words w) (w_drawn w + 16)
       (w_calls w ++ [(DescribeLogGroups, RGroups (first_page (w_svc w)));
                      (CreateLogStream (config_group w) (config_prefix w ++ "-" ++ nonce), RErr e)])
       (w_stdout w)).
Proof.
  intros Hdec Hiter Hne Hn Hf Hany.
  rewrite (lambda_handler_nonempty json_loads event context w v ms nonce Hdec Hiter Hne Hn).
  destruct (create_log_stream_no_group (w_svc w) (config_group w) (config_prefix w ++ "-" ++ nonce) Hf)
    as [e Hc].
  exists e.
  unfold open_stream, ifLogGroupExists, cw_describe_log_groups, createLogStream,
    cw_create_log_stream, cw_call, pym_bind, pym_ret.
  cbn [LogsApi.describe_log_groups LogsApi.create_log_stream cw_client nonce_world w_svc].
  unfold describe_log_groups. fold (first_page (w_svc w)). rewrite Hany.
  unfold log_call. cbn [w_svc]. rewrite Hc. cbn. by rewrite <- app_assoc.
Qed.

Lemma substring_group_fails_witness :
  exists e w', lambda_handler (fun _ => inr (PList [PStr "x"])) (sns_event "m") PNone
    (world_at 0 0 [empty_group "myapp-logs"] (environ_of "app" "ds")) = (Raised e, w').
Proof.
  edestruct (substring_group_fails (fun _ => inr (PList [PStr "x"])) (sns_event "m") PNone
    (world_at 0 0 [empty_group "myapp-logs"] (environ_of "app" "ds"))
    (PList [PStr "x"]) [PStr "x"] "AFBHDJFL") as [e He];
    [reflexivity|reflexivity|discriminate|vm_compute; reflexivity
    |vm_compute; reflexivity|vm_compute; reflexivity|].
  eexists _, _. exact He.
Defined.

(** C20: the group lookup reads only the first page of
    [describe_log_groups].  When the configured group exists but is not
    among the first fifty listed, the handler tries to create it, the
    service answers [ResourceAlreadyExistsException], and the invocation
    ends there with no stream and no record. *)
Theorem unlisted_group_fails (json_loads : string -> PyExn + pyval) event context
    (w : World State) v ms nonce x :
  decode_events json_loads event = inr v -> py_iter v = inr ms -> ms <> [] ->
  make_nonce (w_words w) (w_drawn w) = inr nonce ->
  find_group (config_group w) (cw_groups (w_svc w)) = Some x ->
  valid_group_name (config_group w) = true ->
  any_group_contains (config_group w) (first_page (w_svc w)) = false ->
  lambda_handler json_loads event context w =
    (Raised (ClientError "ResourceAlreadyExistsException"),
     mkWorld (w_svc w) (w_environ w) (w_clock w) (w_ticks w) (w_words w) (w_drawn w + 16)
       (w_calls w ++ [(DescribeLogGroups, RGroups (first_page (w_svc w)));
                      (CreateLogGroup (config_group w) (group_tags (config_group w)),
                       RErr (ClientError "ResourceAlreadyExistsException"))])
       (w_stdout w)).
Proof.
  intros Hdec Hiter Hne Hn Hf Hv Hany.
  rewrite (lambda_handler_nonempty json_loads event context w v ms nonce Hdec Hiter Hne Hn).
  unfold open_stream, ifLogGroupExists, cw_describe_log_groups, createLogGroup,
    cw_create_log_group, cw_call, pym_bind, pym_ret.
  cbn [LogsApi.describe_log_groups LogsApi.create_log_group cw_client nonce_world w_svc].
  unfold describe_log_groups. fold (first_page (w_svc w)). rewrite Hany.
  unfold log_call. cbn [w_svc]. rewrite (create_log_group_exists _ _ _ x Hv Hf). cbn.
  by rewrite <- app_assoc.
Qed.

Lemma unlisted_group_fails_witness :
  exists w', lambda_handler (fun _ => inr (PList [PStr "x"])) (sns_event "m") PNone
    (world_at 0 0 crowded_groups (environ_of "zz-target" "ds")) =
    (Raised (ClientError "ResourceAlreadyExistsException"), w').
Proof.
  eexists. apply (unlisted_group_fails (fun _ => inr (PList [PStr "x"])) (sns_event "m") PNone
    (world_at 0 0 crowded_groups (environ_of "zz-target" "ds"))
    (PList [PStr "x"]) [PStr "x"] "AFBHDJFL" (empty_group "zz-target"));
    [reflexivity|reflexivity|discriminate|vm_compute; reflexivity
    |vm_compute; reflexivity|vm_compute; reflexivity|vm_compute; reflexivity].
Defined.

Lemma handler_appends_messages_witness :
  exists w' tok,
    lambda_handler (fun _ => inr (PList [PStr "alpha"; PInt 42])) (sns_event "m") PNone
      (world_at 1700000000000 1700000000000 [] (environ_of "ws-events" "ds")) = (Normal PNone, w') /\
    LogsApi.stream_state (w_svc w') "ws-events" "ds-AFBHDJFL" =
      Some (stamped (ms_clock 1700000000000) 0 [PStr "alpha"; PInt 42], tok) /\
    LogsApi.svc_inv (w_svc w').
Proof.
  apply (handler_appends_messages (fun _ => inr (PList [PStr "alpha"; PInt 42])) (sns_event "m") PNone
    (world_at 1700000000000 1700000000000 [] (environ_of "ws-events" "ds"))
    (PList [PStr "alpha"; PInt 42]) [PStr "alpha"; PInt 42] "AFBHDJFL").
  - reflexivity.
  - reflexivity.
  - discriminate.
  - vm_compute. reflexivity.
  - split; [split; [constructor|split; constructor]|].
    split; [vm_compute; reflexivity|]. split; [vm_compute; reflexivity|].
    eexists. split; [reflexivity|]. right. vm_compute. auto.
  - decide_by_compute.
Defined.

Lemma lambda_handler_isolated_witness :
  let w := world_at 0 0 [{| lg_name := "ws-events"; lg_tags := [];
                            lg_streams := [{| ls_name := "other";
                                              ls_events := [{| timestamp := 0; LogsApi.message := "earlier" |}];
                                              ls_token := Some "7" |}] |}]
             (environ_of "ws-events" "ds") in
  ("ws-events" <> config_group w \/
   ("other" <> "" /\ forall nonce, make_nonce (w_words w) (w_drawn w) = inr nonce ->
                       "other" <> config_prefix w ++ "-" ++ nonce)) /\
  LogsApi.stream_state (w_svc (lambda_handler (fun _ => inr (PList [PStr "m"])) (sns_event "m") PNone w).2)
    "ws-events" "other" = LogsApi.stream_state (w_svc w) "ws-events" "other".
Proof.
  intros w.
  assert (H : "ws-events" <> config_group w \/
              ("other" <> "" /\ forall nonce, make_nonce (w_words w) (w_drawn w) = inr nonce ->
                                  "other" <> config_prefix w ++ "-" ++ nonce)).
  { right. split; [discriminate|]. intros nonce Hn. vm_compute in Hn. injection Hn as <-.
    vm_compute. discriminate. }
  split; [exact H|]. exact (lambda_handler_isolated _ (sns_event "m") PNone w "ws-events" "other" H).
Defined.

(** ** Witnesses of the handler's theorems at concrete inputs *)

Lemma put_chain_all_accepted_witness :
  let e := [(put_request "ws-events" "s" (ms_clock 0) 0 None (PStr "alpha"),
             RPut {| nextSequenceToken := Some "1"; rejectedLogEventsInfo := None; put_ResponseMetadata := ok_meta |})] in
  put_chain "ws-events" "s" (ms_clock 0) 0 None [PStr "alpha"] e (Normal None) /\
  List.length e = 1%nat.
Proof.
  intros e.
  assert (H : put_chain "ws-events" "s" (ms_clock 0) 0 None [PStr "alpha"] e (Normal None)).
  { eapply chain_next; [reflexivity|reflexivity|constructor]. }
  split; [exact H|]. exact (proj1 (put_chain_all_accepted _ _ _ _ _ _ _ H)).
Defined.

Lemma put_chain_stops_at_rejection_witness :
  let e := [(put_request "ws-events" "s" (ms_clock 0) 0 None (PStr "alpha"),
             RPut {| nextSequenceToken := Some "1";
                     rejectedLogEventsInfo := Some {| tooNewLogEventStartIndex := Some 0%Z;
                                                      tooOldLogEventEndIndex := None;
                                                      expiredLogEventEndIndex := None |};
                     put_ResponseMetadata := ok_meta |})] in
  put_chain "ws-events" "s" (ms_clock 0) 0 None [PStr "alpha"; PStr "beta"] e
    (Normal (Some (PBool false))) /\
  PBool false = PBool false.
Proof.
  intros e.
  assert (H : put_chain "ws-events" "s" (ms_clock 0) 0 None [PStr "alpha"; PStr "beta"] e
                (Normal (Some (PBool false)))).
  { eapply chain_rejected. reflexivity. }
  split; [exact H|]. exact (proj1 (put_chain_stops_at_rejection _ _ _ _ _ _ _ _ H)).
Defined.

Lemma lambda_handler_empty_witness :
  lambda_handler (fun _ => inr (PList [])) (sns_event "[]") PNone
    (world_at 0 0 [] (environ_of "ws-events" "ds")) =
  (Normal PNone, nonce_world (world_at 0 0 [] (environ_of "ws-events" "ds"))).
Proof.
  apply lambda_handler_empty with (v := PList []); [reflexivity|reflexivity|].
  intros i. cbn. unfold lcg_words. apply Z.mod_pos_bound. lia.
Defined.

Lemma lambda_handler_calls_witness :
  let w := world_at 0 0 [] (environ_of "ws-events" "ds") in
  let json := fun _ : string => inr (PList [PStr "alpha"]) : PyExn + pyval in
  match open_stream (config_group w) (config_prefix w ++ "-" ++ "AFBHDJFL") (nonce_world w) with
  | (Raised e, w1) => lambda_handler json (sns_event "m") PNone w = (Raised e, w1)
  | (Normal sn, w1) =>
      exists entries r,
        w_calls (lambda_handler json (sns_event "m") PNone w).2 = (w_calls w1 ++ entries)%list /\
        put_chain (config_group w) sn (w_clock w1) (w_ticks w1) None [PStr "alpha"] entries r /\
        (lambda_handler json (sns_event "m") PNone w).1 = loop_result r
  end.
Proof.
  intros w json.
  apply (lambda_handler_calls json (sns_event "m") PNone w (PList [PStr "alpha"]));
    [reflexivity|reflexivity|discriminate|vm_compute; reflexivity].
Defined.

Lemma open_stream_calls_witness :
  let w := world_at 0 0 [empty_group "ws-events"] (environ_of "ws-events" "ds") in
  exists rest,
    w_calls (open_stream "ws-events" "ds-A" w).2 =
      (w_calls w ++ (DescribeLogGroups, RGroups (first_page (w_svc w))) :: rest)%list /\
    (any_group_contains "ws-events" (first_page (w_svc w)) = true ->
       exists r, rest = [(CreateLogStream "ws-events" "ds-A", r)]) /\
    (any_group_contains "ws-events" (first_page (w_svc w)) = false ->
       exists r0, (rest = [(CreateLogGroup "ws-events" (group_tags "ws-events"), r0)] /\
                   exists e, r0 = RErr e) \/
                  exists r, rest = [(CreateLogGroup "ws-events" (group_tags "ws-events"), r0);
                                    (CreateLogStream "ws-events" "ds-A", r)]).
Proof. intros w. apply open_stream_calls. reflexivity. Defined.

Lemma open_stream_result_witness :
  let w := world_at 0 0 [empty_group "ws-events"] (environ_of "ws-events" "ds") in
  exists meta, last (w_calls (open_stream "ws-events" "ds-A" w).2) =
                 Some (CreateLogStream "ws-events" "ds-A", RMeta meta) /\
               "ds-A" = (if (HTTPStatusCode meta =? 200)%Z then "ds-A" else "").
Proof.
  intros w.
  assert (H1 : (open_stream "ws-events" "ds-A" w).1 = Normal "ds-A") by (vm_compute; reflexivity).
  apply (open_stream_result "ws-events" "ds-A" w "ds-A" (open_stream "ws-events" "ds-A" w).2).
  rewrite <- H1. apply surjective_pairing.
Defined.

Lemma published_messages_appended_witness :
  exists w' tok,
    lambda_handler (json_loads_model allowance) (sns_event (json_dumps (PList [PStr "alpha"; PInt 42]))) PNone
      (world_at 1700000000000 1700000000000 [] (environ_of "ws-events" "ds")) = (Normal PNone, w') /\
    LogsApi.stream_state (w_svc w') "ws-events" "ds-AFBHDJFL" =
      Some (stamped (ms_clock 1700000000000) 0 [PStr "alpha"; PInt 42], tok) /\
    LogsApi.svc_inv (w_svc w').
Proof.
  apply (published_messages_appended allowance (json_loads_model allowance)
    (sns_event (json_dumps (PList [PStr "alpha"; PInt 42]))) PNone
    (world_at 1700000000000 1700000000000 [] (environ_of "ws-events" "ds"))
    [PStr "alpha"; PInt 42] "AFBHDJFL").
  - reflexivity.
  - reflexivity.
  - discriminate.
  - vm_compute. reflexivity.
  - split; [split; [constructor|split; constructor]|].
    split; [vm_compute; reflexivity|]. split; [vm_compute; reflexivity|].
    eexists. split; [reflexivity|]. right. vm_compute. auto.
  - decide_by_compute.
Defined.

Lemma malformed_message_raises_witness :
  json_decode allowance "[1,]" = Some (inl (JSONDecodeError "Expecting value: line 1 column 4 (char 3)")) /\
  lambda_handler (json_loads_model allowance) (sns_event "[1,]") PNone (world_at 0 0 [] (environ_of "ws-events" "ds")) =
    (Raised (JSONDecodeError "Expecting value: line 1 column 4 (char 3)"),
     nonce_world (world_at 0 0 [] (environ_of "ws-events" "ds"))).
Proof.
  assert (Hd : json_decode allowance "[1,]" = Some (inl (JSONDecodeError "Expecting value: line 1 column 4 (char 3)")))
    by (vm_compute; reflexivity).
  split; [exact Hd|].
  refine (proj1 (malformed_message_raises allowance (json_loads_model allowance) (sns_event "[1,]") PNone
            (world_at 0 0 [] (environ_of "ws-events" "ds")) "[1,]" _ eq_refl Hd _)).
  intros i. cbn. unfold lcg_words. apply Z.mod_pos_bound. lia.
Defined.

Lemma published_text_decodes_witness :
  json_dumps (PList [PStr "alpha"; PInt (-42); PDict [("k", PBool true)]]) =
    string_of_list_ascii (["["; dquote; "a"; "l"; "p"; "h"; "a"; dquote; ","; " "; "-"; "4"; "2"; ","; " ";
                           "{"; dquote; "k"; dquote; ":"; " "; "t"; "r"; "u"; "e"; "}"; "]"]%char) /\
  decode_events (json_loads_model allowance) (sns_event (json_dumps (PList [PStr "alpha"; PInt (-42); PDict [("k", PBool true)]]))) =
    inr (PList [PStr "alpha"; PInt (-42); PDict [("k", PBool true)]]).
Proof.
  split; [reflexivity|].
  apply (published_text_decodes allowance (json_loads_model allowance)); reflexivity.
Defined.

Lemma deep_message_raises_witness :
  list_ascii_of_string (String.concat "" (repeat "[" (S allowance))) = (repeat "["%char (S allowance) ++ [])%list /\
  lambda_handler (json_loads_model allowance) (sns_event (String.concat "" (repeat "[" (S allowance)))) PNone
    (world_at 0 0 [] (environ_of "ws-events" "ds")) =
    (Raised (RecursionError "maximum recursion depth exceeded while decoding a JSON array from a unicode string"),
     nonce_world (world_at 0 0 [] (environ_of "ws-events" "ds"))).
Proof.
  assert (Ht : list_ascii_of_string (String.concat "" (repeat "[" (S allowance))) = (repeat "["%char (S allowance) ++ [])%list)
    by (vm_compute; reflexivity).
  split; [exact Ht|].
  refine (proj1 (deep_message_raises allowance (json_loads_model allowance) (sns_event _) PNone
            (world_at 0 0 [] (environ_of "ws-events" "ds")) _ [] eq_refl Ht _)).
  intros i. cbn. unfold lcg_words. apply Z.mod_pos_bound. lia.
Defined.

Lemma decode_events_grammar_witness :
  json_text allowance (list_ascii_of_string grammar_text) grammar_value /\
  decode_events (json_loads_model allowance) (sns_event grammar_text) = inr grammar_value.
Proof.
  assert (H : decode_events (json_loads_model allowance) (sns_event grammar_text) = inr grammar_value)
    by (vm_compute; reflexivity).
  split; [|exact H].
  exact (proj2 (decode_events_grammar allowance (json_loads_model allowance) (sns_event grammar_text) grammar_text grammar_value eq_refl) H).
Defined.

(** ** The clock of line 94 *)

Lemma epoch_ms_accuracy_witness :
  epoch_ms_of (mkF64 (7130316800000000 + 2097152 + 12345) (-22)) = 1700000000503%Z /\
  epoch_ms_of (mkF64 (7130316800000000 + 2097) (-22)) = 1700000000000%Z /\
  (2 * Z.abs (epoch_ms_of (mkF64 (7130316800000000 + 2097) (-22)) * 2 ^ 22 - 1000 * (7130316800000000 + 2097))
     <= 2 ^ 22 + 2 ^ 10)%Z.
Proof.
  split; [vm_compute; reflexivity|]. split; [vm_compute; reflexivity|].
  apply (epoch_ms_accuracy (mkF64 (7130316800000000 + 2097) (-22))); cbn [f_man f_exp].
  - split; [lia|]. apply Z.ltb_lt. vm_compute. reflexivity.
  - lia.
Defined.

Lemma put_messages_chronological_witness :
  exists new,
    w_calls (put_messages "ws-events" "ds-A" [PStr "a"; PStr "b"] None
               (mkWorld (service_at 0 []) ∅ (time_clock cross_readings) 0 lcg_words 0 [] [])).2 =
      ([] ++ new)%list /\ Sorted Z.le (put_stamps new).
Proof.
  apply (put_messages_chronological "ws-events" "ds-A" [PStr "a"; PStr "b"] None
           (mkWorld (service_at 0 []) ∅ (time_clock cross_readings) 0 lcg_words 0 [] []) cross_readings).
  - reflexivity.
  - intros [|j]; cbn [cross_readings f_man]; lia.
  - intros [|j]; unfold f64_le; cbn [cross_readings f_man f_exp]; [vm_compute; discriminate|].
    rewrite Z.min_id, Z.sub_diag. lia.
Defined.

(** ** Bodies that are not arrays *)

Lemma non_array_bodies_witness :
  let loads := fun t : string => if String.eqb t "s" then inr (PStr "ok") else inr (PList [PStr "o"; PStr "k"]) in
  lambda_handler loads (sns_event "s") PNone (world_at 1700000000000 1700000000000 [] (environ_of "ws-events" "ds")) =
  lambda_handler loads (sns_event "l") PNone (world_at 1700000000000 1700000000000 [] (environ_of "ws-events" "ds")).
Proof.
  intros loads.
  refine (proj1 (non_array_bodies loads (sns_event "s") (sns_event "l") PNone
            (world_at 1700000000000 1700000000000 [] (environ_of "ws-events" "ds")) (PStr "ok") eq_refl _)
            "ok" eq_refl eq_refl).
  intros i. cbn. unfold lcg_words. apply Z.mod_pos_bound. lia.
Defined.
