(* ===== verification/Interleavings.v ===== *)
(** * Interleaved invocations on the service model

    Invocations of the handler run concurrently against the service
    model of [CloudWatch] with the scheduler of [Concurrent].  The test
    of [ifLogGroupExists] and the [createLogGroup] that acts on it (lines
    82-86) are not atomic: for every service state without the group and
    every two invocations configured for it, whatever their
    notifications (any decoder, any non-empty list of messages), when
    both look the group up before either creates it the first creation
    succeeds and the second is refused with
    [ResourceAlreadyExistsException]: that invocation raises and none of
    its messages is written ([cold_start_race]).  The file also holds
    the witnesses of the theorems of [Concurrent], on two invocations
    started before the group exists. *)

From stdpp Require Import base list strings gmap relations.
From Stdlib Require Import String ZArith Lia.
From S2P Require Import Prelude PyVal Json Nonce LogsApi CloudWatch Handler CallTree HandlerTree Concurrent EndToEnd.
Import CloudWatch.

Local Open Scope string_scope.

(** A notification carrying one message. *)
Definition race_msg : string := "[" ++ jstr "alpha" ++ "]".

(** The local world of an invocation configured for the group
    "ws-events" and the prefix "ds", its random words read from position
    [drawn]: the two processes draw different nonces. *)
Definition race_loc (drawn : nat) : Loc :=
  mkWorld tt (environ_of "ws-events" "ds") (ms_clock 1700000000000) 0 lcg_words drawn [] [].

Definition race_starts : list (pyval * pyval * Loc) :=
  [(sns_event race_msg, PNone, race_loc 0); (sns_event race_msg, PNone, race_loc 16)].

(** The service with no group yet and both invocations about to run. *)
Definition race_config (json_loads : string -> PyExn + pyval) : config State :=
  start_config json_loads (service_at 1700000000000 []) race_starts.

(** ** Invocations that open their stream *)

(** The first requests of an invocation whose notification holds
    messages: it describes the groups; when the answer does not contain
    its group it creates it, and raises if the creation is refused or
    goes on to create its stream. *)
Lemma lambda_handler_tree_cold (json_loads : string -> PyExn + pyval) e ctx (l : Loc) v ms nonce :
  decode_events json_loads e = inr v -> py_iter v = inr ms -> ms <> [] ->
  make_nonce (w_words l) (w_drawn l) = inr nonce ->
  exists k, lambda_handler_tree json_loads e ctx l = Call DescribeLogGroups k /\
    forall gs, any_group_contains (config_group l) gs = false ->
      exists k', k (inr gs) = Call (CreateLogGroup (config_group l) (group_tags (config_group l))) k' /\
        (forall err, exists l', k' (inl err) = Done (Raised err, l')) /\
        (forall m, exists k'', k' (inr m) = Call (CreateLogStream (config_group l) (config_prefix l ++ "-" ++ nonce)) k'').
Proof.
  intros Hdec Hiter Hne Hn.
  unfold lambda_handler_tree, inv_bind, inv_local, inv_ret. cbn [tree_bind].
  unfold environ_get, draw_nonce. rewrite Hn. cbn [tree_bind]. unfold pym_lift. rewrite Hdec.
  unfold pym_ret, pym_raise. cbn beta iota.
  rewrite (py_iter_len v ms Hiter). destruct ms as [|m0 ms]; [done|]. cbn [tree_bind List.length Nat.ltb Nat.leb].
  unfold open_stream_tree, ifLogGroupExists_tree, inv_bind, inv_call, inv_ret. cbn [tree_bind].
  eexists. split; [reflexivity|]. intros gs Hgs. cbn [tree_bind answer_result].
  unfold config_group in Hgs. rewrite Hgs.
  unfold createLogGroup_tree, inv_bind, inv_call. cbn [tree_bind].
  eexists. split; [reflexivity|]. split.
  - intros err. eexists. reflexivity.
  - intros m. cbn [tree_bind]. unfold inv_local, py_print, pym_modify. cbn [tree_bind].
    unfold createLogStream_tree, inv_bind, inv_call. cbn [tree_bind]. eexists. reflexivity.
Qed.

Lemma serve_describe (s : State) : serve DescribeLogGroups s = (inr (first_page s), s).
Proof. reflexivity. Qed.

Lemma serve_create_group (s : State) g tags : serve (CreateLogGroup g tags) s = create_log_group g tags s.
Proof. reflexivity. Qed.

(** C14: the check-then-create race of lines 82-86.  For every service
    state in which the group is absent and not matched by the first
    page, and every two invocations configured for that (valid) group,
    whose notifications decode, by any decoder, to non-empty lists and
    whose nonces draw: when the scheduler lets both look the group up
    before either creates it, the first invocation's creation succeeds
    and it goes on to create its stream, while the second invocation's
    creation is refused and it returns [ClientError
    "ResourceAlreadyExistsException"], before creating any stream or
    writing any of its messages. *)
Theorem cold_start_race (json_loads : string -> PyExn + pyval) (s : State)
    e1 c1 (l1 : Loc) v1 ms1 n1 e2 c2 (l2 : Loc) v2 ms2 n2 :
  decode_events json_loads e1 = inr v1 -> py_iter v1 = inr ms1 -> ms1 <> [] ->
  make_nonce (w_words l1) (w_drawn l1) = inr n1 ->
  decode_events json_loads e2 = inr v2 -> py_iter v2 = inr ms2 -> ms2 <> [] ->
  make_nonce (w_words l2) (w_drawn l2) = inr n2 ->
  config_group l2 = config_group l1 ->
  valid_group_name (config_group l1) = true ->
  find_group (config_group l1) (cw_groups s) = None ->
  any_group_contains (config_group l1) (first_page s) = false ->
  exists cfg, run_schedule [0; 1; 0; 1] (start_config json_loads s [(e1, c1, l1); (e2, c2, l2)]) = Some cfg /\
    option_map outcome_of (cfg_invs cfg !! 1) = Some (Some (Raised (ClientError "ResourceAlreadyExistsException"))) /\
    find_group (config_group l1) (cw_groups (cfg_svc cfg)) =
      Some {| lg_name := config_group l1; lg_tags := group_tags (config_group l1); lg_streams := [] |} /\
    exists k, cfg_invs cfg !! 0 = Some (Call (CreateLogStream (config_group l1) (config_prefix l1 ++ "-" ++ n1)) k).
Proof.
  intros Hd1 Hi1 Hm1 Hn1 Hd2 Hi2 Hm2 Hn2 Hg Hv Hf Hany.
  destruct (lambda_handler_tree_cold json_loads e1 c1 l1 v1 ms1 n1 Hd1 Hi1 Hm1 Hn1) as (k1 & Ht1 & K1).
  destruct (lambda_handler_tree_cold json_loads e2 c2 l2 v2 ms2 n2 Hd2 Hi2 Hm2 Hn2) as (k2 & Ht2 & K2).
  rewrite Hg in K2.
  destruct (K1 (first_page s) Hany) as (k1' & Hk1 & _ & Hok1).
  destruct (K2 (first_page s) Hany) as (k2' & Hk2 & Herr2 & _).
  destruct (create_log_group_new s (config_group l1) (group_tags (config_group l1)) Hv Hf) as (s1 & Hc1 & Hf1 & _).
  destruct (Hok1 ok_meta) as (k1'' & Hk1').
  destruct (Herr2 (ClientError "ResourceAlreadyExistsException")) as (l2' & Hk2').
  unfold start_config. cbn [map]. rewrite Ht1, Ht2.
  cbn [run_schedule]. unfold step_at. cbn [cfg_invs cfg_svc lookup list_lookup].
  rewrite serve_describe. cbn -[first_page serve]. rewrite Hk1.
  cbn -[first_page serve]. rewrite serve_describe. cbn -[first_page serve]. rewrite Hk2.
  cbn -[first_page serve]. rewrite serve_create_group, Hc1. cbn -[first_page serve].
  rewrite serve_create_group, (create_log_group_exists s1 _ _ _ Hv Hf1). cbn -[first_page serve].
  eexists. split; [reflexivity|]. cbn [cfg_invs cfg_svc]. split; [|split; [exact Hf1|]].
  - cbn [lookup list_lookup option_map]. f_equal. exact (f_equal outcome_of Hk2').
  - exists k1''. cbn [lookup list_lookup]. f_equal. exact Hk1'.
Qed.

Lemma cold_start_race_witness :
  exists cfg, run_schedule [0; 1; 0; 1] (race_config (json_loads_model allowance)) = Some cfg /\
    option_map outcome_of (cfg_invs cfg !! 1) = Some (Some (Raised (ClientError "ResourceAlreadyExistsException"))) /\
    find_group "ws-events" (cw_groups (cfg_svc cfg)) =
      Some {| lg_name := "ws-events"; lg_tags := group_tags "ws-events"; lg_streams := [] |} /\
    exists k, cfg_invs cfg !! 0 = Some (Call (CreateLogStream "ws-events" ("ds" ++ "-" ++ "AFBHDJFL")) k).
Proof.
  exact (cold_start_race (json_loads_model allowance) (service_at 1700000000000 [])
           (sns_event race_msg) PNone (race_loc 0) (PList [PStr "alpha"]) [PStr "alpha"] "AFBHDJFL"
           (sns_event race_msg) PNone (race_loc 16) (PList [PStr "alpha"]) [PStr "alpha"] "GMIOKQMR"
           ltac:(vm_compute; reflexivity) eq_refl ltac:(discriminate) ltac:(vm_compute; reflexivity)
           ltac:(vm_compute; reflexivity) eq_refl ltac:(discriminate) ltac:(vm_compute; reflexivity)
           ltac:(vm_compute; reflexivity) ltac:(vm_compute; reflexivity) ltac:(vm_compute; reflexivity)
           ltac:(vm_compute; reflexivity)).
Defined.

Lemma invocations_finish_witness :
  start_bound (json_loads_model allowance) race_starts = 8 /\
  exists cfg', rtc cstep (race_config (json_loads_model allowance)) cfg' /\ all_returned cfg'.
Proof.
  split; [vm_compute; reflexivity|].
  exact (proj1 (proj2 (invocations_finish (json_loads_model allowance) (service_at 1700000000000 []) race_starts))
           _ (rtc_refl _ _)).
Defined.

Lemma concurrent_streams_isolated_witness :
  option_map (fun cfg => option_map (fun st => map LogsApi.message st.1) (stream_state (cfg_svc cfg) "ws-events" "ds-AFBHDJFL"))
    (run_schedule [0; 0; 0; 0; 1; 1] (race_config (json_loads_model allowance))) = Some (Some ["alpha"]) /\
  match run_schedule [0; 0; 0; 0; 1; 1] (race_config (json_loads_model allowance)) with
  | Some cfg =>
      match step_at 1 cfg with
      | Some cfg' => stream_state (cfg_svc cfg') "ws-events" "ds-AFBHDJFL" =
                     stream_state (cfg_svc cfg) "ws-events" "ds-AFBHDJFL"
      | None => False
      end
  | None => False
  end.
Proof.
  split; [vm_compute; reflexivity|].
  assert (Hothers : forall j l, j <> 0 -> map (fun '(_, _, l) => l) race_starts !! j = Some l ->
                      stream_name_of l <> "ds-AFBHDJFL").
  { intros [|[|j]] l Hj Hl; [done| |done]. injection Hl as <-. vm_compute. discriminate. }
  assert (Hfull : option_map (fun _ => tt) (run_schedule ([0; 0; 0; 0; 1; 1] ++ [1]) (race_config (json_loads_model allowance))) = Some tt)
    by (vm_compute; reflexivity).
  rewrite run_schedule_app in Hfull.
  destruct (run_schedule [0; 0; 0; 0; 1; 1] (race_config (json_loads_model allowance))) as [cfg|] eqn:E; [|done].
  cbn in Hfull. destruct (step_at 1 cfg) as [cfg'|] eqn:E'; [|done].
  exact (concurrent_streams_isolated (json_loads_model allowance) (service_at 1700000000000 []) race_starts 0 "ws-events" "ds-AFBHDJFL"
           ltac:(discriminate) Hothers cfg cfg' 1 (run_schedule_rtc _ _ _ E) E' ltac:(discriminate)).
Defined.
